(** * Blockchain MCP server: tool dispatch, validation and unit conversion

    A shallow embedding of the TypeScript sources
    - [toolHandlers.ts]  (the eight tool handlers and [handleTool]),
    - [schemas.ts]       (the Zod argument schemas),
    - [client.ts]        (RPC url resolution, [getPublicClient],
                          [getWalletClient]),
    - [index.ts]         (the [CallToolRequestSchema] request handler),
    together with the library routines those sources call
    ([formatUnits], [parseUnits] of viem, [safeParse] of Zod, property
    lookup on an object literal). *)

From Stdlib Require Import ZArith NArith QArith Qabs Lia List String Ascii Bool.
Import ListNotations.

Set Warnings "-register-all".
Local Open Scope Z_scope.

(* ===================================================================== *)
(** * JavaScript strings as character lists *)
(* ===================================================================== *)

Module JsString.

Definition chars := list ascii.

Definition of_string (s : string) : chars := list_ascii_of_string s.
Definition to_string (l : chars) : string := string_of_list_ascii l.

Definition zero_char : ascii := "0"%char.
Definition dot_char : ascii := "."%char.
Definition minus_char : ascii := "-"%char.

(** [c] is one of the characters of the class [[0-9]]. *)
Definition is_digit (c : ascii) : bool :=
  let n := nat_of_ascii c in (48 <=? n)%nat && (n <=? 57)%nat.

Definition digit_of_N (d : N) : ascii := ascii_of_N (48 + d).
Definition N_of_digit (c : ascii) : N := N_of_ascii c - 48.

(** [s.startsWith("-")] *)
Definition startsWith_minus (s : chars) : bool :=
  match s with
  | c :: _ => Ascii.eqb c minus_char
  | [] => false
  end.

(** [s.slice(1)] *)
Definition slice_from_1 (s : chars) : chars := skipn 1 s.

(** [s.slice(a, b)] and [s.slice(a)] for indices [0 <= a <= b]; the sources
    only ever call [slice] with such indices. *)
Definition slice (a b : nat) (s : chars) : chars := firstn (b - a) (skipn a s).
Definition slice_from (a : nat) (s : chars) : chars := skipn a s.

(** [s.padStart(n, "0")] *)
Definition padStart0 (n : nat) (s : chars) : chars :=
  repeat zero_char (n - List.length s) ++ s.

(** [s.padEnd(n, "0")] *)
Definition padEnd0 (n : nat) (s : chars) : chars :=
  s ++ repeat zero_char (n - List.length s).

(** [s.replace(/(0+)$/, "")]: drops the zeros the string ends with. *)
Fixpoint strip_trailing_zeros (s : chars) : chars :=
  match s with
  | [] => []
  | c :: r =>
      match strip_trailing_zeros r with
      | [] => if Ascii.eqb c zero_char then [] else [c]
      | r' => c :: r'
      end
  end.

(** [s.split(".")]: the pieces between the dots, at least one piece. *)
Fixpoint split_dot (s : chars) : list chars :=
  match s with
  | [] => [[]]
  | c :: r =>
      if Ascii.eqb c dot_char then [] :: split_dot r
      else match split_dot r with
           | p :: ps => (c :: p) :: ps
           | [] => [[c]]
           end
  end.

(** Value of a digit string read in base ten, most significant digit
    first; the empty string reads as zero. *)
Definition digits_value (s : chars) : N :=
  fold_left (fun acc c => 10 * acc + N_of_digit c)%N s 0%N.

(** The decimal digits of [n], most significant first, pushed in front
    of [acc]. *)
Fixpoint N_digits (fuel : nat) (n : N) (acc : chars) : chars :=
  match fuel with
  | O => acc
  | S fuel' =>
      let acc' := digit_of_N (n mod 10) :: acc in
      if (n / 10 =? 0)%N then acc' else N_digits fuel' (n / 10) acc'
  end.

Definition N_toString (n : N) : chars :=
  N_digits (S (N.to_nat (N.log2 n))) n [].

(** [value.toString()] of a [bigint]. *)
Definition bigint_toString (v : Z) : chars :=
  match v with
  | Z0 => [zero_char]
  | Zpos p => N_toString (Npos p)
  | Zneg p => minus_char :: N_toString (Npos p)
  end.

(** [BigInt(s)] for the strings the sources build: an optional minus sign
    and decimal digits.  The empty string is [0n]; a lone sign, or any
    other character, is a [SyntaxError] ([None]). *)
Definition BigInt_of_chars (s : chars) : option Z :=
  let body := if startsWith_minus s then slice_from_1 s else s in
  if forallb is_digit body then
    if startsWith_minus s then
      match body with
      | [] => None
      | _ => Some (- Z.of_N (digits_value body))
      end
    else Some (Z.of_N (digits_value body))
  else None.

End JsString.

(* ===================================================================== *)
(** * JavaScript numbers: [Number(s)] and [Math.round] *)
(* ===================================================================== *)

Module JsNumber.
Import JsString.

(** A [number] that is either [NaN] or the finite, non-negative double
    [mant * 2^expo]. *)
Inductive number :=
| NaN
| Finite (mant expo : Z).

(** Nearest integer to [n / d], ties to the even one ([0 <= n], [0 < d]). *)
Definition round_half_even (n d : Z) : Z :=
  let q := n / d in
  match 2 * (n mod d) ?= d with
  | Lt => q
  | Gt => q + 1
  | Eq => if Z.even q then q else q + 1
  end.

(** The [e] with [2^e <= n / d < 2^(e+1)] ([0 < n], [0 < d]). *)
Definition binade (n d : Z) : Z :=
  let e0 := Z.log2 n - Z.log2 d in
  if 0 <=? e0
  then if d * 2 ^ e0 <=? n then e0 else e0 - 1
  else if d <=? n * 2 ^ (- e0) then e0 else e0 - 1.

(** The IEEE 754 binary64 value nearest to the rational [n / d], ties to
    even: 53 bits of precision, exponents of the last place no lower than
    [-1074].  Used for quotients below [2^1024] only. *)
Definition nearest_double (n d : Z) : number :=
  if n =? 0 then Finite 0 0
  else
    let e := Z.max (binade n d - 52) (-1074) in
    let m := if 0 <=? e
             then round_half_even n (d * 2 ^ e)
             else round_half_even (n * 2 ^ (- e)) d in
    Finite m e.

(** [Number(int + "." + frac)] for digit strings [int] and [frac]:
    [StringToNumber] of a decimal literal; a lone ["."] is [NaN]. *)
Definition Number_of_decimal (int frac : chars) : number :=
  match int, frac with
  | [], [] => NaN
  | _, _ => nearest_double (Z.of_N (digits_value (int ++ frac)))
                           (10 ^ Z.of_nat (List.length frac))
  end.

(** [Math.round(x)]: [floor(x + 1/2)]; [None] stands for [NaN]. *)
Definition Math_round (x : number) : option Z :=
  match x with
  | NaN => None
  | Finite m e =>
      Some (if 0 <=? e then m * 2 ^ e
            else (2 * m + 2 ^ (- e)) / 2 ^ (1 - e))
  end.

End JsNumber.

(* ===================================================================== *)
(** * viem: [formatUnits], [formatEther], [parseUnits], [parseEther] *)
(* ===================================================================== *)

(** [toolHandlers.ts] imports these four from the viem package
    (lines 5-12); the definitions follow viem's [utils/unit/formatUnits.ts]
    and [utils/unit/parseUnits.ts] statement by statement. *)
Module Viem.
Import JsString JsNumber.

(** [formatUnits(value, decimals)]:
<<
  let display = value.toString()
  const negative = display.startsWith('-')
  if (negative) display = display.slice(1)
  display = display.padStart(decimals, '0')
  let [integer, fraction] = [
    display.slice(0, display.length - decimals),
    display.slice(display.length - decimals) ]
  fraction = fraction.replace(/(0+)$/, '')
  return `${negative ? '-' : ''}${integer || '0'}${fraction ? `.${fraction}` : ''}`
>> *)
Definition formatUnits_chars (value : Z) (decimals : nat) : chars :=
  let display := bigint_toString value in
  let negative := startsWith_minus display in
  let display := if negative then slice_from_1 display else display in
  let display := padStart0 decimals display in
  let integer := slice 0 (List.length display - decimals) display in
  let fraction := slice_from (List.length display - decimals) display in
  let fraction := strip_trailing_zeros fraction in
  (if negative then [minus_char] else [])
    ++ (match integer with [] => [zero_char] | _ => integer end)
    ++ (match fraction with [] => [] | _ => dot_char :: fraction end).

Definition formatUnits (value : Z) (decimals : nat) : string :=
  to_string (formatUnits_chars value decimals).

(** [formatEther(wei)] is [formatUnits(wei, etherUnits.wei)], and
    [etherUnits.wei] is 18. *)
Definition formatEther (wei : Z) : string := formatUnits wei 18.

(** The two ways [parseUnits] throws. *)
Inductive parse_error :=
| InvalidDecimalNumberError (value : string)
| BigIntSyntaxError (text : string).

(** The test of [value] against viem's pattern for decimal numbers: an
    optional minus sign, any number of digits, an optional dot, any
    number of digits, and nothing else. *)
Fixpoint drop_digits (s : chars) : chars :=
  match s with
  | c :: r => if is_digit c then drop_digits r else s
  | [] => []
  end.

Definition decimal_regex_test (value : chars) : bool :=
  let after_sign :=
    match value with
    | c :: r => if Ascii.eqb c minus_char then r else value
    | [] => value
    end in
  let after_int := drop_digits after_sign in
  let after_dot :=
    match after_int with
    | c :: r => if Ascii.eqb c dot_char then r else after_int
    | [] => after_int
    end in
  forallb is_digit after_dot.

(** [`${BigInt(s) + 1n}`] *)
Definition BigInt_succ_chars (s : chars) : option chars :=
  match BigInt_of_chars s with
  | Some v => Some (bigint_toString (v + 1))
  | None => None
  end.

(** The text of a rounded digit: [`${rounded}`]. *)
Definition rounded_toString (r : option Z) : chars :=
  match r with
  | Some v => bigint_toString v
  | None => of_string "NaN"
  end.

(** The middle of [parseUnits], which rounds off a fraction that has more
    digits than [decimals]:
<<
  if (decimals === 0) {
    if (Math.round(Number(`.${fraction}`)) === 1)
      integer = `${BigInt(integer) + 1n}`
    fraction = ''
  } else if (fraction.length > decimals) {
    const [left, unit, right] = [
      fraction.slice(0, decimals - 1),
      fraction.slice(decimals - 1, decimals),
      fraction.slice(decimals),
    ]
    const rounded = Math.round(Number(`${unit}.${right}`))
    if (rounded > 9)
      fraction = `${BigInt(left) + BigInt(1)}0`.padStart(left.length + 1, '0')
    else fraction = `${left}${rounded}`
    if (fraction.length > decimals) {
      integer = `${BigInt(integer) + 1n}`
      fraction = fraction.slice(1)
    }
    fraction = fraction.slice(0, decimals)
  } else {
    fraction = fraction.padEnd(decimals, '0')
  }
>>
    The result is the new [integer] and [fraction]; [None] when a
    [BigInt(..)] inside throws. *)
Definition round_off (integer fraction : chars) (decimals : nat)
  : option (chars * chars) :=
  if (decimals =? 0)%nat then
    match Math_round (Number_of_decimal [] fraction) with
    | Some 1 =>
        match BigInt_succ_chars integer with
        | Some i => Some (i, [])
        | None => None
        end
    | _ => Some (integer, [])
    end
  else if (decimals <? List.length fraction)%nat then
    let left := slice 0 (decimals - 1) fraction in
    let unit := slice (decimals - 1) decimals fraction in
    let right := slice_from decimals fraction in
    let rounded := Math_round (Number_of_decimal unit right) in
    let fraction' :=
      match rounded with
      | Some r =>
          if 9 <? r
          then match BigInt_succ_chars left with
               | Some l => Some (padStart0 (List.length left + 1)
                                           (l ++ [zero_char]))
               | None => None
               end
          else Some (left ++ rounded_toString rounded)
      | None => Some (left ++ rounded_toString rounded)
      end in
    match fraction' with
    | None => None
    | Some fraction' =>
        if (decimals <? List.length fraction')%nat then
          match BigInt_succ_chars integer with
          | Some i => Some (i, slice 0 decimals (slice_from_1 fraction'))
          | None => None
          end
        else Some (integer, slice 0 decimals fraction')
    end
  else Some (integer, padEnd0 decimals fraction).

(** [parseUnits(value, decimals)]:
<<
  if (!REGEX.test(value)) throw new InvalidDecimalNumberError({ value })
  let [integer, fraction = '0'] = value.split('.')
  const negative = integer.startsWith('-')
  if (negative) integer = integer.slice(1)
  fraction = fraction.replace(/(0+)$/, '')
  ... round off ...
  return BigInt(`${negative ? '-' : ''}${integer}${fraction}`)
>> *)
Definition parseUnits_chars (value : chars) (decimals : nat)
  : parse_error + Z :=
  if negb (decimal_regex_test value)
  then inl (InvalidDecimalNumberError (to_string value))
  else
    let parts := split_dot value in
    let integer := hd [] parts in
    let fraction := match parts with _ :: f :: _ => f | _ => [zero_char] end in
    let negative := startsWith_minus integer in
    let integer := if negative then slice_from_1 integer else integer in
    let fraction := strip_trailing_zeros fraction in
    match round_off integer fraction decimals with
    | None => inl (BigIntSyntaxError (to_string integer))
    | Some (integer, fraction) =>
        let text := (if negative then [minus_char] else [])
                      ++ integer ++ fraction in
        match BigInt_of_chars text with
        | Some v => inr v
        | None => inl (BigIntSyntaxError (to_string text))
        end
    end.

Definition parseUnits (value : string) (decimals : nat) : parse_error + Z :=
  parseUnits_chars (of_string value) decimals.

(** [parseEther(ether)] is [parseUnits(ether, etherUnits.wei)]. *)
Definition parseEther (ether : string) : parse_error + Z :=
  parseUnits ether 18.

End Viem.

(* ===================================================================== *)
(** * Decimal numerals and the rationals they denote *)
(* ===================================================================== *)

(** The reading of a numeral that the statements about amounts and
    balances refer to; it is independent of the conversion routines
    above. *)
Module Decimal.
Import JsString.

(** The longest prefix of digits, and the rest. *)
Fixpoint span_digits (s : chars) : chars * chars :=
  match s with
  | c :: r =>
      if is_digit c
      then let (ds, rest) := span_digits r in (c :: ds, rest)
      else ([], s)
  | [] => ([], [])
  end.

Definition nonempty (s : chars) : bool :=
  match s with [] => false | _ => true end.

(** A numeral is an optional minus sign, digits, and optionally a dot and
    more digits, with a digit on at least one side: its sign, its integer
    digits and its fraction digits. *)
Definition read (s : chars) : option (bool * chars * chars) :=
  let (negative, body) :=
    match s with
    | c :: r => if Ascii.eqb c minus_char then (true, r) else (false, s)
    | [] => (false, [])
    end in
  let (int, rest) := span_digits body in
  match rest with
  | [] => if nonempty int then Some (negative, int, []) else None
  | c :: frac =>
      if Ascii.eqb c dot_char && forallb is_digit frac
         && (nonempty int || nonempty frac)
      then Some (negative, int, frac)
      else None
  end.

(** The text of a sign. *)
Definition sign_chars (negative : bool) : chars :=
  if negative then [minus_char] else [].

(** The numeral as a fraction with a power of ten below: the pair
    [(m, k)] stands for [m / 10^k]. *)
Definition scaled (s : chars) : option (Z * nat) :=
  match read s with
  | Some (negative, int, frac) =>
      let m := Z.of_N (digits_value (int ++ frac)) in
      Some (if negative then - m else m, List.length frac)
  | None => None
  end.

Definition Q_of_scaled (mk : Z * nat) : Q :=
  (inject_Z (fst mk) / inject_Z (10 ^ Z.of_nat (snd mk)))%Q.

(** The rational a numeral denotes. *)
Definition value (s : string) : option Q :=
  option_map Q_of_scaled (scaled (of_string s)).

(** [text] is a numeral, and denotes [q]. *)
Definition denotes (text : string) (q : Q) : Prop :=
  exists v, value text = Some v /\ (v == q)%Q.

(** The number of digits after the dot. *)
Definition fraction_digits (s : string) : nat :=
  match read (of_string s) with
  | Some (_, _, frac) => List.length frac
  | None => 0
  end.


End Decimal.

(* ===================================================================== *)
(** * JavaScript values *)
(* ===================================================================== *)

Module Js.

(** The run-time values the sources handle: the JSON values of a tool
    call's arguments, and [bigint]s among the results read from a
    contract.  An object is the list of its own properties; a number is
    carried as an integer, no handler computing with a number it is
    given. *)
Inductive JsValue :=
| JUndefined
| JNull
| JBool (b : bool)
| JNumber (n : Z)
| JBigInt (n : Z)
| JString (s : string)
| JArray (items : list JsValue)
| JObject (props : list (string * JsValue)).

(** Own property [key] of a property list, if present. *)
Fixpoint own_property (key : string) (props : list (string * JsValue))
  : option JsValue :=
  match props with
  | [] => None
  | (k, v) :: rest => if String.eqb k key then Some v else own_property key rest
  end.

(** [key in data] for a key that [Object.prototype] does not define. *)
Definition has_key (key : string) (props : list (string * JsValue)) : bool :=
  match own_property key props with Some _ => true | None => false end.

(** [data[key]] for a key that [Object.prototype] does not define. *)
Definition get (key : string) (props : list (string * JsValue)) : JsValue :=
  match own_property key props with Some v => v | None => JUndefined end.

(** [value.key] on any value but [undefined] and [null], for such a key:
    only an object can have it. *)
Definition get_property (key : string) (value : JsValue) : JsValue :=
  match value with
  | JObject props => get key props
  | _ => JUndefined
  end.

(** [typeof v === "string"] *)
Definition is_string (v : JsValue) : bool :=
  match v with JString _ => true | _ => false end.

(** [v === text] for a string literal [text]. *)
Definition strict_eq_string (v : JsValue) (text : string) : bool :=
  match v with JString s => String.eqb s text | _ => false end.

(** What can be thrown: a [ZodError] with its issues, any other [Error]
    object with its [name] and [message], or a value that is no [Error]. *)
Inductive Thrown (Issue : Type) :=
| ZodError (issues : list Issue)
| ErrorObject (name message : string)
| ThrownValue (value : JsValue).
Arguments ZodError {Issue} issues.
Arguments ErrorObject {Issue} name message.
Arguments ThrownValue {Issue} value.

End Js.

(* ===================================================================== *)
(** * Zod: schemas and [safeParse] *)
(* ===================================================================== *)

Module Zod.
Import Js.

(** The schema constructors [schemas.ts] uses; [z.object] is kept apart
    since the sources only use it at the top of a schema. *)
Inductive ZodType :=
| ZodString
| ZodAny
| ZodEnum (values : list string)
| ZodArray (element : ZodType)
| ZodUnion (first second : ZodType)
| ZodOptional (inner : ZodType)
| ZodDefault (inner : ZodType) (defaultValue : JsValue).

(** [.describe(text)] attaches documentation and leaves parsing alone. *)
Definition describe (t : ZodType) (description : string) : ZodType := t.

Definition ZodObject := list (string * ZodType).

(** Zod's [getParsedType]. *)
Inductive ParsedType :=
| PUndefined | PNull | PBoolean | PNumber | PBigInt | PString | PArray | PObject.

Definition getParsedType (v : JsValue) : ParsedType :=
  match v with
  | JUndefined => PUndefined
  | JNull => PNull
  | JBool _ => PBoolean
  | JNumber _ => PNumber
  | JBigInt _ => PBigInt
  | JString _ => PString
  | JArray _ => PArray
  | JObject _ => PObject
  end.

Inductive PathSegment :=
| Key (name : string)
| Index (i : nat).

Inductive ZodIssue :=
| invalid_type (expected : string) (received : ParsedType)
               (path : list PathSegment)
| invalid_enum_value (options : list string) (received : string)
                     (path : list PathSegment)
| invalid_union (unionErrors : list (list ZodIssue))
                (path : list PathSegment).

Definition ParseResult := (list ZodIssue + JsValue)%type.

(** [util.joinValues(values)]: the options quoted and joined by [" | "]. *)
Fixpoint joinValues (values : list string) : string :=
  match values with
  | [] => ""
  | [v] => "'" ++ v ++ "'"
  | v :: rest => "'" ++ v ++ "' | " ++ joinValues rest
  end.

(** Parses the items of an array one by one, collecting every issue. *)
Fixpoint parse_items (parse_item : list PathSegment -> JsValue -> ParseResult)
    (path : list PathSegment) (i : nat) (items : list JsValue)
  : list ZodIssue + list JsValue :=
  match items with
  | [] => inr []
  | x :: rest =>
      match parse_item (path ++ [Index i]) x,
            parse_items parse_item path (S i) rest with
      | inr v, inr vs => inr (v :: vs)
      | inl e, inr _ => inl e
      | inr _, inl es => inl es
      | inl e, inl es => inl (e ++ es)
      end
  end.

(** [schema._parse(input)] at [path]. *)
Fixpoint parse (t : ZodType) (path : list PathSegment) (input : JsValue)
  : ParseResult :=
  match t with
  | ZodString =>
      match input with
      | JString _ => inr input
      | _ => inl [invalid_type "string" (getParsedType input) path]
      end
  | ZodAny => inr input
  | ZodEnum values =>
      match input with
      | JString s =>
          if existsb (String.eqb s) values then inr input
          else inl [invalid_enum_value values s path]
      | _ => inl [invalid_type (joinValues values) (getParsedType input) path]
      end
  | ZodArray element =>
      match input with
      | JArray items =>
          match parse_items (parse element) path 0%nat items with
          | inr vs => inr (JArray vs)
          | inl es => inl es
          end
      | _ => inl [invalid_type "array" (getParsedType input) path]
      end
  | ZodUnion first second =>
      match parse first path input with
      | inr v => inr v
      | inl e1 =>
          match parse second path input with
          | inr v => inr v
          | inl e2 => inl [invalid_union [e1; e2] path]
          end
      end
  | ZodOptional inner =>
      match input with
      | JUndefined => inr JUndefined
      | _ => parse inner path input
      end
  | ZodDefault inner defaultValue =>
      match input with
      | JUndefined => parse inner path defaultValue
      | _ => parse inner path input
      end
  end.

(** The pairs of [ZodObject._parse]: for each key of the shape, in the
    order of the shape, the key's value in [data] is parsed; the key is
    set in the result when the parsed value is not [undefined] or the key
    is in [data].  Keys of [data] outside the shape are not looked at:
    [z.object] strips unknown keys unless told otherwise. *)
Fixpoint parse_shape (shape : ZodObject) (data : list (string * JsValue))
  : list ZodIssue + list (string * JsValue) :=
  match shape with
  | [] => inr []
  | (key, t) :: rest =>
      let value := parse t [Key key] (get key data) in
      match value, parse_shape rest data with
      | inr v, inr props =>
          match v with
          | JUndefined =>
              if has_key key data then inr ((key, v) :: props) else inr props
          | _ => inr ((key, v) :: props)
          end
      | inl e, inr _ => inl e
      | inr _, inl es => inl es
      | inl e, inl es => inl (e ++ es)
      end
  end.

(** The issues the field [field] of a shape raises on [data]. *)
Definition issues_of_field (data : list (string * JsValue))
    (field : string * ZodType) : list ZodIssue :=
  match parse (snd field) [Key (fst field)] (get (fst field) data) with
  | inl issues => issues
  | inr _ => []
  end.

(** [z.object(shape).safeParse(raw)]: [inr data] stands for
    [{ success: true, data }], [inl issues] for
    [{ success: false, error: new ZodError(issues) }]. *)
Definition safeParse (shape : ZodObject) (raw : JsValue)
  : list ZodIssue + list (string * JsValue) :=
  match raw with
  | JObject data => parse_shape shape data
  | _ => inl [invalid_type "object" (getParsedType raw) []]
  end.

End Zod.

(* ===================================================================== *)
(** * schemas.ts *)
(* ===================================================================== *)

Module Schemas.
Import Js Zod.

Definition GetEthBalanceArgsSchema : ZodObject :=
  [ ("address",
     describe ZodString
       "Hex-encoded EVM address whose ETH balance will be returned");
    ("unit",
     ZodDefault (ZodOptional (ZodEnum ["wei"; "ether"; "gwei"]))
                (JString "ether")) ]%string.

Definition GetErc20BalanceArgsSchema : ZodObject :=
  [ ("tokenAddress", describe ZodString "ERC-20 contract address");
    ("accountAddress",
     describe ZodString "Account whose token balance will be returned")
  ]%string.

Definition SendEthArgsSchema : ZodObject :=
  [ ("to", describe ZodString "Recipient address");
    ("amountEth",
     describe ZodString "Amount of ETH to send, human readable (e.g. '0.1')")
  ]%string.

Definition CallContractArgsSchema : ZodObject :=
  [ ("address", describe ZodString "Contract address");
    ("abi",
     describe (ZodUnion ZodString ZodAny)
       "ABI of the contract.  Can be provided as a JSON string or already parsed JS object.");
    ("functionName",
     describe ZodString "Name of the view/pure function to invoke");
    ("args",
     describe (ZodDefault (ZodOptional (ZodArray ZodAny)) (JArray []))
       "Arguments to pass to the function") ]%string.

Definition Erc20TransferArgsSchema : ZodObject :=
  [ ("tokenAddress", describe ZodString "ERC-20 contract address");
    ("to", describe ZodString "Recipient address");
    ("amount",
     describe ZodString
       "Amount of tokens to transfer, expressed in human-readable units (will be converted using the token's decimals)")
  ]%string.

Definition Erc20ApproveArgsSchema : ZodObject :=
  [ ("tokenAddress", describe ZodString "ERC-20 contract address");
    ("spender",
     describe ZodString "Spender address that will receive the allowance");
    ("amount",
     describe ZodString
       "Allowance amount in human-readable units.  Use '0' to revoke an existing allowance.")
  ]%string.

Definition Erc20AllowanceArgsSchema : ZodObject :=
  [ ("tokenAddress", describe ZodString "ERC-20 contract address");
    ("owner", describe ZodString "Token holder address");
    ("spender", describe ZodString "Spender address") ]%string.

End Schemas.

(* ===================================================================== *)
(** * client.ts, toolHandlers.ts, index.ts *)
(* ===================================================================== *)

Module Server.
Import JsString Js Zod Schemas.

Definition Exn := Thrown ZodIssue.

(** ** client.ts: RPC / chain configuration *)

Definition DEFAULT_RPC_URL : string := "http://127.0.0.1:8545".

(** What the process is started with: [process.argv.slice(2)] and the two
    environment variables the sources read. *)
Record Process := {
  cliArgs : list string;
  env_RPC_URL : option string;
  env_PRIVATE_KEY : option string
}.

(** [cliArgs[0] ?? process.env.RPC_URL ?? DEFAULT_RPC_URL] *)
Definition rpcUrl (p : Process) : string :=
  match cliArgs p with
  | url :: _ => url
  | [] =>
      match env_RPC_URL p with
      | Some url => url
      | None => DEFAULT_RPC_URL
      end
  end.

Record Chain := {
  chain_id : Z;
  chain_name : string;
  nativeCurrency_decimals : Z;
  nativeCurrency_name : string;
  nativeCurrency_symbol : string;
  rpcUrls_default_http : list string;
  multicall3_address : string;
  multicall3_blockCreated : Z
}.

Definition testChain (p : Process) : Chain := {|
  chain_id := 1337;
  chain_name := "LocalTestChain";
  nativeCurrency_decimals := 18;
  nativeCurrency_name := "Ether";
  nativeCurrency_symbol := "ETH";
  rpcUrls_default_http := [rpcUrl p];
  multicall3_address := "0xcA11bde05977b3631167028862bE2a173976CA11";
  multicall3_blockCreated := 0
|}.

(** [getPrivateKey()] of toolHandlers.ts: [process.env.PRIVATE_KEY]. *)
Definition getPrivateKey (p : Process) : option string := env_PRIVATE_KEY p.

Inductive Abi :=
| erc20Abi
| UserAbi (abi : JsValue).

(** The calls the handlers make on a viem client. *)
Inductive ClientCall :=
| GetBalance (address : JsValue)
| ReadContract (address : JsValue) (abi : Abi) (functionName : JsValue)
               (args : JsValue)
| SendTransaction (to : JsValue) (value : Z)
| WriteContract (address : JsValue) (abi : Abi) (functionName : string)
                (args : list JsValue).

(** The tools, and the schema each handler validates its arguments with
    ([handleGetRpcUrl] takes no arguments and validates nothing). *)
Inductive Tool :=
| get_eth_balance
| get_erc20_balance
| send_eth
| call_contract
| erc20_transfer
| erc20_approve
| erc20_allowance
| get_rpc_url.

Definition argsSchema (t : Tool) : ZodObject :=
  match t with
  | get_eth_balance => GetEthBalanceArgsSchema
  | get_erc20_balance => GetErc20BalanceArgsSchema
  | send_eth => SendEthArgsSchema
  | call_contract => CallContractArgsSchema
  | erc20_transfer => Erc20TransferArgsSchema
  | erc20_approve => Erc20ApproveArgsSchema
  | erc20_allowance => Erc20AllowanceArgsSchema
  | get_rpc_url => []
  end.

(** The keys a tool declares. *)
Definition declared_keys (t : Tool) : list string := map fst (argsSchema t).

(** The tools that send a transaction. *)
Definition is_write_tool (t : Tool) : bool :=
  match t with
  | send_eth | erc20_transfer | erc20_approve => true
  | _ => false
  end.

(** The fields of a tool that hold an address. *)
Definition address_fields (t : Tool) : list string :=
  match t with
  | get_eth_balance => ["address"]
  | get_erc20_balance => ["tokenAddress"; "accountAddress"]
  | send_eth => ["to"]
  | call_contract => ["address"]
  | erc20_transfer => ["tokenAddress"; "to"]
  | erc20_approve => ["tokenAddress"; "spender"]
  | erc20_allowance => ["tokenAddress"; "owner"; "spender"]
  | get_rpc_url => []
  end%string.

(** A well-formed hex address: ["0x"] and forty hex digits. *)
Definition is_hex_digit (c : ascii) : bool :=
  let n := nat_of_ascii c in
  ((48 <=? n) && (n <=? 57) || (65 <=? n) && (n <=? 70)
   || (97 <=? n) && (n <=? 102))%nat.

Definition is_hex_address (s : string) : bool :=
  match of_string s with
  | "0"%char :: "x"%char :: digits =>
      (List.length digits =? 40)%nat && forallb is_hex_digit digits
  | _ => false
  end.

(** Failures raised by the engine or by viem, whose error objects the
    sources do not build themselves. *)
Inductive Fault :=
| ParseUnitsFault (e : Viem.parse_error)
| NotAStringFault (value : JsValue)
| NotCallableFault (property : string)
| ReceiverFault (method : string)
| NotIterableFault (value : JsValue)
| PropertyOfNullishFault (property : JsValue) (value : JsValue).

(** ** viem's [getContract], as far as [contract.read] goes *)

(** What [getContract({ address, abi, client })] notes of the ABI. *)
Record AbiFlags := {
  hasReadFunction : bool;
  hasWriteFunction : bool;
  hasEvent : bool
}.

(** The values [for (const item of abi)] runs over: the items of an
    array, the characters of a string; nothing else the handler can hold
    is iterable, and the loop throws a [TypeError]. *)
Definition iterate (abi : JsValue) : Fault + list JsValue :=
  match abi with
  | JArray items => inr items
  | JString s => inr (map (fun c => JString (String c EmptyString)) (of_string s))
  | _ => inl (NotIterableFault abi)
  end.

(** The loop of [getContract] over the ABI: an item of type ["function"]
    is a read function when its [stateMutability] is ["view"] or
    ["pure"] and a write function otherwise, an item of type ["event"] is
    an event; reading [item.type] of [null] or [undefined] throws a
    [TypeError]; the loop stops as soon as it has seen all three kinds. *)
Fixpoint scan_abi (items : list JsValue) (flags : AbiFlags)
  : Fault + AbiFlags :=
  match items with
  | [] => inr flags
  | item :: rest =>
      match item with
      | JUndefined | JNull =>
          inl (PropertyOfNullishFault (JString "type") item)
      | _ =>
          let type := get_property "type" item in
          let flags' :=
            if strict_eq_string type "function" then
              let stateMutability := get_property "stateMutability" item in
              if strict_eq_string stateMutability "view"
                 || strict_eq_string stateMutability "pure"
              then {| hasReadFunction := true;
                      hasWriteFunction := hasWriteFunction flags;
                      hasEvent := hasEvent flags |}
              else {| hasReadFunction := hasReadFunction flags;
                      hasWriteFunction := true;
                      hasEvent := hasEvent flags |}
            else if strict_eq_string type "event" then
              {| hasReadFunction := hasReadFunction flags;
                 hasWriteFunction := hasWriteFunction flags;
                 hasEvent := true |}
            else flags in
          if hasReadFunction flags' && hasWriteFunction flags'
             && hasEvent flags'
          then inr flags'
          else scan_abi rest flags'
      end
  end.

(** Whether the contract object [getContract] builds for a read client
    has a [read] member: it has one when the ABI holds a [view] or [pure]
    function, as [erc20Abi] does. *)
Definition getContract_read (abi : JsValue) : Fault + bool :=
  match iterate abi with
  | inl f => inl f
  | inr items =>
      match scan_abi items {| hasReadFunction := false;
                              hasWriteFunction := false;
                              hasEvent := false |} with
      | inl f => inl f
      | inr flags => inr (hasReadFunction flags)
      end
  end.

Section WithCollaborators.

(** The collaborators the sources take from their libraries and from the
    node behind the RPC endpoint. *)
Variable Account : Type.
Variable World : Type.

(** [privateKeyToAccount] of viem/accounts, applied to the value of
    [process.env.PRIVATE_KEY] ([None] when the variable is not set). *)
Variable privateKeyToAccount : option string -> Exn + Account.

(** A client object: [createPublicClient] gives one without an account,
    [createWalletClient] one with. *)
Record Client := {
  client_id : nat;
  client_account : option Account;
  client_transport : string;
  client_chain : Chain
}.

(** The answers of the node (through viem) to the calls of a client, by
    the type viem decodes the answer to. *)
Record Node := {
  answer_bigint : World -> Client -> ClientCall -> (Exn + Z) * World;
  answer_number : World -> Client -> ClientCall -> (Exn + nat) * World;
  answer_value : World -> Client -> ClientCall -> (Exn + JsValue) * World;
  answer_hash : World -> Client -> ClientCall -> (Exn + string) * World
}.
Variable node : Node.

(** [JSON.parse], and the [JSON.stringify(result, replacer, 2)] of
    [handleCallContract]. *)
Variable JSON_parse : string -> Exn + JsValue.
Variable JSON_stringify : JsValue -> string.

(** The error object thrown for a [Fault]; the [message] of a
    [ZodError]; [String(value)]. *)
Variable fault : Fault -> Exn.
Variable ZodError_message : list ZodIssue -> string.
Variable String_of : JsValue -> string.

Variable proc : Process.

(** ** The state of the process and what it does to the outside *)

Inductive Event :=
| CreatePublicClient (c : Client)
| CreateWalletClient (c : Client)
| Call (c : Client) (call : ClientCall).

Record Runtime := {
  _publicClient : option Client;
  next_id : nat;
  trace : list Event;
  world : World
}.

(** A computation of the server: it ends with a value or a thrown error,
    and a new state either way. *)
Definition M (A : Type) : Type := Runtime -> (Exn + A) * Runtime.

Definition ret {A} (a : A) : M A := fun rt => (inr a, rt).
Definition throw {A} (e : Exn) : M A := fun rt => (inl e, rt).
Definition bind {A B} (m : M A) (k : A -> M B) : M B :=
  fun rt =>
    match m rt with
    | (inr a, rt') => k a rt'
    | (inl e, rt') => (inl e, rt')
    end.

Notation "x <- m ;; k" := (bind m (fun x => k))
  (at level 61, m at next level, right associativity).

(** One call on a client: the call is recorded, the node answers. *)
Definition call {A}
    (answer : World -> Client -> ClientCall -> (Exn + A) * World)
    (c : Client) (what : ClientCall) : M A :=
  fun rt =>
    let (r, w) := answer (world rt) c what in
    (r, {| _publicClient := _publicClient rt;
           next_id := next_id rt;
           trace := trace rt ++ [Call c what];
           world := w |}).

(** [await Promise.all([p1, p2])]: both calls are made, in the order of
    the array; the result is the pair of answers, or a failure if one of
    them failed. *)
Definition Promise_all {A B} (p1 : M A) (p2 : M B) : M (A * B) :=
  fun rt =>
    let (r1, rt1) := p1 rt in
    let (r2, rt2) := p2 rt1 in
    (match r1, r2 with
     | inr a, inr b => inr (a, b)
     | inl e, _ => inl e
     | _, inl e => inl e
     end, rt2).

(** ** client.ts: cached client helpers *)

Definition getPublicClient : M Client :=
  fun rt =>
    match _publicClient rt with
    | Some c => (inr c, rt)
    | None =>
        let c := {| client_id := next_id rt;
                    client_account := None;
                    client_transport := rpcUrl proc;
                    client_chain := testChain proc |} in
        (inr c, {| _publicClient := Some c;
                   next_id := S (next_id rt);
                   trace := trace rt ++ [CreatePublicClient c];
                   world := world rt |})
    end.

Definition getWalletClient (privateKey : option string) : M Client :=
  fun rt =>
    match privateKeyToAccount privateKey with
    | inl e => (inl e, rt)
    | inr account =>
        let c := {| client_id := next_id rt;
                    client_account := Some account;
                    client_transport := rpcUrl proc;
                    client_chain := testChain proc |} in
        (inr c, {| _publicClient := _publicClient rt;
                   next_id := S (next_id rt);
                   trace := trace rt ++ [CreateWalletClient c];
                   world := world rt |})
    end.

(** ** toolHandlers.ts *)

Record ToolResponse := {
  content : list string;
  isError : option bool
}.

(** [{ content: [{ type: "text", text }] }] *)
Definition text_response (text : string) : ToolResponse :=
  {| content := [text]; isError := None |}.

(** [const parsed = Schema.safeParse(raw); if (!parsed.success) throw parsed.error;] *)
Definition validated (schema : ZodObject) (raw : JsValue)
  : M (list (string * JsValue)) :=
  match safeParse schema raw with
  | inr data => ret data
  | inl issues => throw (ZodError issues)
  end.

(** [parseUnits] on the [amount] read from the parsed arguments. *)
Definition parseUnits (amount : JsValue) (decimals : nat) : M Z :=
  match amount with
  | JString s =>
      match Viem.parseUnits s decimals with
      | inr v => ret v
      | inl e => throw (fault (ParseUnitsFault e))
      end
  | _ => throw (fault (NotAStringFault amount))
  end.

Definition parseEther (amountEth : JsValue) : M Z := parseUnits amountEth 18.

Definition handleGetEthBalance (raw : JsValue) : M ToolResponse :=
  parsed <- validated GetEthBalanceArgsSchema raw ;;
  let address := get "address" parsed in
  let unit := get "unit" parsed in
  client <- getPublicClient ;;
  balance <- call (answer_bigint node) client (GetBalance address) ;;
  let formatted :=
    if strict_eq_string unit "wei" then to_string (bigint_toString balance)
    else if strict_eq_string unit "gwei" then Viem.formatUnits balance 9
    else Viem.formatEther balance in
  ret (text_response formatted).

Definition handleGetErc20Balance (raw : JsValue) : M ToolResponse :=
  parsed <- validated GetErc20BalanceArgsSchema raw ;;
  let tokenAddress := get "tokenAddress" parsed in
  let accountAddress := get "accountAddress" parsed in
  client <- getPublicClient ;;
  both <- Promise_all
            (call (answer_bigint node) client
               (ReadContract tokenAddress erc20Abi (JString "balanceOf")
                  (JArray [accountAddress])))
            (call (answer_number node) client
               (ReadContract tokenAddress erc20Abi (JString "decimals")
                  JUndefined)) ;;
  let (balance, decimals) := both : Z * nat in
  let human := Viem.formatUnits balance decimals in
  let formatted :=
    (human ++ " tokens (" ++ to_string (bigint_toString balance) ++ " raw)")%string in
  ret (text_response formatted).

Definition handleSendEth (raw : JsValue) : M ToolResponse :=
  parsed <- validated SendEthArgsSchema raw ;;
  let to := get "to" parsed in
  let amountEth := get "amountEth" parsed in
  let privateKey := getPrivateKey proc in
  wallet <- getWalletClient privateKey ;;
  value <- parseEther amountEth ;;
  hash <- call (answer_hash node) wallet (SendTransaction to value) ;;
  ret (text_response ("Transaction broadcast.  Hash: " ++ hash)%string).

(** [getContract({ address, abi, client })] walks the ABI and builds the
    contract object before anything is asked of the client;
    [contract.read[functionName]] throws a [TypeError] when the object has
    no [read] member, and is otherwise the function that hands
    [readContract] of the client to the ABI, the address, the function
    name and [args], which validation made an array. *)
Definition handleCallContract (raw : JsValue) : M ToolResponse :=
  parsed <- validated CallContractArgsSchema raw ;;
  let address := get "address" parsed in
  let abi := get "abi" parsed in
  let functionName := get "functionName" parsed in
  let args := get "args" parsed in
  abi <- match abi with
         | JString text =>
             match JSON_parse text with
             | inr v => ret v
             | inl e => throw e
             end
         | _ => ret abi
         end ;;
  client <- getPublicClient ;;
  readable <- match getContract_read abi with
              | inr b => ret b
              | inl f => throw (fault f)
              end ;;
  result <- (if readable : bool
             then call (answer_value node) client
                    (ReadContract address (UserAbi abi) functionName args)
             else throw (fault (PropertyOfNullishFault functionName
                                  JUndefined))) ;;
  ret (text_response (JSON_stringify result)).

Definition handleErc20Transfer (raw : JsValue) : M ToolResponse :=
  parsed <- validated Erc20TransferArgsSchema raw ;;
  let tokenAddress := get "tokenAddress" parsed in
  let to := get "to" parsed in
  let amount := get "amount" parsed in
  let privateKey := getPrivateKey proc in
  wallet <- getWalletClient privateKey ;;
  client <- getPublicClient ;;
  decimals <- call (answer_number node) client
                (ReadContract tokenAddress erc20Abi (JString "decimals")
                   JUndefined) ;;
  amountRaw <- parseUnits amount decimals ;;
  hash <- call (answer_hash node) wallet
            (WriteContract tokenAddress erc20Abi "transfer"
               [to; JBigInt amountRaw]) ;;
  ret (text_response ("Transfer submitted. Tx hash: " ++ hash)%string).

Definition handleErc20Approve (raw : JsValue) : M ToolResponse :=
  parsed <- validated Erc20ApproveArgsSchema raw ;;
  let tokenAddress := get "tokenAddress" parsed in
  let spender := get "spender" parsed in
  let amount := get "amount" parsed in
  let privateKey := getPrivateKey proc in
  wallet <- getWalletClient privateKey ;;
  client <- getPublicClient ;;
  decimals <- call (answer_number node) client
                (ReadContract tokenAddress erc20Abi (JString "decimals")
                   JUndefined) ;;
  amountRaw <- parseUnits amount decimals ;;
  hash <- call (answer_hash node) wallet
            (WriteContract tokenAddress erc20Abi "approve"
               [spender; JBigInt amountRaw]) ;;
  ret (text_response ("Approve transaction broadcast. Tx hash: " ++ hash)%string).

Definition handleErc20Allowance (raw : JsValue) : M ToolResponse :=
  parsed <- validated Erc20AllowanceArgsSchema raw ;;
  let tokenAddress := get "tokenAddress" parsed in
  let owner := get "owner" parsed in
  let spender := get "spender" parsed in
  client <- getPublicClient ;;
  both <- Promise_all
            (call (answer_bigint node) client
               (ReadContract tokenAddress erc20Abi (JString "allowance")
                  (JArray [owner; spender])))
            (call (answer_number node) client
               (ReadContract tokenAddress erc20Abi (JString "decimals")
                  JUndefined)) ;;
  let (allowanceRaw, decimals) := both : Z * nat in
  let allowanceHuman := Viem.formatUnits allowanceRaw decimals in
  ret (text_response
         (allowanceHuman ++ " tokens ("
            ++ to_string (bigint_toString allowanceRaw) ++ " raw)")%string).

Definition handleGetRpcUrl : M ToolResponse :=
  ret (text_response (rpcUrl proc)).

(** ** Handler map and dispatcher *)

Definition tool_name (t : Tool) : string :=
  match t with
  | get_eth_balance => "get_eth_balance"
  | get_erc20_balance => "get_erc20_balance"
  | send_eth => "send_eth"
  | call_contract => "call_contract"
  | erc20_transfer => "erc20_transfer"
  | erc20_approve => "erc20_approve"
  | erc20_allowance => "erc20_allowance"
  | get_rpc_url => "get_rpc_url"
  end.

Definition all_tools : list Tool :=
  [ get_eth_balance; get_erc20_balance; send_eth; call_contract;
    erc20_transfer; erc20_approve; erc20_allowance; get_rpc_url ].

(** The function stored under each own key of [handlers]. *)
Definition handler (t : Tool) : JsValue -> M ToolResponse :=
  match t with
  | get_eth_balance => handleGetEthBalance
  | get_erc20_balance => handleGetErc20Balance
  | send_eth => handleSendEth
  | call_contract => handleCallContract
  | erc20_transfer => handleErc20Transfer
  | erc20_approve => handleErc20Approve
  | erc20_allowance => handleErc20Allowance
  | get_rpc_url => fun _ => handleGetRpcUrl
  end.

(** [handlers] is an object literal, so its prototype is
    [Object.prototype], and [handlers[toolName]] finds the properties of
    that prototype where [handlers] has no own property of the name. *)
Inductive ObjectPrototypeProperty :=
| proto_constructor
| proto_defineGetter
| proto_defineSetter
| proto_hasOwnProperty
| proto_lookupGetter
| proto_lookupSetter
| proto_isPrototypeOf
| proto_propertyIsEnumerable
| proto_toString
| proto_valueOf
| proto_proto
| proto_toLocaleString.

Definition Object_prototype : list (string * ObjectPrototypeProperty) :=
  [ ("constructor", proto_constructor);
    ("__defineGetter__", proto_defineGetter);
    ("__defineSetter__", proto_defineSetter);
    ("hasOwnProperty", proto_hasOwnProperty);
    ("__lookupGetter__", proto_lookupGetter);
    ("__lookupSetter__", proto_lookupSetter);
    ("isPrototypeOf", proto_isPrototypeOf);
    ("propertyIsEnumerable", proto_propertyIsEnumerable);
    ("toString", proto_toString);
    ("valueOf", proto_valueOf);
    ("__proto__", proto_proto);
    ("toLocaleString", proto_toLocaleString) ]%string.

Inductive Property :=
| OwnHandler (t : Tool)
| Inherited (p : ObjectPrototypeProperty).

Fixpoint assoc {A} (key : string) (l : list (string * A)) : option A :=
  match l with
  | [] => None
  | (k, a) :: rest => if String.eqb k key then Some a else assoc key rest
  end.

(** [handlers[toolName]]; [None] stands for [undefined]. *)
Definition handlers (toolName : string) : option Property :=
  match assoc toolName (map (fun t => (tool_name t, t)) all_tools) with
  | Some t => Some (OwnHandler t)
  | None =>
      match assoc toolName Object_prototype with
      | Some p => Some (Inherited p)
      | None => None
      end
  end.

(** What [handleTool] resolves to: the response of a handler, or whatever
    else the function found under the name returned. *)
Inductive Returned :=
| Response (r : ToolResponse)
| Other (value : JsValue).

(** [fn(rawArgs)] for a property inherited from [Object.prototype].  The
    call is a plain call in module code, which is strict, so the receiver
    is [undefined]: [toString] answers ["[object Undefined]"];
    [constructor], which is [Object], returns its argument, or a new
    object for [undefined] and [null]; [isPrototypeOf] answers [false] to
    an argument that is no object; the other methods fail converting the
    receiver to an object; [__proto__] is [Object.prototype] itself, which
    cannot be called. *)
Definition call_inherited (p : ObjectPrototypeProperty) (rawArgs : JsValue)
  : M Returned :=
  match p with
  | proto_toString => ret (Other (JString "[object Undefined]"))
  | proto_constructor =>
      match rawArgs with
      | JUndefined | JNull => ret (Other (JObject []))
      | _ => ret (Other rawArgs)
      end
  | proto_isPrototypeOf =>
      match rawArgs with
      | JObject _ | JArray _ => throw (fault (ReceiverFault "isPrototypeOf"))
      | _ => ret (Other (JBool false))
      end
  | proto_proto => throw (fault (NotCallableFault "fn"))
  | proto_defineGetter => throw (fault (ReceiverFault "__defineGetter__"))
  | proto_defineSetter => throw (fault (ReceiverFault "__defineSetter__"))
  | proto_hasOwnProperty => throw (fault (ReceiverFault "hasOwnProperty"))
  | proto_lookupGetter => throw (fault (ReceiverFault "__lookupGetter__"))
  | proto_lookupSetter => throw (fault (ReceiverFault "__lookupSetter__"))
  | proto_propertyIsEnumerable =>
      throw (fault (ReceiverFault "propertyIsEnumerable"))
  | proto_valueOf => throw (fault (ReceiverFault "valueOf"))
  | proto_toLocaleString => throw (fault (ReceiverFault "toLocaleString"))
  end.

Definition handleTool (toolName : string) (rawArgs : JsValue) : M Returned :=
  match handlers toolName with
  | None => throw (ErrorObject "Error" ("Unknown tool: " ++ toolName))
  | Some (OwnHandler t) =>
      r <- handler t rawArgs ;; ret (Response r)
  | Some (Inherited p) => call_inherited p rawArgs
  end.

(** ** index.ts: the handler of [CallToolRequestSchema] *)

(** The [content] of the envelope: the text items of a handler, or
    whatever else [result.content] was. *)
Inductive Content :=
| TextItems (items : list string)
| OtherContent (value : JsValue).

Record Envelope := {
  env_content : Content;
  env_isError : JsValue
}.

(** [err instanceof Error ? err.message : String(err)] *)
Definition message_of (err : Exn) : string :=
  match err with
  | ZodError issues => ZodError_message issues
  | ErrorObject _ message => message
  | ThrownValue v => String_of v
  end.

Definition callTool (toolName : string) (toolArgs : JsValue)
  : Runtime -> Envelope * Runtime :=
  fun rt =>
    match handleTool toolName toolArgs rt with
    | (inr (Response result), rt') =>
        ({| env_content := TextItems (content result);
            env_isError := match isError result with
                           | Some b => JBool b
                           | None => JUndefined
                           end |}, rt')
    | (inr (Other result), rt') =>
        ({| env_content := OtherContent (get_property "content" result);
            env_isError := get_property "isError" result |}, rt')
    | (inl err, rt') =>
        ({| env_content := TextItems [("Error: " ++ message_of err)%string];
            env_isError := JBool true |}, rt')
    end.

(** The state the process starts in. *)
Definition initial (w : World) : Runtime :=
  {| _publicClient := None; next_id := 0%nat; trace := []; world := w |}.

(** Tool calls served one after the other, as the transport hands them
    over. *)
Fixpoint serve (requests : list (string * JsValue)) (rt : Runtime)
  : list Envelope * Runtime :=
  match requests with
  | [] => ([], rt)
  | (toolName, toolArgs) :: rest =>
      let (envelope, rt1) := callTool toolName toolArgs rt in
      let (envelopes, rt2) := serve rest rt1 in
      (envelope :: envelopes, rt2)
  end.

(** ** What a trace shows *)

(** The calls made on clients, in order. *)
Fixpoint calls_of (tr : list Event) : list ClientCall :=
  match tr with
  | [] => []
  | Call _ what :: rest => what :: calls_of rest
  | _ :: rest => calls_of rest
  end.

(** The read clients that were constructed. *)
Fixpoint public_clients_created (tr : list Event) : list Client :=
  match tr with
  | [] => []
  | CreatePublicClient c :: rest => c :: public_clients_created rest
  | _ :: rest => public_clients_created rest
  end.

(** A call that only reads chain state. *)
Definition is_read (what : ClientCall) : bool :=
  match what with
  | GetBalance _ | ReadContract _ _ _ _ => true
  | SendTransaction _ _ | WriteContract _ _ _ _ => false
  end.

(** The clients the reading calls were made on. *)
Fixpoint readers (tr : list Event) : list Client :=
  match tr with
  | [] => []
  | Call c what :: rest =>
      if is_read what then c :: readers rest else readers rest
  | _ :: rest => readers rest
  end.

(** The read client is a singleton: if none is cached, none was ever
    constructed and nothing was read; if one is cached, it is the only one
    ever constructed, it was made from the resolved endpoint and chain,
    and every reading call was made on it. *)
Definition singleton_read_client (rt : Runtime) : Prop :=
  match _publicClient rt with
  | None =>
      public_clients_created (trace rt) = [] /\ readers (trace rt) = []
  | Some c =>
      public_clients_created (trace rt) = [c]
      /\ (forall c', In c' (readers (trace rt)) -> c' = c)
      /\ client_account c = None
      /\ client_transport c = rpcUrl proc
      /\ client_chain c = testChain proc
  end.

(** The writing calls, in order. *)
Definition writes (tr : list Event) : list ClientCall :=
  filter (fun what => negb (is_read what)) (calls_of tr).

(** A client made by this process: it talks to the resolved endpoint on
    the test chain; a read client has no account, a signing client has the
    account of the configured key. *)
Definition made_here (c : Client) : Prop :=
  client_transport c = rpcUrl proc
  /\ client_chain c = testChain proc.

Definition well_made (ev : Event) : Prop :=
  match ev with
  | CreatePublicClient c => made_here c /\ client_account c = None
  | CreateWalletClient c =>
      made_here c
      /\ exists account,
           client_account c = Some account
           /\ privateKeyToAccount (getPrivateKey proc) = inr account
  | Call _ _ => True
  end.

(** Since the trace [base], clients were constructed and reading calls
    made, nothing else; the events [made] are among them. *)
Definition quiet_since (base made : list Event) (rt : Runtime) : Prop :=
  exists evs,
    trace rt = base ++ evs
    /\ Forall well_made evs
    /\ forallb is_read (calls_of evs) = true
    /\ incl made evs.

(** Every client in the trace is made here, and every write in it was
    made on a signing client of the trace. *)
Definition signed_writes (tr : list Event) : Prop :=
  Forall well_made tr
  /\ forall c what,
       In (Call c what) tr -> is_read what = false ->
       In (CreateWalletClient c) tr.

(** What one run of the handler of [t] leaves behind when it started at
    the trace [base]: clients and reading calls, then at most one writing
    call, the last thing the handler did, made only by a write tool and on
    a signing client of this run; a response is one text item, and a write
    tool responds only after its writing call. *)
Definition handler_outcome (t : Tool) (base : list Event)
    (outcome : (Exn + ToolResponse) * Runtime) : Prop :=
  exists evs ws,
    trace (snd outcome) = base ++ evs ++ ws
    /\ Forall well_made evs
    /\ forallb is_read (calls_of evs) = true
    /\ (ws = []
        \/ exists c what,
             ws = [Call c what]
             /\ is_read what = false /\ is_write_tool t = true
             /\ In (CreateWalletClient c) evs)
    /\ (forall r, fst outcome = inr r ->
                  (exists text, r = text_response text)
                  /\ (is_write_tool t = true -> ws <> [])).

End WithCollaborators.

Arguments writes {Account} tr.
Arguments client_id {Account} c.
Arguments client_account {Account} c.
Arguments client_transport {Account} c.
Arguments client_chain {Account} c.
Arguments answer_bigint {Account World} n w c what.
Arguments answer_number {Account World} n w c what.
Arguments answer_value {Account World} n w c what.
Arguments answer_hash {Account World} n w c what.
Arguments CreatePublicClient {Account} c.
Arguments CreateWalletClient {Account} c.
Arguments Call {Account} c call.
Arguments _publicClient {Account World} r.
Arguments next_id {Account World} r.
Arguments trace {Account World} r.
Arguments world {Account World} r.
Arguments calls_of {Account} tr.
Arguments public_clients_created {Account} tr.
Arguments readers {Account} tr.

End Server.

(* ===================================================================== *)
(** * index.ts: the handler of [ListToolsRequestSchema] *)
(* ===================================================================== *)

Module ListTools.
Import Zod Schemas.

(** An advertised input schema: [zodToJsonSchema(Schema)] of one of the
    schemas, or the literal
    [{ type: "object", properties: {}, required: [] }]. *)
Inductive InputSchema :=
| zodToJsonSchema (schema : ZodObject)
| NoProperties.

Record ToolDescriptor := {
  name : string;
  description : string;
  inputSchema : InputSchema
}.

(** The [tools] array the handler returns. *)
Definition tools : list ToolDescriptor :=
  [ {| name := "get_eth_balance";
       description := "Return the ETH balance of the given address.";
       inputSchema := zodToJsonSchema GetEthBalanceArgsSchema |};
    {| name := "get_erc20_balance";
       description := "Return the ERC-20 token balance for a wallet.";
       inputSchema := zodToJsonSchema GetErc20BalanceArgsSchema |};
    {| name := "send_eth";
       description :=
         "Send a test transaction transferring ETH from one account to another (testnet / local only).";
       inputSchema := zodToJsonSchema SendEthArgsSchema |};
    {| name := "call_contract";
       description :=
         "Execute a read-only call against any smart-contract function by supplying the ABI & arguments.";
       inputSchema := zodToJsonSchema CallContractArgsSchema |};
    {| name := "erc20_transfer";
       description := "Transfer ERC-20 tokens (testnet / local only).";
       inputSchema := zodToJsonSchema Erc20TransferArgsSchema |};
    {| name := "erc20_approve";
       description :=
         "Set or change ERC-20 allowances (testnet / local only).";
       inputSchema := zodToJsonSchema Erc20ApproveArgsSchema |};
    {| name := "erc20_allowance";
       description := "Query the current ERC-20 allowance for a spender.";
       inputSchema := zodToJsonSchema Erc20AllowanceArgsSchema |};
    {| name := "get_rpc_url";
       description := "Return the RPC URL this server is configured to use.";
       inputSchema := NoProperties |} ]%string.

End ListTools.

(* ===================================================================== *)
(** * A local node, for worked examples *)
(* ===================================================================== *)

(** Collaborators to run the server against: a node where every account
    holds 10000 ether and 1.5 tokens of a 6-decimals token, and a process
    started without arguments and without environment variables. *)
Module Scenario.
Import JsString Js Zod Server.

Definition Account := string.
Definition World := unit.

Definition privateKeyToAccount (privateKey : option string) : Exn + Account :=
  match privateKey with
  | None =>
      inl (ErrorObject "TypeError"
             "Cannot read properties of undefined (reading 'slice')")
  | Some key => inr key
  end.

Definition node : Node Account World := {|
  answer_bigint := fun w _ what =>
    (inr (match what with
          | GetBalance _ => 10000 * 10 ^ 18
          | _ => 1500000
          end), w);
  answer_number := fun w _ _ => (inr 6%nat, w);
  answer_value := fun w _ _ => (inr (JArray []), w);
  answer_hash := fun w _ _ => (inr "0xabc"%string, w)
|}.

(** The ABI of a contract with one [view] function, [f()], that returns a
    [uint256[]]: as a value, and as the JSON text of that value. *)
Definition view_abi : JsValue :=
  JArray
    [JObject
       [("type", JString "function"); ("name", JString "f");
        ("stateMutability", JString "view"); ("inputs", JArray []);
        ("outputs", JArray [JObject [("type", JString "uint256[]")]])]]%string.

Definition quoted (s : string) : string :=
  String (ascii_of_nat 34) (s ++ String (ascii_of_nat 34) EmptyString)%string.

Definition view_abi_text : string :=
  ("[{" ++ quoted "type" ++ ":" ++ quoted "function" ++ ","
   ++ quoted "name" ++ ":" ++ quoted "f" ++ ","
   ++ quoted "stateMutability" ++ ":" ++ quoted "view" ++ ","
   ++ quoted "inputs" ++ ":[],"
   ++ quoted "outputs" ++ ":[{" ++ quoted "type" ++ ":"
   ++ quoted "uint256[]" ++ "}]}]")%string.

Definition JSON_parse (text : string) : Exn + JsValue :=
  if String.eqb text "[]" then inr (JArray [])
  else if String.eqb text view_abi_text then inr view_abi
  else inl (ErrorObject "SyntaxError" "Unexpected token").

Definition JSON_stringify (_ : JsValue) : string := "[]".

Definition fault (f : Fault) : Exn :=
  match f with
  | ParseUnitsFault (Viem.InvalidDecimalNumberError _) =>
      ErrorObject "InvalidDecimalNumberError" "not a valid decimal number"
  | ParseUnitsFault (Viem.BigIntSyntaxError _) =>
      ErrorObject "SyntaxError" "Cannot convert to a BigInt"
  | NotIterableFault _ => ErrorObject "TypeError" "abi is not iterable"
  | PropertyOfNullishFault _ JNull =>
      ErrorObject "TypeError" "Cannot read properties of null"
  | PropertyOfNullishFault _ _ =>
      ErrorObject "TypeError" "Cannot read properties of undefined"
  | _ => ErrorObject "TypeError" "not a function"
  end.

Definition ZodError_message (_ : list ZodIssue) : string := "invalid arguments".
Definition String_of (_ : JsValue) : string := "".

Definition read_only : Process :=
  {| cliArgs := []; env_RPC_URL := None; env_PRIVATE_KEY := None |}.

Definition signing : Process :=
  {| cliArgs := []; env_RPC_URL := None; env_PRIVATE_KEY := Some "0x01"%string |}.

Definition handler (proc : Process) (t : Tool) :=
  Server.handler Account World privateKeyToAccount node JSON_parse
    JSON_stringify fault proc t.

Definition handleTool (proc : Process) :=
  Server.handleTool Account World privateKeyToAccount node JSON_parse
    JSON_stringify fault proc.

Definition callTool (proc : Process) :=
  Server.callTool Account World privateKeyToAccount node JSON_parse
    JSON_stringify fault ZodError_message String_of proc.

Definition serve (proc : Process) :=
  Server.serve Account World privateKeyToAccount node JSON_parse
    JSON_stringify fault ZodError_message String_of proc.

Definition start : Runtime Account World := initial Account World tt.

(** A derivation of accounts that refuses a key without the ["0x"] in
    front, and a process started with such a key. *)
Definition privateKeyToAccount_hex (privateKey : option string)
  : Exn + Account :=
  match privateKey with
  | Some key =>
      if String.prefix "0x" key then inr key
      else inl (ErrorObject "InvalidPrivateKeyError"
                  "private key must be a hex value")
  | None => privateKeyToAccount None
  end.

Definition unusable_key : Process :=
  {| cliArgs := []; env_RPC_URL := None;
     env_PRIVATE_KEY := Some "secret"%string |}.

End Scenario.

(* ===================================================================== *)
(** * Facts about digit strings *)
(* ===================================================================== *)

Module DigitFacts.
Import JsString.

Lemma to_of_string (s : string) : to_string (of_string s) = s.
Proof. apply string_of_list_ascii_of_string. Qed.

Lemma of_to_string (l : chars) : of_string (to_string l) = l.
Proof. apply list_ascii_of_string_of_list_ascii. Qed.

Lemma is_digit_spec (c : ascii) :
  is_digit c = true <-> (48 <= N_of_ascii c <= 57)%N.
Proof.
  unfold is_digit, nat_of_ascii. cbv zeta.
  rewrite andb_true_iff, !Nat.leb_le. lia.
Qed.

Lemma is_digit_digit_of_N (d : N) : (d < 10)%N -> is_digit (digit_of_N d) = true.
Proof.
  intros H. apply is_digit_spec. unfold digit_of_N.
  rewrite N_ascii_embedding by lia. lia.
Qed.

Lemma N_of_digit_of_N (d : N) : (d < 10)%N -> N_of_digit (digit_of_N d) = d.
Proof.
  intros H. unfold N_of_digit, digit_of_N.
  rewrite N_ascii_embedding by lia. lia.
Qed.

Lemma is_digit_not_dot (c : ascii) : is_digit c = true -> Ascii.eqb c dot_char = false.
Proof.
  intros H. apply Ascii.eqb_neq. intros ->. discriminate H.
Qed.

Lemma is_digit_not_minus (c : ascii) :
  is_digit c = true -> Ascii.eqb c minus_char = false.
Proof.
  intros H. apply Ascii.eqb_neq. intros ->. discriminate H.
Qed.

Lemma is_digit_zero : is_digit zero_char = true.
Proof. reflexivity. Qed.

Lemma N_of_digit_zero : N_of_digit zero_char = 0%N.
Proof. reflexivity. Qed.

(** ** [digits_value] *)

Lemma fold_digits_app (a b : chars) (acc : N) :
  fold_left (fun acc c => 10 * acc + N_of_digit c)%N (a ++ b) acc
  = fold_left (fun acc c => 10 * acc + N_of_digit c)%N b
      (fold_left (fun acc c => 10 * acc + N_of_digit c)%N a acc).
Proof. apply fold_left_app. Qed.

Lemma fold_digits_acc (s : chars) (acc : N) :
  fold_left (fun acc c => 10 * acc + N_of_digit c)%N s acc
  = (acc * 10 ^ N.of_nat (List.length s) + digits_value s)%N.
Proof.
  unfold digits_value. revert acc.
  induction s as [|c s IH]; intros acc.
  - simpl. lia.
  - cbn [fold_left List.length].
    rewrite IH. rewrite (IH (10 * 0 + N_of_digit c)%N).
    rewrite Nat2N.inj_succ, N.pow_succ_r'. lia.
Qed.

Lemma digits_value_app (a b : chars) :
  digits_value (a ++ b)
  = (digits_value a * 10 ^ N.of_nat (List.length b) + digits_value b)%N.
Proof.
  unfold digits_value at 1. rewrite fold_digits_app.
  rewrite fold_digits_acc. reflexivity.
Qed.

Lemma digits_value_nil : digits_value [] = 0%N.
Proof. reflexivity. Qed.

Lemma digits_value_cons (c : ascii) (s : chars) :
  digits_value (c :: s)
  = (N_of_digit c * 10 ^ N.of_nat (List.length s) + digits_value s)%N.
Proof.
  change (c :: s) with ([c] ++ s). rewrite digits_value_app.
  replace (digits_value [c]) with (N_of_digit c); [reflexivity|].
  unfold digits_value. cbn [fold_left]. lia.
Qed.

Lemma digits_value_zeros (k : nat) : digits_value (repeat zero_char k) = 0%N.
Proof.
  induction k as [|k IH]; [reflexivity|].
  cbn [repeat]. rewrite digits_value_cons, IH, N_of_digit_zero. lia.
Qed.

Lemma forallb_digit_zeros (k : nat) :
  forallb is_digit (repeat zero_char k) = true.
Proof. induction k; simpl; auto. Qed.

(** ** [N_toString] *)

Lemma N_digits_spec (fuel : nat) (n : N) (acc : chars) :
  (n < 2 ^ N.of_nat fuel)%N -> (0 < fuel)%nat ->
  exists ds,
    N_digits fuel n acc = ds ++ acc
    /\ forallb is_digit ds = true
    /\ digits_value ds = n
    /\ ds <> [].
Proof.
  revert n acc. induction fuel as [|fuel IH]; intros n acc Hn Hf; [lia|].
  cbn [N_digits].
  assert (Hmod : (n mod 10 < 10)%N) by (apply N.mod_lt; lia).
  destruct (N.eqb_spec (n / 10) 0) as [Hq|Hq].
  - exists [digit_of_N (n mod 10)]. repeat split.
    + simpl. rewrite is_digit_digit_of_N by assumption. reflexivity.
    + rewrite digits_value_cons, digits_value_nil, N_of_digit_of_N by assumption.
      simpl. pose proof (N.div_mod n 10). lia.
    + discriminate.
  - assert (Hlt : (n / 10 < 2 ^ N.of_nat fuel)%N).
    { rewrite Nat2N.inj_succ, N.pow_succ_r' in Hn.
      apply N.Div0.div_lt_upper_bound. lia. }
    assert (Hfuel : (0 < fuel)%nat).
    { destruct fuel; [|lia]. exfalso. apply Hq.
      apply N.lt_1_r. exact Hlt. }
    destruct (IH (n / 10)%N (digit_of_N (n mod 10) :: acc) Hlt Hfuel)
      as (ds & Heq & Hd & Hv & Hne).
    exists (ds ++ [digit_of_N (n mod 10)]). repeat split.
    + rewrite Heq, <- app_assoc. reflexivity.
    + rewrite forallb_app, Hd. simpl.
      rewrite is_digit_digit_of_N by assumption. reflexivity.
    + rewrite digits_value_app, Hv. cbn [List.length].
      rewrite digits_value_cons, digits_value_nil, N_of_digit_of_N by assumption.
      simpl. pose proof (N.div_mod n 10). lia.
    + destruct ds; discriminate.
Qed.

Lemma N_toString_spec (n : N) :
  forallb is_digit (N_toString n) = true
  /\ digits_value (N_toString n) = n
  /\ N_toString n <> [].
Proof.
  unfold N_toString.
  destruct (N_digits_spec (S (N.to_nat (N.log2 n))) n []) as (ds & Heq & H).
  - rewrite Nat2N.inj_succ, N2Nat.id.
    destruct n as [|p]; [reflexivity|].
    apply N.log2_spec. lia.
  - lia.
  - rewrite Heq, app_nil_r. exact H.
Qed.

(** ** [strip_trailing_zeros] *)

Lemma strip_trailing_zeros_spec (s : chars) :
  exists k, s = strip_trailing_zeros s ++ repeat zero_char k.
Proof.
  induction s as [|c s (k & IH)].
  - exists 0%nat. reflexivity.
  - cbn [strip_trailing_zeros].
    destruct (strip_trailing_zeros s) as [|c' r] eqn:E.
    + destruct (Ascii.eqb_spec c zero_char) as [->|Hc].
      * exists (S k). simpl in IH. rewrite IH. reflexivity.
      * exists k. simpl in IH. rewrite IH at 1. reflexivity.
    + exists k. rewrite IH at 1. reflexivity.
Qed.

Lemma strip_trailing_zeros_digits (s : chars) :
  forallb is_digit s = true -> forallb is_digit (strip_trailing_zeros s) = true.
Proof.
  intros H. destruct (strip_trailing_zeros_spec s) as (k & E).
  rewrite E, forallb_app in H. apply andb_true_iff in H. apply H.
Qed.

Lemma strip_trailing_zeros_length (s : chars) :
  (List.length (strip_trailing_zeros s) <= List.length s)%nat.
Proof.
  destruct (strip_trailing_zeros_spec s) as (k & E).
  remember (strip_trailing_zeros s) as t eqn:Ht. clear Ht. subst s.
  rewrite length_app. lia.
Qed.

Lemma strip_trailing_zeros_value (s : chars) :
  digits_value s
  = (digits_value (strip_trailing_zeros s)
     * 10 ^ N.of_nat (List.length s - List.length (strip_trailing_zeros s)))%N.
Proof.
  destruct (strip_trailing_zeros_spec s) as (k & E).
  remember (strip_trailing_zeros s) as t eqn:Ht. clear Ht. subst s.
  rewrite digits_value_app, digits_value_zeros.
  rewrite length_app, repeat_length.
  replace (List.length t + k - List.length t)%nat with k by lia.
  lia.
Qed.

End DigitFacts.

(* ===================================================================== *)
(** * Facts about [Number] and [Math.round] *)
(* ===================================================================== *)

Module NumberFacts.
Import JsNumber.

(** [round_half_even n d] is within a half of [n / d], and even on a
    tie. *)
Lemma round_half_even_spec (n d : Z) :
  0 <= n -> 0 < d ->
  let r := round_half_even n d in
  0 <= r /\ Z.abs (2 * n - 2 * r * d) <= d
  /\ (Z.abs (2 * n - 2 * r * d) = d -> Z.even r = true).
Proof.
  intros Hn Hd. unfold round_half_even. cbv zeta.
  pose proof (Z.div_mod n d ltac:(lia)) as Hdm.
  pose proof (Z.mod_pos_bound n d Hd) as Hm.
  assert (Hq : 0 <= n / d) by (apply Z.div_pos; lia).
  set (q := n / d) in *. set (m := n mod d) in *.
  destruct (Z.compare_spec (2 * m) d) as [E|L|G].
  - destruct (Z.even q) eqn:Ev.
    + split; [lia|]. split; [lia|]. intros _. exact Ev.
    + split; [lia|]. split; [lia|]. intros _.
      rewrite Z.even_add, Ev. reflexivity.
  - split; [lia|]. split; lia.
  - split; [lia|]. split; lia.
Qed.

(** [2^b <= n / d < 2^(b+1)] for [b] the binade of [n / d], multiplied
    out. *)
Lemma binade_spec (n d : Z) :
  0 < n -> 0 < d ->
  let b := binade n d in
  (0 <= b -> d * 2 ^ b <= n < d * 2 ^ (b + 1))
  /\ (b < 0 -> d <= n * 2 ^ (- b) < 2 * d).
Proof.
  intros Hn Hd. unfold binade. cbv zeta.
  destruct (Z.log2_spec n Hn) as [Hn1 Hn2].
  destruct (Z.log2_spec d Hd) as [Hd1 Hd2].
  pose proof (Z.log2_nonneg n) as Pn. pose proof (Z.log2_nonneg d) as Pd.
  set (a := Z.log2 n) in *. set (c := Z.log2 d) in *.
  rewrite <- Z.add_1_r in Hn2, Hd2.
  rewrite Z.pow_add_r in Hn2, Hd2 by lia. change (2 ^ 1) with 2 in *.
  assert (Pa : 0 < 2 ^ a) by (apply Z.pow_pos_nonneg; lia).
  assert (Pc : 0 < 2 ^ c) by (apply Z.pow_pos_nonneg; lia).
  destruct (Z.leb_spec 0 (a - c)) as [He|He].
  - assert (Hac : 2 ^ a = 2 ^ c * 2 ^ (a - c)).
    { rewrite <- Z.pow_add_r by lia. f_equal. lia. }
    assert (Pe : 0 < 2 ^ (a - c)) by (apply Z.pow_pos_nonneg; lia).
    destruct (Z.leb_spec (d * 2 ^ (a - c)) n) as [H|H].
    + split; [|lia]. intros _. split; [exact H|].
      rewrite Z.pow_add_r by lia. change (2 ^ 1) with 2. nia.
    + destruct (Z.eq_dec (a - c) 0) as [E0|E0].
      * split; [lia|]. intros _. replace (- (a - c - 1)) with 1 by lia.
        change (2 ^ 1) with 2. rewrite E0 in *. change (2 ^ 0) with 1 in *. nia.
      * split; [|lia]. intros _.
        replace (a - c - 1 + 1) with (a - c) by lia. split; [|exact H].
        assert (Hs : 2 ^ (a - c) = 2 * 2 ^ (a - c - 1)).
        { rewrite <- Z.pow_succ_r by lia. f_equal. lia. }
        nia.
  - assert (Hca : 2 ^ c = 2 ^ a * 2 ^ (- (a - c))).
    { rewrite <- Z.pow_add_r by lia. f_equal. lia. }
    assert (Pe : 0 < 2 ^ (- (a - c))) by (apply Z.pow_pos_nonneg; lia).
    destruct (Z.leb_spec d (n * 2 ^ (- (a - c)))) as [H|H].
    + split; [lia|]. intros _. split; [exact H|]. nia.
    + split; [lia|]. intros _. replace (- (a - c - 1)) with (- (a - c) + 1) by lia.
      rewrite Z.pow_add_r by lia. change (2 ^ 1) with 2. nia.
Qed.

Lemma round_half_even_bounds (n d lo hi : Z) :
  0 <= n -> 0 < d -> 0 <= lo ->
  d * lo <= n -> n <= d * hi ->
  lo <= round_half_even n d <= hi.
Proof.
  intros Hn Hd Hlo H1 H2.
  destruct (round_half_even_spec n d Hn Hd) as (Hr & Habs & _).
  set (r := round_half_even n d) in *.
  split.
  - destruct (Z_lt_le_dec r lo) as [L|L]; [|exact L]. exfalso.
    assert (r + 1 <= lo) by lia. nia.
  - destruct (Z_lt_le_dec hi r) as [L|L]; [|exact L]. exfalso.
    assert (hi + 1 <= r) by lia. nia.
Qed.

(** The value [m * 2^e] that [nearest_double n d] gives is a binary64
    number (a 53-bit [m], normalised unless [e] is the least exponent)
    within half a unit in the last place of [n / d], an even [m] on a
    tie. *)
Lemma nearest_double_spec (n d : Z) :
  0 < n -> 0 < d ->
  exists m e,
    nearest_double n d = Finite m e
    /\ -1074 <= e
    /\ 0 <= m <= 2 ^ 53
    /\ (-1074 < e -> 2 ^ 52 <= m)
    /\ (0 <= e ->
        Z.abs (2 * n - 2 * m * (d * 2 ^ e)) <= d * 2 ^ e
        /\ (Z.abs (2 * n - 2 * m * (d * 2 ^ e)) = d * 2 ^ e ->
            Z.even m = true))
    /\ (e < 0 ->
        Z.abs (2 * (n * 2 ^ (- e)) - 2 * m * d) <= d
        /\ (Z.abs (2 * (n * 2 ^ (- e)) - 2 * m * d) = d -> Z.even m = true)).
Proof.
  intros Hn Hd. unfold nearest_double.
  destruct (Z.eqb_spec n 0) as [E|_]; [lia|]. cbv zeta.
  destruct (binade_spec n d Hn Hd) as [Hb1 Hb2].
  set (b := binade n d) in *.
  set (e := Z.max (b - 52) (-1074)).
  assert (He : -1074 <= e) by (unfold e; lia).
  destruct (Z.leb_spec 0 e) as [Hpos|Hneg].
  - (* a large quotient: [e = b - 52 >= 0] *)
    assert (Heb : e = b - 52) by (unfold e in *; lia).
    assert (Pe : 0 < 2 ^ e) by (apply Z.pow_pos_nonneg; lia).
    assert (Hpow : 2 ^ b = 2 ^ e * 2 ^ 52).
    { rewrite <- Z.pow_add_r by lia. f_equal. lia. }
    assert (Hpow' : 2 ^ (b + 1) = 2 ^ e * 2 ^ 53).
    { rewrite <- Z.pow_add_r by lia. f_equal. lia. }
    destruct (Hb1 ltac:(lia)) as [L U]. rewrite Hpow in L. rewrite Hpow' in U.
    assert (Dpos : 0 < d * 2 ^ e) by nia.
    destruct (round_half_even_spec n (d * 2 ^ e) ltac:(lia) Dpos)
      as (Hr & Habs & Hev).
    destruct (round_half_even_bounds n (d * 2 ^ e) (2 ^ 52) (2 ^ 53)
                ltac:(lia) Dpos ltac:(lia) ltac:(nia) ltac:(nia)) as [B1 B2].
    eexists _, _. split; [reflexivity|].
    repeat split; try lia; try assumption.
  - (* a small quotient: the quotient is scaled up by [2^(-e)] *)
    assert (Pe : 0 < 2 ^ (- e)) by (apply Z.pow_pos_nonneg; lia).
    assert (Npos : 0 <= n * 2 ^ (- e)) by nia.
    destruct (round_half_even_spec (n * 2 ^ (- e)) d Npos Hd)
      as (Hr & Habs & Hev).
    assert (Hupper : n * 2 ^ (- e) <= d * 2 ^ 53).
    { destruct (Z_lt_le_dec b 0) as [Bneg|Bpos].
      - destruct (Hb2 Bneg) as [_ U].
        destruct (Z_lt_le_dec (- e) (- b)) as [C|C].
        + assert (2 ^ (- e) <= 2 ^ (- b)) by (apply Z.pow_le_mono_r; lia). nia.
        + assert (Hs : 2 ^ (- e) = 2 ^ (- b) * 2 ^ (- e + b)).
          { rewrite <- Z.pow_add_r by lia. f_equal. lia. }
          assert (2 ^ (- e + b) <= 2 ^ 52)
            by (apply Z.pow_le_mono_r; unfold e in *; lia).
          assert (0 < 2 ^ (- e + b)) by (apply Z.pow_pos_nonneg; lia).
          rewrite Hs. nia.
      - destruct (Hb1 Bpos) as [_ U].
        assert (Heb : e = b - 52) by (unfold e in *; lia).
        assert (Hs : 2 ^ 53 = 2 ^ (b + 1) * 2 ^ (- e)).
        { rewrite <- Z.pow_add_r by lia. f_equal. lia. }
        rewrite Hs. nia. }
    assert (Hlower : -1074 < e -> d * 2 ^ 52 <= n * 2 ^ (- e)).
    { intros Hnorm. assert (Heb : e = b - 52) by (unfold e in *; lia).
      destruct (Z_lt_le_dec b 0) as [Bneg|Bpos].
      - destruct (Hb2 Bneg) as [L _].
        assert (Hs : 2 ^ (- e) = 2 ^ (- b) * 2 ^ 52).
        { rewrite <- Z.pow_add_r by lia. f_equal. lia. }
        rewrite Hs. nia.
      - destruct (Hb1 Bpos) as [L _].
        assert (Hs : 2 ^ 52 = 2 ^ b * 2 ^ (- e)).
        { rewrite <- Z.pow_add_r by lia. f_equal. lia. }
        rewrite Hs. nia. }
    destruct (round_half_even_bounds (n * 2 ^ (- e)) d 0 (2 ^ 53)
                Npos Hd ltac:(lia) ltac:(lia) Hupper) as [_ B2].
    eexists _, _. split; [reflexivity|].
    repeat split; try lia; try assumption.
    intros Hnorm.
    apply (round_half_even_bounds (n * 2 ^ (- e)) d (2 ^ 52) (2 ^ 53)
             Npos Hd ltac:(lia) (Hlower Hnorm) Hupper).
Qed.

(** [Math.round(m * 2^e)] is the integer [z] with
    [z <= m * 2^e + 1/2 < z + 1]. *)
Lemma Math_round_spec (m e z : Z) :
  Math_round (Finite m e) = Some z ->
  (0 <= e -> z = m * 2 ^ e)
  /\ (e < 0 ->
      2 * z * 2 ^ (- e) <= 2 * m + 2 ^ (- e) < 2 * (z + 1) * 2 ^ (- e)).
Proof.
  unfold Math_round. intros H.
  assert (Hz : (if 0 <=? e then m * 2 ^ e
                else (2 * m + 2 ^ (- e)) / 2 ^ (1 - e)) = z) by congruence.
  clear H.
  destruct (Z.leb_spec 0 e) as [Hpos|Hneg]; subst z; split; intros He;
    try lia.
  assert (Pk : 0 < 2 ^ (- e)) by (apply Z.pow_pos_nonneg; lia).
  assert (Hs : 2 ^ (1 - e) = 2 * 2 ^ (- e)).
  { replace (1 - e) with (Z.succ (- e)) by lia. apply Z.pow_succ_r. lia. }
  rewrite Hs.
  pose proof (Z.div_mod (2 * m + 2 ^ (- e)) (2 * 2 ^ (- e)) ltac:(lia)) as Hdm.
  pose proof (Z.mod_pos_bound (2 * m + 2 ^ (- e)) (2 * 2 ^ (- e)) ltac:(lia))
    as Hm.
  nia.
Qed.

End NumberFacts.

(* ===================================================================== *)
(** * Facts about decimal numerals, [formatUnits] and [parseUnits] *)
(* ===================================================================== *)

Module UnitFacts.
Import JsString JsNumber Viem Decimal DigitFacts.

(** ** The routines on known values *)

(** [Number("0.1")] is the double [0x1.999999999999ap-4]. *)
Example Number_one_tenth :
  Number_of_decimal (of_string "0") (of_string "1")
  = Finite 7205759403792794 (-56).
Proof. reflexivity. Qed.

(** [Number("5.4999999999999999")] is the double 5.5. *)
Example Number_near_half :
  Number_of_decimal (of_string "5") (of_string "4999999999999999")
  = Finite (11 * 2 ^ 49) (-50).
Proof. reflexivity. Qed.

Example Math_round_ties_up :
  Math_round (Number_of_decimal (of_string "2") (of_string "5")) = Some 3
  /\ Math_round (Number_of_decimal (of_string "9") (of_string "5")) = Some 10
  /\ Math_round (Number_of_decimal [] (of_string "5")) = Some 1
  /\ Math_round (Number_of_decimal [] (of_string "49")) = Some 0
  /\ Math_round (Number_of_decimal [] []) = None.
Proof. repeat split. Qed.

Example formatUnits_values :
  formatUnits 1500000 6 = "1.5"%string
  /\ formatUnits (10000 * 10 ^ 18) 18 = "10000"%string
  /\ formatUnits 1 18 = "0.000000000000000001"%string
  /\ formatUnits (-5) 1 = "-0.5"%string
  /\ formatUnits 123 0 = "123"%string.
Proof. repeat split. Qed.

Example parseUnits_values :
  parseUnits "1.5" 6 = inr 1500000
  /\ parseUnits "0.01" 18 = inr (10 ^ 16)
  /\ parseUnits "1.50" 1 = inr 15
  /\ parseUnits "1.994" 2 = inr 199
  /\ parseUnits "1.995" 2 = inr 200
  /\ parseUnits "9.99" 1 = inr 100
  /\ parseUnits "-.5" 1 = inr (-5)
  /\ parseUnits "1e5" 0 = inl (InvalidDecimalNumberError "1e5")
  /\ parseUnits "-" 0 = inl (BigIntSyntaxError "-").
Proof. repeat split. Qed.

Lemma span_digits_app (ds rest : chars) :
  forallb is_digit ds = true ->
  match rest with [] => True | c :: _ => is_digit c = false end ->
  span_digits (ds ++ rest) = (ds, rest).
Proof.
  intros Hd Hr. induction ds as [|c ds IH].
  - simpl. destruct rest as [|c r]; [reflexivity|].
    simpl. rewrite Hr. reflexivity.
  - simpl in Hd. apply andb_true_iff in Hd as [Hc Hd].
    simpl. rewrite Hc, (IH Hd). reflexivity.
Qed.

Lemma span_digits_all (ds : chars) :
  forallb is_digit ds = true -> span_digits ds = (ds, []).
Proof.
  intros H. rewrite <- (app_nil_r ds) at 1.
  apply span_digits_app; [assumption|exact I].
Qed.

(** Reading the numeral made of a sign, integer digits and a tail that is
    empty or a dot and fraction digits. *)
Lemma read_integer (negative : bool) (int : chars) :
  forallb is_digit int = true -> int <> [] ->
  read ((if negative then [minus_char] else []) ++ int)
  = Some (negative, int, []).
Proof.
  intros Hd Hne. unfold read.
  destruct negative; cbn [app].
  - change (Ascii.eqb minus_char minus_char) with true. cbv iota.
    rewrite span_digits_all by assumption.
    destruct int; [contradiction|reflexivity].
  - destruct int as [|c int]; [contradiction|].
    simpl in Hd. apply andb_true_iff in Hd as [Hc Hd].
    rewrite (is_digit_not_minus c Hc).
    rewrite span_digits_all by (simpl; rewrite Hc, Hd; reflexivity).
    reflexivity.
Qed.

Lemma read_fraction (negative : bool) (int frac : chars) :
  forallb is_digit int = true -> forallb is_digit frac = true ->
  nonempty int || nonempty frac = true ->
  read ((if negative then [minus_char] else []) ++ int ++ dot_char :: frac)
  = Some (negative, int, frac).
Proof.
  intros Hi Hf Hne. unfold read.
  assert (Hspan : span_digits (int ++ dot_char :: frac) = (int, dot_char :: frac))
    by (apply span_digits_app; [assumption|reflexivity]).
  destruct negative; cbn [app].
  - change (Ascii.eqb minus_char minus_char) with true. cbv iota.
    rewrite Hspan.
    change (Ascii.eqb dot_char dot_char) with true.
    rewrite Hf, Hne. reflexivity.
  - destruct int as [|c int].
    + cbn [app]. change (Ascii.eqb dot_char minus_char) with false. cbv iota.
      change (span_digits (dot_char :: frac)) with (@nil ascii, dot_char :: frac).
      cbv beta iota.
      change (Ascii.eqb dot_char dot_char) with true.
      rewrite Hf, Hne. reflexivity.
    + pose proof Hi as Hi'. simpl in Hi'. apply andb_true_iff in Hi' as [Hc _].
      cbn [app]. rewrite (is_digit_not_minus c Hc).
      change (c :: int ++ dot_char :: frac) with ((c :: int) ++ dot_char :: frac).
      rewrite Hspan.
      change (Ascii.eqb dot_char dot_char) with true.
      rewrite Hf, Hne. reflexivity.
Qed.

(** A numeral [(m, k)] denotes [b / 10^d] when [m * 10^d = b * 10^k]. *)
Lemma Q_of_scaled_eq (m : Z) (k : nat) (b : Z) (d : nat) :
  m * 10 ^ Z.of_nat d = b * 10 ^ Z.of_nat k ->
  (Q_of_scaled (m, k) == inject_Z b / inject_Z (10 ^ Z.of_nat d))%Q.
Proof.
  intros H. unfold Q_of_scaled. cbn [fst snd].
  assert (Hk : 0 < 10 ^ Z.of_nat k) by (apply Z.pow_pos_nonneg; lia).
  assert (Hd : 0 < 10 ^ Z.of_nat d) by (apply Z.pow_pos_nonneg; lia).
  assert (Hk' : ~ (inject_Z (10 ^ Z.of_nat k) == 0)%Q).
  { intros E. unfold Qeq in E. cbn [Qnum Qden inject_Z] in E. lia. }
  assert (Hd' : ~ (inject_Z (10 ^ Z.of_nat d) == 0)%Q).
  { intros E. unfold Qeq in E. cbn [Qnum Qden inject_Z] in E. lia. }
  apply (Qmult_inj_r _ _ (inject_Z (10 ^ Z.of_nat k) * inject_Z (10 ^ Z.of_nat d)))%Q.
  { intros E. apply Qmult_integral in E. tauto. }
  transitivity (inject_Z (m * 10 ^ Z.of_nat d)).
  - rewrite inject_Z_mult. field. assumption.
  - rewrite H, inject_Z_mult. field. assumption.
Qed.

(** ** [formatUnits] is exact *)

Lemma padStart0_spec (d : nat) (ds : chars) :
  forallb is_digit ds = true ->
  forallb is_digit (padStart0 d ds) = true
  /\ digits_value (padStart0 d ds) = digits_value ds
  /\ (d <= List.length (padStart0 d ds))%nat
  /\ (List.length ds <= List.length (padStart0 d ds))%nat.
Proof.
  intros H. unfold padStart0. repeat split.
  - rewrite forallb_app, forallb_digit_zeros, H. reflexivity.
  - rewrite digits_value_app, digits_value_zeros. lia.
  - rewrite length_app, repeat_length. lia.
  - rewrite length_app. lia.
Qed.

(** The text [formatUnits] builds from the digits [ds] of the magnitude
    reads back as that magnitude over [10^d]. *)
Lemma format_digits (negative : bool) (ds : chars) (d : nat) :
  forallb is_digit ds = true -> ds <> [] ->
  let display := padStart0 d ds in
  let integer := slice 0 (List.length display - d) display in
  let fraction :=
    strip_trailing_zeros (slice_from (List.length display - d) display) in
  exists m k,
    scaled ((if negative then [minus_char] else [])
              ++ (match integer with [] => [zero_char] | _ => integer end)
              ++ (match fraction with [] => [] | _ => dot_char :: fraction end))
    = Some (if negative then - m else m, k)
    /\ m * 10 ^ Z.of_nat d = Z.of_N (digits_value ds) * 10 ^ Z.of_nat k.
Proof.
  intros Hd Hne display integer fraction.
  destruct (padStart0_spec d ds Hd) as (Hdd & Hdv & Hlen & _).
  fold display in Hdd, Hdv, Hlen.
  set (n := (List.length display - d)%nat) in *.
  assert (Hsplit : display = firstn n display ++ skipn n display)
    by (symmetry; apply firstn_skipn).
  assert (HI : integer = firstn n display).
  { unfold integer, slice. rewrite Nat.sub_0_r. reflexivity. }
  set (F := skipn n display) in *.
  assert (HF : fraction = strip_trailing_zeros F) by reflexivity.
  assert (HFlen : List.length F = d).
  { unfold F. rewrite length_skipn. unfold n. lia. }
  assert (Hboth : forallb is_digit (firstn n display) = true
                  /\ forallb is_digit F = true).
  { rewrite Hsplit, forallb_app in Hdd. apply andb_true_iff in Hdd. exact Hdd. }
  destruct Hboth as [HdI HdF].
  assert (HdF' : forallb is_digit fraction = true)
    by (rewrite HF; apply strip_trailing_zeros_digits; exact HdF).
  assert (HlenF' : (List.length fraction <= d)%nat).
  { rewrite HF, <- HFlen. apply strip_trailing_zeros_length. }
  assert (HvF : digits_value F
                = (digits_value fraction
                   * 10 ^ N.of_nat (d - List.length fraction))%N).
  { rewrite HF, <- HFlen. apply strip_trailing_zeros_value. }
  assert (Hv : digits_value ds
               = (digits_value integer * 10 ^ N.of_nat d
                  + digits_value fraction
                    * 10 ^ N.of_nat (d - List.length fraction))%N).
  { rewrite <- Hdv, Hsplit, digits_value_app, HFlen, HvF, HI. reflexivity. }
  set (I' := match integer with [] => [zero_char] | _ => integer end).
  assert (HI' : forallb is_digit I' = true /\ I' <> []
                /\ digits_value I' = digits_value integer).
  { unfold I'. destruct integer as [|c r] eqn:E.
    - repeat split; discriminate.
    - repeat split; [rewrite HI; assumption|discriminate]. }
  destruct HI' as (HdI' & HneI' & HvI').
  exists (Z.of_N (digits_value (I' ++ fraction))), (List.length fraction).
  split.
  - unfold scaled.
    destruct fraction as [|c r] eqn:E.
    + rewrite app_nil_r. rewrite read_integer by assumption.
      rewrite app_nil_r. reflexivity.
    + rewrite read_fraction; try assumption; [reflexivity|].
      apply orb_true_r.
  - rewrite digits_value_app, HvI', Hv.
    rewrite !N2Z.inj_add, !N2Z.inj_mul, !N2Z.inj_pow, !nat_N_Z.
    change (Z.of_N 10) with 10.
    assert (Hpow : 10 ^ Z.of_nat d
                   = 10 ^ Z.of_nat (d - List.length fraction)
                     * 10 ^ Z.of_nat (List.length fraction)).
    { rewrite <- Z.pow_add_r by lia. f_equal. lia. }
    rewrite Hpow. ring.
Qed.

Lemma N_toString_head (n : N) :
  startsWith_minus (N_toString n) = false.
Proof.
  destruct (N_toString_spec n) as (Hd & _ & Hne).
  destruct (N_toString n) as [|c r]; [reflexivity|].
  simpl in Hd. apply andb_true_iff in Hd as [Hc _].
  simpl. apply is_digit_not_minus. exact Hc.
Qed.

Lemma formatUnits_chars_scaled (value : Z) (decimals : nat) :
  exists m k,
    scaled (formatUnits_chars value decimals) = Some (m, k)
    /\ m * 10 ^ Z.of_nat decimals = value * 10 ^ Z.of_nat k.
Proof.
  unfold formatUnits_chars.
  destruct value as [|p|p]; cbn [bigint_toString].
  - change (startsWith_minus [zero_char]) with false. cbv iota.
    destruct (format_digits false [zero_char] decimals) as (m & k & Hs & Hm);
      [reflexivity|discriminate|].
    exists m, k. split; [exact Hs|].
    rewrite Hm. reflexivity.
  - rewrite N_toString_head.
    destruct (N_toString_spec (Npos p)) as (Hd & Hv & Hne).
    destruct (format_digits false _ decimals Hd Hne) as (m & k & Hs & Hm).
    exists m, k. split; [exact Hs|].
    rewrite Hm, Hv. reflexivity.
  - change (startsWith_minus (minus_char :: N_toString (N.pos p))) with true.
    cbv iota. change (slice_from_1 (minus_char :: N_toString (N.pos p)))
      with (N_toString (N.pos p)).
    destruct (N_toString_spec (Npos p)) as (Hd & Hv & Hne).
    destruct (format_digits true _ decimals Hd Hne) as (m & k & Hs & Hm).
    exists (- m), k. split; [exact Hs|].
    rewrite Z.mul_opp_l, Hm, Hv.
    change (Z.of_N (N.pos p)) with (Z.pos p).
    rewrite <- Z.mul_opp_l. reflexivity.
Qed.

(** [formatUnits value decimals] is a numeral that denotes
    [value / 10^decimals]. *)
Lemma formatUnits_denotes (value : Z) (decimals : nat) :
  denotes (formatUnits value decimals)
          (inject_Z value / inject_Z (10 ^ Z.of_nat decimals)).
Proof.
  destruct (formatUnits_chars_scaled value decimals) as (m & k & Hs & Hm).
  exists (Q_of_scaled (m, k)). split.
  - unfold Decimal.value, formatUnits. rewrite of_to_string, Hs. reflexivity.
  - apply Q_of_scaled_eq. exact Hm.
Qed.

(** [value.toString()] is a numeral that denotes [value]. *)
Lemma bigint_toString_denotes (value : Z) :
  denotes (to_string (bigint_toString value)) (inject_Z value).
Proof.
  assert (H : scaled (bigint_toString value) = Some (value, 0%nat)).
  { unfold scaled. destruct value as [|p|p]; cbn [bigint_toString].
    - reflexivity.
    - destruct (N_toString_spec (Npos p)) as (Hd & Hv & Hne).
      pose proof (read_integer false _ Hd Hne) as Hr. cbn [app] in Hr.
      rewrite Hr, app_nil_r, Hv. reflexivity.
    - destruct (N_toString_spec (Npos p)) as (Hd & Hv & Hne).
      pose proof (read_integer true _ Hd Hne) as Hr. cbn [app] in Hr.
      rewrite Hr, app_nil_r, Hv. reflexivity. }
  exists (Q_of_scaled (value, 0%nat)). split.
  - unfold Decimal.value. rewrite of_to_string, H. reflexivity.
  - unfold Q_of_scaled. cbn [fst snd]. change (10 ^ Z.of_nat 0) with 1.
    field.
Qed.

(** ** [parseUnits] on numerals with few enough fraction digits *)

Lemma span_digits_spec (s : chars) :
  forall ds rest, span_digits s = (ds, rest) ->
  s = ds ++ rest /\ forallb is_digit ds = true
  /\ match rest with [] => True | c :: _ => is_digit c = false end.
Proof.
  induction s as [|c s IH]; intros ds rest H.
  - inversion H. repeat split.
  - simpl in H. destruct (is_digit c) eqn:Hc.
    + destruct (span_digits s) as [ds' rest'] eqn:E.
      inversion H; subst. destruct (IH ds' rest eq_refl) as (-> & Hd & Hr).
      repeat split; [simpl; rewrite Hc, Hd; reflexivity|exact Hr].
    + inversion H; subst. repeat split. exact Hc.
Qed.

(** What a numeral looks like: its sign, its integer digits, and either
    nothing more or a dot and its fraction digits. *)
Lemma read_inv (s : chars) (negative : bool) (int frac : chars) :
  read s = Some (negative, int, frac) ->
  forallb is_digit int = true /\ forallb is_digit frac = true
  /\ nonempty int || nonempty frac = true
  /\ exists dotted : bool,
       s = sign_chars negative ++ int ++ (if dotted then dot_char :: frac else [])
       /\ (dotted = false -> frac = []).
Proof.
  unfold read. intros H.
  set (sb := match s with
             | c :: r => if Ascii.eqb c minus_char then (true, r) else (false, s)
             | [] => (false, [])
             end) in H.
  assert (Hs : s = sign_chars (fst sb) ++ snd sb).
  { unfold sb. destruct s as [|c r]; [reflexivity|].
    destruct (Ascii.eqb_spec c minus_char) as [->|]; reflexivity. }
  destruct sb as [neg body]. cbn [fst snd] in Hs.
  destruct (span_digits body) as [ds rest] eqn:E.
  destruct (span_digits_spec body ds rest E) as (Hb & Hd & Hr).
  destruct rest as [|c fr].
  - destruct (nonempty ds) eqn:Hne; [|discriminate].
    inversion H; subst. repeat split; try assumption.
    + rewrite Hne. reflexivity.
    + exists false. split; [reflexivity|reflexivity].
  - destruct (Ascii.eqb_spec c dot_char) as [->|]; [|discriminate].
    destruct (forallb is_digit fr) eqn:Hf; [|discriminate].
    destruct (nonempty ds || nonempty fr) eqn:Hne; [|discriminate].
    cbn [andb] in H. inversion H; subst. repeat split; try assumption.
    exists true. split; [reflexivity|discriminate].
Qed.

Lemma drop_digits_app (ds rest : chars) :
  forallb is_digit ds = true ->
  match rest with [] => True | c :: _ => is_digit c = false end ->
  drop_digits (ds ++ rest) = rest.
Proof.
  intros Hd Hr. induction ds as [|c ds IH].
  - destruct rest as [|c r]; [reflexivity|]. simpl. rewrite Hr. reflexivity.
  - simpl in Hd. apply andb_true_iff in Hd as [Hc Hd].
    simpl. rewrite Hc. apply IH. exact Hd.
Qed.

Lemma regex_numeral (negative dotted : bool) (int frac : chars) :
  forallb is_digit int = true -> forallb is_digit frac = true ->
  decimal_regex_test
    (sign_chars negative ++ int ++ (if dotted then dot_char :: frac else []))
  = true.
Proof.
  intros Hi Hf.
  set (tail := if dotted then dot_char :: frac else []).
  unfold decimal_regex_test. cbv zeta.
  assert (Htail : match tail with [] => True | c :: _ => is_digit c = false end)
    by (unfold tail; destruct dotted; [reflexivity|exact I]).
  assert (Hfinish :
    forallb is_digit
      match tail with
      | c :: r => if Ascii.eqb c dot_char then r else tail
      | [] => tail
      end = true).
  { unfold tail. destruct dotted; [|reflexivity].
    change (Ascii.eqb dot_char dot_char) with true. exact Hf. }
  destruct negative; cbn [sign_chars app].
  - change (Ascii.eqb minus_char minus_char) with true. cbv iota.
    rewrite drop_digits_app by assumption. exact Hfinish.
  - destruct int as [|c int]; cbn [app].
    + destruct dotted; unfold tail; [|reflexivity].
      change (Ascii.eqb dot_char minus_char) with false. cbv iota.
      change (drop_digits (dot_char :: frac)) with (dot_char :: frac).
      change (Ascii.eqb dot_char dot_char) with true. exact Hf.
    + pose proof Hi as Hi'. simpl in Hi'. apply andb_true_iff in Hi' as [Hc _].
      rewrite (is_digit_not_minus c Hc).
      change (c :: int ++ tail) with ((c :: int) ++ tail).
      rewrite drop_digits_app by assumption. exact Hfinish.
Qed.

Lemma split_dot_digits (s : chars) :
  forallb (fun c => negb (Ascii.eqb c dot_char)) s = true -> split_dot s = [s].
Proof.
  induction s as [|c s IH]; intros H; [reflexivity|].
  simpl in H. apply andb_true_iff in H as [Hc Hs].
  simpl. apply negb_true_iff in Hc. rewrite Hc, (IH Hs). reflexivity.
Qed.

Lemma split_dot_app (a b : chars) :
  forallb (fun c => negb (Ascii.eqb c dot_char)) a = true ->
  split_dot (a ++ dot_char :: b) = a :: split_dot b.
Proof.
  induction a as [|c a IH]; intros H.
  - reflexivity.
  - simpl in H. apply andb_true_iff in H as [Hc Ha].
    cbn [app split_dot]. apply negb_true_iff in Hc. rewrite Hc, (IH Ha).
    reflexivity.
Qed.

Lemma digits_no_dot (s : chars) :
  forallb is_digit s = true ->
  forallb (fun c => negb (Ascii.eqb c dot_char)) s = true.
Proof.
  induction s as [|c s IH]; intros H; [reflexivity|].
  simpl in H. apply andb_true_iff in H as [Hc Hs].
  simpl. rewrite (is_digit_not_dot c Hc), (IH Hs). reflexivity.
Qed.

Lemma sign_int_no_dot (negative : bool) (int : chars) :
  forallb is_digit int = true ->
  forallb (fun c => negb (Ascii.eqb c dot_char)) (sign_chars negative ++ int)
  = true.
Proof.
  intros H. rewrite forallb_app, (digits_no_dot int H).
  destruct negative; reflexivity.
Qed.

Lemma split_dot_numeral (negative dotted : bool) (int frac : chars) :
  forallb is_digit int = true -> forallb is_digit frac = true ->
  split_dot
    (sign_chars negative ++ int ++ (if dotted then dot_char :: frac else []))
  = (sign_chars negative ++ int) :: (if dotted then [frac] else []).
Proof.
  intros Hi Hf. destruct dotted.
  - rewrite app_assoc, split_dot_app by (apply sign_int_no_dot; exact Hi).
    rewrite split_dot_digits by (apply digits_no_dot; exact Hf). reflexivity.
  - rewrite app_nil_r. apply split_dot_digits, sign_int_no_dot, Hi.
Qed.

Lemma startsWith_minus_sign (negative : bool) (body : chars) :
  forallb is_digit body = true ->
  startsWith_minus (sign_chars negative ++ body) = negative
  /\ (if negative then slice_from_1 (sign_chars negative ++ body)
      else sign_chars negative ++ body) = body.
Proof.
  intros H. destruct negative; cbn [sign_chars app].
  - split; reflexivity.
  - split; [|reflexivity].
    destruct body as [|c r]; [reflexivity|].
    simpl in H. apply andb_true_iff in H as [Hc _].
    simpl. apply is_digit_not_minus. exact Hc.
Qed.

Lemma BigInt_of_numeral (negative : bool) (body : chars) :
  forallb is_digit body = true -> (negative = true -> body <> []) ->
  BigInt_of_chars (sign_chars negative ++ body)
  = Some (if negative then - Z.of_N (digits_value body)
          else Z.of_N (digits_value body)).
Proof.
  intros Hd Hne. unfold BigInt_of_chars.
  destruct (startsWith_minus_sign negative body Hd) as [-> Hbody].
  destruct negative.
  - rewrite Hbody, Hd. destruct body; [exfalso; apply Hne; reflexivity|].
    reflexivity.
  - rewrite Hbody, Hd. reflexivity.
Qed.

(** With no more fraction digits than decimals, rounding off only pads. *)
Lemma round_off_short (int frac : chars) (d : nat) :
  (List.length frac <= d)%nat ->
  round_off int (strip_trailing_zeros frac) d
  = Some (int, if (d =? 0)%nat then []
               else padEnd0 d (strip_trailing_zeros frac)).
Proof.
  intros Hlen. unfold round_off.
  pose proof (strip_trailing_zeros_length frac) as Hfl.
  destruct d as [|d'].
  - assert (frac = []) by (destruct frac; [reflexivity|simpl in Hlen; lia]).
    subst frac. reflexivity.
  - cbn [Nat.eqb].
    replace (S d' <? List.length (strip_trailing_zeros frac))%nat with false
      by (symmetry; apply Nat.ltb_ge; lia).
    reflexivity.
Qed.

Lemma parseUnits_chars_numeral
    (negative dotted : bool) (int frac : chars) (d : nat) :
  forallb is_digit int = true -> forallb is_digit frac = true ->
  nonempty int || nonempty frac = true ->
  (dotted = false -> frac = []) ->
  (List.length frac <= d)%nat ->
  parseUnits_chars
    (sign_chars negative ++ int ++ (if dotted then dot_char :: frac else [])) d
  = inr (let m := Z.of_N (digits_value int * 10 ^ N.of_nat d
                          + digits_value frac
                            * 10 ^ N.of_nat (d - List.length frac)) in
         if negative then - m else m).
Proof.
  intros Hi Hf Hne Hdot Hlen.
  unfold parseUnits_chars.
  rewrite regex_numeral by assumption. cbn [negb]. cbv zeta.
  rewrite split_dot_numeral by assumption. cbn [hd].
  destruct (startsWith_minus_sign negative int Hi) as [Hneg Hint].
  rewrite Hneg, Hint.
  match goal with
  | |- context [round_off int (strip_trailing_zeros ?x) d] =>
      replace (strip_trailing_zeros x) with (strip_trailing_zeros frac)
        by (destruct dotted; [reflexivity|rewrite (Hdot eq_refl); reflexivity])
  end.
  rewrite round_off_short by assumption.
  set (f := strip_trailing_zeros frac).
  assert (Hfd : forallb is_digit f = true)
    by (apply strip_trailing_zeros_digits; exact Hf).
  assert (Hfl : (List.length f <= List.length frac)%nat)
    by apply strip_trailing_zeros_length.
  assert (Hfv : digits_value frac
                = (digits_value f
                   * 10 ^ N.of_nat (List.length frac - List.length f))%N)
    by apply strip_trailing_zeros_value.
  change (if negative then [minus_char] else []) with (sign_chars negative).
  destruct d as [|d'].
  - (* decimals === 0: there is no fraction digit at all *)
    assert (frac = []) by (destruct frac; [reflexivity|simpl in Hlen; lia]).
    subst frac. cbn [Nat.eqb]. rewrite app_nil_r.
    rewrite BigInt_of_numeral; [|assumption|].
    + rewrite digits_value_nil. cbn [List.length Nat.sub N.of_nat].
      replace (digits_value int * 10 ^ 0 + 0 * 10 ^ 0)%N
        with (digits_value int) by (rewrite N.pow_0_r; lia).
      reflexivity.
    + intros _ ->. simpl in Hne. discriminate.
  - cbn [Nat.eqb].
    rewrite BigInt_of_numeral.
    + unfold padEnd0.
      rewrite !digits_value_app, digits_value_zeros.
      rewrite !length_app, repeat_length.
      replace (List.length f + (S d' - List.length f))%nat with (S d') by lia.
      rewrite Hfv.
      replace (digits_value f * 10 ^ N.of_nat (List.length frac - List.length f)
               * 10 ^ N.of_nat (S d' - List.length frac))%N
        with (digits_value f * 10 ^ N.of_nat (S d' - List.length f))%N.
      * replace (digits_value int * 10 ^ N.of_nat (S d')
                 + (digits_value f * 10 ^ N.of_nat (S d' - List.length f) + 0))%N
          with (digits_value int * 10 ^ N.of_nat (S d')
                + digits_value f * 10 ^ N.of_nat (S d' - List.length f))%N
          by lia.
        reflexivity.
      * rewrite <- N.mul_assoc, <- N.pow_add_r. do 2 f_equal. lia.
    + rewrite forallb_app, Hi. unfold padEnd0.
      rewrite forallb_app, Hfd, forallb_digit_zeros. reflexivity.
    + intros _ E. apply (f_equal (@List.length ascii)) in E.
      unfold padEnd0 in E. rewrite !length_app, repeat_length in E.
      change (List.length (@nil ascii)) with 0%nat in E. lia.
Qed.

(** A numeral with at most [d] fraction digits is converted without
    rounding: the result times [10^k] is the numeral's [m] times [10^d]. *)
Lemma parseUnits_chars_scaled (s : chars) (d : nat) (m : Z) (k : nat) :
  scaled s = Some (m, k) -> (k <= d)%nat ->
  exists raw, parseUnits_chars s d = inr raw
              /\ raw * 10 ^ Z.of_nat k = m * 10 ^ Z.of_nat d.
Proof.
  unfold scaled. intros H Hk.
  destruct (read s) as [[[negative int] frac]|] eqn:Hr; [|discriminate].
  inversion H; subst m k; clear H.
  destruct (read_inv s negative int frac Hr)
    as (Hi & Hf & Hne & dotted & -> & Hdot).
  rewrite (parseUnits_chars_numeral negative dotted int frac d)
    by assumption.
  eexists. split; [reflexivity|].
  cbv zeta.
  assert (Hpow : 10 ^ Z.of_nat d
                 = 10 ^ Z.of_nat (d - List.length frac)
                   * 10 ^ Z.of_nat (List.length frac)).
  { rewrite <- Z.pow_add_r by lia. f_equal. lia. }
  rewrite digits_value_app.
  rewrite !N2Z.inj_add, !N2Z.inj_mul, !N2Z.inj_pow, !nat_N_Z.
  change (Z.of_N 10) with 10.
  destruct negative; rewrite Hpow; ring.
Qed.

Lemma denotes_Qeq (text : string) (q q' : Q) :
  denotes text q -> (q == q')%Q -> denotes text q'.
Proof.
  intros (v & Hv & Hq) E. exists v. split; [exact Hv|].
  rewrite Hq. exact E.
Qed.

(** X27.  A decimal amount with at most [D] digits after the dot is
    converted exactly, [parseUnits A D] being the amount times [10^D], and
    formatting the result back with [D] decimals gives a numeral of the
    same value. *)
Theorem parseUnits_exact_and_roundtrip (A : string) (D : nat) (q : Q) :
  denotes A q ->
  (fraction_digits A <= D)%nat ->
  exists raw,
    parseUnits A D = inr raw
    /\ (inject_Z raw == q * inject_Z (10 ^ Z.of_nat D))%Q
    /\ denotes (formatUnits raw D) q.
Proof.
  intros (v & Hv & Hq) Hdigits.
  unfold Decimal.value in Hv.
  destruct (scaled (of_string A)) as [[m k]|] eqn:Hs; [|discriminate].
  cbn [option_map] in Hv. inversion Hv; subst v; clear Hv.
  assert (Hk : fraction_digits A = k).
  { unfold fraction_digits. unfold scaled in Hs.
    destruct (read (of_string A)) as [[[neg int] frac]|]; [|discriminate].
    inversion Hs. reflexivity. }
  rewrite Hk in Hdigits.
  destruct (parseUnits_chars_scaled _ D m k Hs Hdigits) as (raw & Hraw & Heq).
  assert (Hv : (Q_of_scaled (m, k)
                == inject_Z raw / inject_Z (10 ^ Z.of_nat D))%Q)
    by (apply Q_of_scaled_eq; symmetry; exact Heq).
  assert (HD : ~ (inject_Z (10 ^ Z.of_nat D) == 0)%Q).
  { assert (0 < 10 ^ Z.of_nat D) by (apply Z.pow_pos_nonneg; lia).
    intros E. unfold Qeq in E. cbn [Qnum Qden inject_Z] in E. lia. }
  exists raw. repeat split.
  - exact Hraw.
  - rewrite <- Hq, Hv. field. exact HD.
  - apply denotes_Qeq with (q := (inject_Z raw / inject_Z (10 ^ Z.of_nat D))%Q).
    + apply formatUnits_denotes.
    + rewrite <- Hq, Hv. reflexivity.
Qed.


(** X27 on an amount: 1.5 with six decimals. *)
Lemma parseUnits_exact_and_roundtrip_witness :
  denotes "1.5" (3 # 2)
  /\ (fraction_digits "1.5" <= 6)%nat
  /\ exists raw,
       parseUnits "1.5" 6 = inr raw
       /\ (inject_Z raw == (3 # 2) * inject_Z (10 ^ Z.of_nat 6))%Q
       /\ denotes (formatUnits raw 6) (3 # 2).
Proof.
  assert (H : denotes "1.5" (3 # 2)).
  { exists (Q_of_scaled (15, 1%nat)). split; reflexivity. }
  assert (Hd : (fraction_digits "1.5" <= 6)%nat) by (vm_compute; lia).
  split; [exact H|]. split; [exact Hd|].
  exact (parseUnits_exact_and_roundtrip "1.5" 6 (3 # 2) H Hd).
Defined.

(** The amount ["0"] is zero in every number of decimals. *)
Lemma parseUnits_zero (D : nat) : parseUnits "0" D = inr 0.
Proof.
  destruct (parseUnits_chars_scaled (of_string "0") D 0 0%nat eq_refl)
    as (raw & Hraw & Heq); [lia|].
  unfold parseUnits. rewrite Hraw. f_equal.
  change (10 ^ Z.of_nat 0) with 1 in Heq. lia.
Qed.

(** ** [parseUnits] undoes [formatUnits] *)

(** The text [formatUnits] builds has at most [d] digits after the dot. *)
Lemma format_digits_short (negative : bool) (ds : chars) (d : nat) :
  forallb is_digit ds = true -> ds <> [] ->
  let display := padStart0 d ds in
  let integer := slice 0 (List.length display - d) display in
  let fraction :=
    strip_trailing_zeros (slice_from (List.length display - d) display) in
  forall m k,
    scaled ((if negative then [minus_char] else [])
              ++ (match integer with [] => [zero_char] | _ => integer end)
              ++ (match fraction with [] => [] | _ => dot_char :: fraction end))
    = Some (m, k) ->
    (k <= d)%nat.
Proof.
  intros Hd Hne display integer fraction m k.
  destruct (padStart0_spec d ds Hd) as (Hdd & _ & Hlen & _).
  fold display in Hdd, Hlen.
  set (n := (List.length display - d)%nat) in *.
  assert (Hsplit : display = firstn n display ++ skipn n display)
    by (symmetry; apply firstn_skipn).
  assert (HI : integer = firstn n display).
  { unfold integer, slice. rewrite Nat.sub_0_r. reflexivity. }
  set (F := skipn n display) in *.
  assert (HF : fraction = strip_trailing_zeros F) by reflexivity.
  assert (HFlen : List.length F = d).
  { unfold F. rewrite length_skipn. unfold n. lia. }
  assert (Hboth : forallb is_digit (firstn n display) = true
                  /\ forallb is_digit F = true).
  { rewrite Hsplit, forallb_app in Hdd. apply andb_true_iff in Hdd. exact Hdd. }
  destruct Hboth as [HdI HdF].
  assert (HdF' : forallb is_digit fraction = true)
    by (rewrite HF; apply strip_trailing_zeros_digits; exact HdF).
  assert (HlenF' : (List.length fraction <= d)%nat).
  { rewrite HF, <- HFlen. apply strip_trailing_zeros_length. }
  set (I' := match integer with [] => [zero_char] | _ => integer end).
  assert (HI' : forallb is_digit I' = true /\ I' <> []).
  { unfold I'. destruct integer as [|c r] eqn:E.
    - split; [reflexivity|discriminate].
    - split; [rewrite HI; assumption|discriminate]. }
  destruct HI' as (HdI' & HneI').
  unfold scaled.
  destruct fraction as [|c r] eqn:E.
  - rewrite app_nil_r. rewrite read_integer by assumption.
    intros H. inversion H. cbn. lia.
  - rewrite read_fraction; try assumption; [|apply orb_true_r].
    intros H. inversion H. exact HlenF'.
Qed.

Lemma formatUnits_chars_short (value : Z) (decimals : nat) (m : Z) (k : nat) :
  scaled (formatUnits_chars value decimals) = Some (m, k) ->
  (k <= decimals)%nat.
Proof.
  unfold formatUnits_chars.
  destruct value as [|p|p]; cbn [bigint_toString].
  - change (startsWith_minus [zero_char]) with false. cbv iota.
    apply (format_digits_short false [zero_char] decimals);
      [reflexivity|discriminate].
  - rewrite N_toString_head.
    destruct (N_toString_spec (Npos p)) as (Hd & _ & Hne).
    apply (format_digits_short false _ decimals Hd Hne).
  - change (startsWith_minus (minus_char :: N_toString (N.pos p))) with true.
    cbv iota. change (slice_from_1 (minus_char :: N_toString (N.pos p)))
      with (N_toString (N.pos p)).
    destruct (N_toString_spec (Npos p)) as (Hd & _ & Hne).
    apply (format_digits_short true _ decimals Hd Hne).
Qed.

(** X25.  Formatting a raw amount and converting the text back, with the
    same number of decimals, gives the raw amount again, for every
    integer and every number of decimals: the text a balance or an
    allowance is reported in, given back as an amount, is that balance or
    allowance to the last unit. *)
Theorem parseUnits_formatUnits (value : Z) (decimals : nat) :
  parseUnits (formatUnits value decimals) decimals = inr value.
Proof.
  destruct (formatUnits_chars_scaled value decimals) as (m & k & Hs & Hm).
  pose proof (formatUnits_chars_short value decimals m k Hs) as Hk.
  destruct (parseUnits_chars_scaled _ decimals m k Hs Hk) as (raw & Hp & Hraw).
  unfold parseUnits, formatUnits. rewrite of_to_string, Hp.
  f_equal.
  assert (Hpos : 0 < 10 ^ Z.of_nat k) by (apply Z.pow_pos_nonneg; lia).
  rewrite Hm in Hraw. apply Z.mul_cancel_r in Hraw; [exact Hraw|lia].
Qed.

End UnitFacts.

(* ===================================================================== *)
(** * Facts about validation *)
(* ===================================================================== *)

Module ZodFacts.
Import Js Zod Schemas.


(** Every issue of a declared field is among the issues of the object. *)
Lemma parse_shape_issue (shape : ZodObject) (data : list (string * JsValue))
    (key : string) (t : ZodType) (issues : list ZodIssue) :
  In (key, t) shape ->
  parse t [Key key] (get key data) = inl issues ->
  exists all, parse_shape shape data = inl all /\ incl issues all.
Proof.
  induction shape as [|[k t'] shape IH]; intros Hin Hp; [contradiction|].
  cbn [parse_shape].
  destruct Hin as [E|Hin].
  - inversion E; subst k t'. rewrite Hp.
    destruct (parse_shape shape data) as [es|props].
    + exists (issues ++ es). split; [reflexivity|]. apply incl_appl, incl_refl.
    + exists issues. split; [reflexivity|]. apply incl_refl.
  - destruct (IH Hin Hp) as (all & -> & Hincl).
    destruct (parse t' [Key k] (get k data)) as [e|v].
    + exists (e ++ all). split; [reflexivity|]. apply incl_appr, Hincl.
    + exists all. split; [reflexivity|exact Hincl].
Qed.

Lemma get_cons (k key : string) (v : JsValue) (props : list (string * JsValue)) :
  get k ((key, v) :: props) = if String.eqb key k then v else get k props.
Proof.
  unfold get. cbn [own_property]. destruct (String.eqb key k); reflexivity.
Qed.

(** The parsed data has declared keys only. *)
Lemma parse_shape_keys (shape : ZodObject) (data props : list (string * JsValue))
    (k : string) :
  parse_shape shape data = inr props ->
  ~ In k (map fst shape) -> own_property k props = None.
Proof.
  revert props. induction shape as [|[key t] shape IH]; intros props H Hk.
  - inversion H. reflexivity.
  - cbn [parse_shape] in H.
    destruct (parse t [Key key] (get key data)) as [e|v];
      destruct (parse_shape shape data) as [es|ps]; try discriminate.
    assert (Hps : own_property k ps = None)
      by (apply IH; [reflexivity|intros Hin; apply Hk; right; exact Hin]).
    assert (Hne : String.eqb key k = false).
    { apply String.eqb_neq. intros ->. apply Hk. left. reflexivity. }
    destruct v; try (inversion H; subst props; cbn [own_property];
                     rewrite Hne; exact Hps).
    destruct (has_key key data); inversion H; subst props;
      [cbn [own_property]; rewrite Hne|]; exact Hps.
Qed.

(** What the parsed data holds under a declared key is the parsed value
    of that key. *)
Lemma parse_shape_get (shape : ZodObject) (data : list (string * JsValue))
    (key : string) (t : ZodType) (props : list (string * JsValue))
    (v : JsValue) :
  NoDup (map fst shape) ->
  In (key, t) shape ->
  parse_shape shape data = inr props ->
  parse t [Key key] (get key data) = inr v ->
  get key props = v.
Proof.
  revert props. induction shape as [|[k t'] shape IH];
    intros props Hnd Hin H Hp; [contradiction|].
  cbn [map fst] in Hnd. inversion Hnd as [|? ? Hnotin Hnd']; subst.
  cbn [parse_shape] in H.
  destruct Hin as [E|Hin].
  - inversion E; subst k t'. rewrite Hp in H.
    destruct (parse_shape shape data) as [es|ps] eqn:Hps; try discriminate.
    assert (Hnone : own_property key ps = None)
      by (apply (parse_shape_keys shape data); assumption).
    destruct v; try (inversion H; subst props; rewrite get_cons,
                     String.eqb_refl; reflexivity).
    destruct (has_key key data); inversion H; subst props.
    + rewrite get_cons, String.eqb_refl. reflexivity.
    + unfold get. rewrite Hnone. reflexivity.
  - assert (Hne : String.eqb k key = false).
    { apply String.eqb_neq. intros ->. apply Hnotin.
      apply (in_map fst) in Hin. exact Hin. }
    destruct (parse t' [Key k] (get k data)) as [e|v'];
      destruct (parse_shape shape data) as [es|ps] eqn:Hps; try discriminate.
    assert (Hgoal : get key ps = v) by (apply IH; auto).
    destruct v'; try (inversion H; subst props; rewrite get_cons, Hne;
                      exact Hgoal).
    destruct (has_key k data); inversion H; subst props;
      [rewrite get_cons, Hne|]; exact Hgoal.
Qed.

(** Two argument objects that differ under the key [k0] only, where the
    value under [k0] parses in both: they fail with the same issues, or
    the parsed data differ under [k0] only. *)
Lemma parse_shape_differ (shape : ZodObject)
    (d1 d2 : list (string * JsValue)) (k0 : string) (a1 a2 : JsValue) :
  (forall k, k <> k0 -> own_property k d1 = own_property k d2) ->
  (forall t, In (k0, t) shape ->
             parse t [Key k0] (get k0 d1) = inr a1
             /\ parse t [Key k0] (get k0 d2) = inr a2) ->
  match parse_shape shape d1, parse_shape shape d2 with
  | inl e1, inl e2 => e1 = e2
  | inr p1, inr p2 => forall k, k <> k0 -> get k p1 = get k p2
  | _, _ => False
  end.
Proof.
  intros Hsame. induction shape as [|[key t] shape IH]; intros Hk0.
  - cbn [parse_shape]. reflexivity.
  - assert (IH' := IH (fun t Ht => Hk0 t (or_intror Ht))). clear IH.
    cbn [parse_shape].
    destruct (String.eqb_spec key k0) as [->|Hne].
    + destruct (Hk0 t (or_introl eq_refl)) as [-> ->].
      destruct (parse_shape shape d1) as [e1|p1];
        destruct (parse_shape shape d2) as [e2|p2]; try contradiction.
      * exact IH'.
      * assert (Hcons : forall (x y : JsValue) k, k <> k0 ->
                  get k ((k0, x) :: p1) = get k ((k0, y) :: p2)).
        { intros x y k Hk. rewrite !get_cons.
          destruct (String.eqb_spec k0 k); [congruence|apply IH'; exact Hk]. }
        assert (Hl : forall (x : JsValue) k, k <> k0 ->
                  get k ((k0, x) :: p1) = get k p2).
        { intros x k Hk. rewrite get_cons.
          destruct (String.eqb_spec k0 k); [congruence|apply IH'; exact Hk]. }
        assert (Hr : forall (y : JsValue) k, k <> k0 ->
                  get k p1 = get k ((k0, y) :: p2)).
        { intros y k Hk. rewrite get_cons.
          destruct (String.eqb_spec k0 k); [congruence|apply IH'; exact Hk]. }
        destruct a1, a2;
          repeat match goal with
                 | |- context [has_key k0 ?d] => destruct (has_key k0 d)
                 end;
          first [apply Hcons | apply Hl | apply Hr | exact IH'].
    + assert (Hget : get key d1 = get key d2)
        by (unfold get; rewrite (Hsame key Hne); reflexivity).
      assert (Hhas : has_key key d1 = has_key key d2)
        by (unfold has_key; rewrite (Hsame key Hne); reflexivity).
      rewrite Hget, Hhas.
      destruct (parse t [Key key] (get key d2)) as [e|v];
        destruct (parse_shape shape d1) as [e1|p1];
        destruct (parse_shape shape d2) as [e2|p2]; try contradiction;
        try (rewrite IH'; reflexivity); try reflexivity.
      assert (Hcons : forall k, k <> k0 ->
                get k ((key, v) :: p1) = get k ((key, v) :: p2)).
      { intros k Hk. rewrite !get_cons.
        destruct (String.eqb key k); [reflexivity|apply IH'; exact Hk]. }
      destruct v; try exact Hcons.
      destruct (has_key key d2); [exact Hcons|exact IH'].
Qed.

(** Where the object parses, every declared field parses. *)
Lemma parse_shape_field (shape : ZodObject)
    (data props : list (string * JsValue)) (key : string) (t : ZodType) :
  parse_shape shape data = inr props ->
  In (key, t) shape ->
  exists v, parse t [Key key] (get key data) = inr v.
Proof.
  revert props. induction shape as [|[k t'] shape IH]; intros props H Hin;
    [contradiction|].
  cbn [parse_shape] in H.
  destruct (parse t' [Key k] (get k data)) as [e|v] eqn:Hp;
    destruct (parse_shape shape data) as [es|ps]; try discriminate.
  destruct Hin as [E|Hin].
  - inversion E; subst k t'. exists v. exact Hp.
  - exact (IH ps eq_refl Hin).
Qed.

Lemma parse_items_issues
    (parse_item : list PathSegment -> JsValue -> ParseResult)
    (path : list PathSegment) (i : nat) (items : list JsValue)
    (issues : list ZodIssue) :
  (forall p v e, parse_item p v = inl e -> e <> []) ->
  parse_items parse_item path i items = inl issues -> issues <> [].
Proof.
  intros Hitem. revert i issues.
  induction items as [|x rest IH]; intros i issues H; [discriminate H|].
  cbn [parse_items] in H.
  destruct (parse_item (path ++ [Index i]) x) as [e|v] eqn:Hx;
    destruct (parse_items parse_item path (S i) rest) as [es|vs] eqn:Hrest;
    inversion H; subst issues.
  - intros E. apply app_eq_nil in E. exact (Hitem _ _ _ Hx (proj1 E)).
  - exact (Hitem _ _ _ Hx).
  - exact (IH _ _ Hrest).
Qed.

(** A parse that fails raises an issue. *)
Lemma parse_issues (t : ZodType) (path : list PathSegment) (input : JsValue)
    (issues : list ZodIssue) :
  parse t path input = inl issues -> issues <> [].
Proof.
  revert path input issues.
  induction t as [| |values|element IH|first IH1 second IH2|inner IH
                  |inner IH defaultValue];
    intros path input issues H; cbn [parse] in H.
  - destruct input; inversion H; discriminate.
  - discriminate H.
  - destruct input; try (inversion H; discriminate).
    destruct (existsb (String.eqb s) values); inversion H; discriminate.
  - destruct input; try (inversion H; discriminate).
    destruct (parse_items (parse element) path 0 items) as [es|vs] eqn:E;
      inversion H; subst issues.
    exact (parse_items_issues _ _ _ _ _ IH E).
  - destruct (parse first path input); [|discriminate H].
    destruct (parse second path input); inversion H; discriminate.
  - destruct input; try exact (IH _ _ _ H). discriminate H.
  - destruct input; exact (IH _ _ _ H).
Qed.

(** The issues of an object are the issues of its fields, in the order of
    the shape. *)
Lemma parse_shape_issues (shape : ZodObject) (data : list (string * JsValue)) :
  match parse_shape shape data with
  | inl issues =>
      issues = flat_map (issues_of_field data) shape /\ issues <> []
  | inr _ => flat_map (issues_of_field data) shape = []
  end.
Proof.
  induction shape as [|[key t] shape IH]; [reflexivity|].
  cbn [parse_shape flat_map]. unfold issues_of_field at 1 3. cbn [fst snd].
  destruct (parse t [Key key] (get key data)) as [e|v] eqn:Hp;
    destruct (parse_shape shape data) as [es|ps].
  - destruct IH as [<- _]. split; [reflexivity|].
    intros E. apply app_eq_nil in E. exact (parse_issues _ _ _ _ Hp (proj1 E)).
  - rewrite IH, app_nil_r. split; [reflexivity|exact (parse_issues _ _ _ _ Hp)].
  - exact IH.
  - destruct v; try exact IH. destruct (has_key key data); exact IH.
Qed.

Lemma CallContract_keys_NoDup : NoDup (map fst CallContractArgsSchema).
Proof.
  repeat constructor; simpl; intuition discriminate.
Qed.

End ZodFacts.

(* ===================================================================== *)
(** * Facts about the configuration *)
(* ===================================================================== *)

Module ClientFacts.
Import Server.

(** The RPC url is the first process argument if there is one, else the
    value of [RPC_URL] if it is set, else ["http://127.0.0.1:8545"]. *)
Lemma rpcUrl_resolution (arg : string) (args : list string)
    (env : option string) (url : string) (key : option string) :
  rpcUrl {| cliArgs := arg :: args; env_RPC_URL := env;
            env_PRIVATE_KEY := key |} = arg
  /\ rpcUrl {| cliArgs := []; env_RPC_URL := Some url;
               env_PRIVATE_KEY := key |} = url
  /\ rpcUrl {| cliArgs := []; env_RPC_URL := None;
               env_PRIVATE_KEY := key |} = "http://127.0.0.1:8545"%string.
Proof. repeat split. Qed.

End ClientFacts.

(* ===================================================================== *)
(** * Facts about the server *)
(* ===================================================================== *)

Module ServerFacts.
Import JsString Js Zod Schemas Server ZodFacts.

Section WithCollaborators.

Variable Account : Type.
Variable World : Type.
Variable privateKeyToAccount : option string -> Exn + Account.
Variable node : Node Account World.
Variable JSON_parse : string -> Exn + JsValue.
Variable JSON_stringify : JsValue -> string.
Variable fault : Fault -> Exn.
Variable ZodError_message : list ZodIssue -> string.
Variable String_of : JsValue -> string.
Variable proc : Process.

Local Abbreviation Runtime := (Server.Runtime Account World).
Local Abbreviation handler :=
  (Server.handler Account World privateKeyToAccount node JSON_parse
     JSON_stringify fault proc).
Local Abbreviation handleTool :=
  (Server.handleTool Account World privateKeyToAccount node JSON_parse
     JSON_stringify fault proc).
Local Abbreviation callTool :=
  (Server.callTool Account World privateKeyToAccount node JSON_parse
     JSON_stringify fault ZodError_message String_of proc).
Local Abbreviation serve :=
  (Server.serve Account World privateKeyToAccount node JSON_parse
     JSON_stringify fault ZodError_message String_of proc).
Local Abbreviation getPublicClient := (Server.getPublicClient Account World proc).
Local Abbreviation message_of := (Server.message_of ZodError_message String_of).

(** ** Validation comes first *)

(** A handler whose arguments do not parse throws the [ZodError] and
    leaves the state as it was. *)
Lemma handler_invalid (t : Tool) (raw : JsValue) (issues : list ZodIssue)
    (rt : Runtime) :
  t <> get_rpc_url ->
  safeParse (argsSchema t) raw = inl issues ->
  handler t raw rt = (inl (ZodError issues), rt).
Proof.
  intros Ht H.
  destruct t; try (exfalso; apply Ht; reflexivity);
    cbn [Server.handler argsSchema] in *;
    unfold handleGetEthBalance, handleGetErc20Balance, handleSendEth,
      handleCallContract, handleErc20Transfer, handleErc20Approve,
      handleErc20Allowance, bind, validated;
    rewrite H; reflexivity.
Qed.

(** A handler sees its arguments through the parsed data only. *)
Lemma handler_parsed (t : Tool) (raw1 raw2 : JsValue) (rt : Runtime) :
  safeParse (argsSchema t) raw1 = safeParse (argsSchema t) raw2 ->
  handler t raw1 rt = handler t raw2 rt.
Proof.
  intros H.
  destruct t; cbn [Server.handler argsSchema] in *;
    unfold handleGetEthBalance, handleGetErc20Balance, handleSendEth,
      handleCallContract, handleErc20Transfer, handleErc20Approve,
      handleErc20Allowance, bind, validated;
    try rewrite H; reflexivity.
Qed.

(** ** Running a handler *)

Lemma getPublicClient_spec (rt : Runtime) :
  exists c rt',
    getPublicClient rt = (inr c, rt')
    /\ _publicClient rt' = Some c
    /\ world rt' = world rt
    /\ calls_of (trace rt') = calls_of (trace rt).
Proof.
  unfold Server.getPublicClient.
  destruct (_publicClient rt) as [c|] eqn:E.
  - exists c, rt. repeat split. exact E.
  - eexists _, _. repeat split. cbn [trace].
    induction (trace rt) as [|[]]; simpl; congruence.
Qed.

Lemma calls_of_app (tr1 tr2 : list (Event Account)) :
  calls_of (tr1 ++ tr2) = calls_of tr1 ++ calls_of tr2.
Proof.
  induction tr1 as [|[] tr1 IH]; simpl; congruence.
Qed.

(** C5.  [get_eth_balance] with unit ["wei"], ["gwei"] or ["ether"], on a
    node that reports the balance [B], returns one text: a numeral whose
    value is exactly [B], [B / 10^9] or [B / 10^18]; for ["wei"] it is the
    decimal string of [B], and for 10000 * 10^18 wei in ["ether"] it is
    ["10000"]. *)
Theorem get_eth_balance_exact (address : string) (B : Z) (rt : Runtime)
    (unit : string) (decimals : nat) :
  (forall w c,
      fst (answer_bigint node w c (GetBalance (JString address))) = inr B) ->
  In (unit, decimals) [("wei", 0); ("gwei", 9); ("ether", 18)]%string%nat ->
  exists text,
    fst (handler get_eth_balance
           (JObject [("address", JString address);
                     ("unit", JString unit)]%string)
           rt)
    = inr (text_response text)
    /\ Decimal.denotes text (inject_Z B / inject_Z (10 ^ Z.of_nat decimals))
    /\ (unit = "wei"%string -> text = to_string (bigint_toString B))
    /\ (unit = "ether"%string -> B = 10000 * 10 ^ 18 ->
        text = "10000"%string).
Proof.
  intros Hnode Hunit.
  destruct (getPublicClient_spec rt) as (c & rt1 & Hc & _).
  specialize (Hnode (world rt1) c).
  assert (Hrun : forall u,
    In u ["wei"; "gwei"; "ether"]%string ->
    fst (handler get_eth_balance
           (JObject [("address", JString address);
                     ("unit", JString u)]%string) rt)
    = inr (text_response
             (if strict_eq_string (JString u) "wei"
              then to_string (bigint_toString B)
              else if strict_eq_string (JString u) "gwei"
                   then Viem.formatUnits B 9
                   else Viem.formatEther B))).
  { intros u Hu.
    assert (Hparse : safeParse GetEthBalanceArgsSchema
                       (JObject [("address", JString address);
                                 ("unit", JString u)]%string)
                     = inr [("address", JString address);
                            ("unit", JString u)]%string).
    { destruct Hu as [<-|[<-|[<-|[]]]]; reflexivity. }
    cbn [Server.handler]. unfold handleGetEthBalance, bind, validated.
    rewrite Hparse. unfold ret at 1. rewrite Hc.
    unfold call.
    change (get "address" [("address", JString address); ("unit", JString u)]%string)
      with (JString address).
    destruct (answer_bigint node (world rt1) c (GetBalance (JString address)))
      as [r w].
    cbn [fst] in Hnode. subst r. reflexivity. }
  destruct Hunit as [E|[E|[E|[]]]]; inversion E; subst unit decimals;
    rewrite Hrun by (simpl; tauto); eexists; split; try reflexivity.
  - repeat split.
    + apply UnitFacts.denotes_Qeq with (q := inject_Z B).
      * apply UnitFacts.bigint_toString_denotes.
      * change (10 ^ Z.of_nat 0) with 1. field.
    + discriminate.
  - repeat split; try discriminate.
    apply UnitFacts.formatUnits_denotes.
  - repeat split; try discriminate.
    + apply (UnitFacts.formatUnits_denotes B 18).
    + intros _ ->. reflexivity.
Qed.

(** ** Claims about errors *)


(** C2 (as amended).  An address field that is missing or is not a string
    fails validation: the handler throws a [ZodError] with an
    [invalid_type] issue at that field, and the state, and so the trace,
    is left as it was.  The field's schema is a plain string schema: any
    string parses, whatever its length or prefix. *)
Theorem address_field_validation (t : Tool) (key : string)
    (props : list (string * JsValue)) (rt : Runtime) :
  In key (address_fields t) ->
  (is_string (get key props) = false ->
   exists issues,
     handler t (JObject props) rt = (inl (ZodError issues), rt)
     /\ In (invalid_type "string" (getParsedType (get key props)) [Key key])
           issues)
  /\ (exists schema,
        In (key, schema) (argsSchema t)
        /\ forall path s, parse schema path (JString s) = inr (JString s)).
Proof.
  intros Hkey.
  assert (Hfield : In (key, ZodString) (argsSchema t)).
  { destruct t; cbn [address_fields] in Hkey; cbn [argsSchema];
      repeat (destruct Hkey as [<-|Hkey]; [simpl; tauto|]);
      contradiction. }
  split.
  - intros Hnot.
    assert (Hp : parse ZodString [Key key] (get key props)
                 = inl [invalid_type "string" (getParsedType (get key props))
                          [Key key]]).
    { destruct (get key props); try reflexivity. discriminate Hnot. }
    destruct (parse_shape_issue _ props key ZodString _ Hfield Hp)
      as (all & Hall & Hincl).
    exists all. split.
    + apply handler_invalid; [|exact Hall].
      intros ->. contradiction.
    + apply Hincl. left. reflexivity.
  - exists ZodString. split; [exact Hfield|reflexivity].
Qed.

(** C3.  Whatever is thrown while a tool call is dispatched or handled,
    the request handler returns the envelope whose content is the one
    text item ["Error: <message>"] and whose error flag is [true]; being
    a function into envelopes, it lets nothing else out. *)
Theorem callTool_catches (toolName : string) (toolArgs : JsValue)
    (rt rt' : Runtime) (err : Exn) :
  handleTool toolName toolArgs rt = (inl err, rt') ->
  callTool toolName toolArgs rt
  = ({| env_content := TextItems [("Error: " ++ message_of err)%string];
        env_isError := JBool true |}, rt').
Proof.
  intros H. unfold Server.callTool. rewrite H. reflexivity.
Qed.

(** C4, at the name ["toString"].  [handlers["toString"]] is the
    [toString] that [handlers] inherits from [Object.prototype]: it is not
    [undefined], so no unknown-tool error is thrown; it is called, and
    [handleTool] resolves to the string it returns. *)
Theorem handleTool_toString (rawArgs : JsValue) (rt : Runtime) :
  handlers "toString" = Some (Inherited proto_toString)
  /\ handleTool "toString" rawArgs rt
     = (inr (Other (JString "[object Undefined]")), rt)
  /\ callTool "toString" rawArgs rt
     = ({| env_content := OtherContent JUndefined;
           env_isError := JUndefined |}, rt).
Proof. repeat split. Qed.

(** X1.  Each of the eight registered names is dispatched to its handler,
    on the raw arguments, and the handler's response is passed on as it
    is. *)
Lemma handleTool_registered (t : Tool) (rawArgs : JsValue) (rt : Runtime) :
  handleTool (tool_name t) rawArgs rt
  = match handler t rawArgs rt with
    | (inr r, rt') => (inr (Response r), rt')
    | (inl e, rt') => (inl e, rt')
    end.
Proof.
  assert (Hown : handlers (tool_name t) = Some (OwnHandler t))
    by (destruct t; reflexivity).
  unfold Server.handleTool. rewrite Hown. unfold bind, ret.
  destruct (handler t rawArgs rt) as [[e|r] rt']; reflexivity.
Qed.

(** X2.  A name that is neither registered nor a property of
    [Object.prototype] is an unknown tool. *)
Lemma handleTool_unknown (toolName : string) (rawArgs : JsValue)
    (rt : Runtime) :
  ~ In toolName (map tool_name all_tools) ->
  ~ In toolName (map fst Object_prototype) ->
  handleTool toolName rawArgs rt
  = (inl (ErrorObject "Error" ("Unknown tool: " ++ toolName)), rt).
Proof.
  intros Hreg Hproto.
  assert (Hassoc : forall A (l : list (string * A)),
             ~ In toolName (map fst l) -> assoc toolName l = None).
  { intros A l. induction l as [|[k a] l IH]; intros Hn; [reflexivity|].
    cbn [assoc]. destruct (String.eqb_spec k toolName) as [->|_].
    - exfalso. apply Hn. left. reflexivity.
    - apply IH. intros Hin. apply Hn. right. exact Hin. }
  unfold Server.handleTool, handlers.
  rewrite Hassoc by (rewrite map_map; exact Hreg).
  rewrite Hassoc by exact Hproto.
  reflexivity.
Qed.


(** ** Claims about the handlers *)

(** C8.  [call_contract] with the ABI given as a JSON string does exactly
    what it does with the ABI given as the structured value that string
    parses to (a value that is not itself a string), the address, the
    function name and the arguments being the same: same validation, same
    call on the client, same result, same state. *)
Theorem call_contract_abi_forms (text : string) (abi : JsValue)
    (rest : list (string * JsValue)) (rt : Runtime) :
  JSON_parse text = inr abi ->
  is_string abi = false ->
  handler call_contract (JObject (("abi", JString text) :: rest)%string) rt
  = handler call_contract (JObject (("abi", abi) :: rest)%string) rt.
Proof.
  intros Hparse Hstr.
  assert (Habi : parse (ZodUnion ZodString ZodAny) [Key "abi"%string] abi
                 = inr abi)
    by (destruct abi; try reflexivity; discriminate Hstr).
  pose proof (parse_shape_differ CallContractArgsSchema
                (("abi", JString text) :: rest)%string
                (("abi", abi) :: rest)%string "abi"%string
                (JString text) abi) as Hrel.
  pose proof (parse_shape_get CallContractArgsSchema
                (("abi", JString text) :: rest)%string
                "abi"%string (ZodUnion ZodString ZodAny)) as Hget1.
  pose proof (parse_shape_get CallContractArgsSchema
                (("abi", abi) :: rest)%string
                "abi"%string (ZodUnion ZodString ZodAny)) as Hget2.
  cbn [Server.handler]. unfold handleCallContract, bind, validated, safeParse.
  destruct (parse_shape CallContractArgsSchema
              (("abi", JString text) :: rest)%string) as [e1|p1];
  destruct (parse_shape CallContractArgsSchema
              (("abi", abi) :: rest)%string) as [e2|p2];
  cbv beta iota in Hrel.
  - rewrite Hrel; [reflexivity| |].
    + intros k Hk. cbn [own_property].
      destruct (String.eqb_spec "abi" k); [congruence|reflexivity].
    + intros t Ht. simpl in Ht.
      destruct Ht as [E|[E|[E|[E|[]]]]]; inversion E; try congruence.
      subst t. split; [reflexivity|exact Habi].
  - exfalso. apply Hrel.
    + intros k Hk. cbn [own_property].
      destruct (String.eqb_spec "abi" k); [congruence|reflexivity].
    + intros t Ht. simpl in Ht.
      destruct Ht as [E|[E|[E|[E|[]]]]]; inversion E; try congruence.
      subst t. split; [reflexivity|exact Habi].
  - exfalso. apply Hrel.
    + intros k Hk. cbn [own_property].
      destruct (String.eqb_spec "abi" k); [congruence|reflexivity].
    + intros t Ht. simpl in Ht.
      destruct Ht as [E|[E|[E|[E|[]]]]]; inversion E; try congruence.
      subst t. split; [reflexivity|exact Habi].
  - assert (Hsame : forall k, k <> "abi"%string -> get k p1 = get k p2).
    { apply Hrel.
      - intros k Hk. cbn [own_property].
        destruct (String.eqb_spec "abi" k); [congruence|reflexivity].
      - intros t Ht. simpl in Ht.
        destruct Ht as [E|[E|[E|[E|[]]]]]; inversion E; try congruence.
        subst t. split; [reflexivity|exact Habi]. }
    unfold ret. cbv beta iota.
    rewrite (Hsame "address"%string), (Hsame "functionName"%string),
      (Hsame "args"%string) by discriminate.
    rewrite (Hget1 p1 (JString text)), (Hget2 p2 abi);
      try reflexivity; try exact Habi;
      try exact CallContract_keys_NoDup;
      try (right; left; reflexivity).
    rewrite Hparse.
    destruct abi; try reflexivity. discriminate Hstr.
Qed.

(** One ERC-20 write, [transfer] or [approve], step by step. *)
Lemma erc20_write_run
    (run : JsValue -> Runtime -> (Exn + ToolResponse) * Runtime)
    (schema : ZodObject) (field fn prefix : string)
    (token recipient amount : string) (account : Account)
    (D : nat) (raw : Z) (hash : string) (rt : Runtime) :
  (forall rawArgs rt0,
      run rawArgs rt0
      = bind Account World (validated Account World schema rawArgs)
          (fun parsed =>
           bind Account World
             (getWalletClient Account World privateKeyToAccount proc
                (getPrivateKey proc))
             (fun wallet =>
              bind Account World getPublicClient
                (fun client =>
                 bind Account World
                   (call Account World (answer_number node) client
                      (ReadContract (get "tokenAddress" parsed) erc20Abi
                         (JString "decimals") JUndefined))
                   (fun decimals =>
                    bind Account World
                      (parseUnits Account World fault (get "amount" parsed)
                         decimals)
                      (fun amountRaw =>
                       bind Account World
                         (call Account World (answer_hash node) wallet
                            (WriteContract (get "tokenAddress" parsed)
                               erc20Abi fn
                               [get field parsed; JBigInt amountRaw]))
                         (fun hash =>
                          ret Account World
                            (text_response (prefix ++ hash)%string)))))))
          rt0) ->
  safeParse schema
    (JObject [("tokenAddress", JString token); (field, JString recipient);
              ("amount", JString amount)]%string)
  = inr [("tokenAddress", JString token); (field, JString recipient);
         ("amount", JString amount)]%string ->
  get field [("tokenAddress", JString token); (field, JString recipient);
             ("amount", JString amount)]%string = JString recipient ->
  get "amount" [("tokenAddress", JString token); (field, JString recipient);
                ("amount", JString amount)]%string = JString amount ->
  privateKeyToAccount (getPrivateKey proc) = inr account ->
  (forall w c,
      fst (answer_number node w c
             (ReadContract (JString token) erc20Abi (JString "decimals")
                JUndefined)) = inr D) ->
  Viem.parseUnits amount D = inr raw ->
  (forall w c,
      fst (answer_hash node w c
             (WriteContract (JString token) erc20Abi fn
                [JString recipient; JBigInt raw])) = inr hash) ->
  exists rt',
    run (JObject [("tokenAddress", JString token); (field, JString recipient);
                  ("amount", JString amount)]%string) rt
    = (inr (text_response (prefix ++ hash)%string), rt')
    /\ calls_of (trace rt')
       = calls_of (trace rt)
         ++ [ReadContract (JString token) erc20Abi (JString "decimals")
               JUndefined;
             WriteContract (JString token) erc20Abi fn
               [JString recipient; JBigInt raw]].
Proof.
  intros Hrun Hparse Hfield Hamt Hacc Hdec Hamount Hhash.
  rewrite Hrun. unfold bind, validated. rewrite Hparse.
  unfold ret at 1. cbv beta iota.
  unfold getWalletClient. rewrite Hacc.
  match goal with
  | |- context [getPublicClient ?st] =>
      destruct (getPublicClient_spec st) as (c & rt2 & Hc & _ & _ & Hcalls);
      rewrite Hc
  end.
  cbn [trace] in Hcalls. rewrite calls_of_app in Hcalls.
  cbn [calls_of] in Hcalls. rewrite app_nil_r in Hcalls.
  rewrite Hfield.
  change (get "tokenAddress"
            [("tokenAddress", JString token); (field, JString recipient);
             ("amount", JString amount)]%string) with (JString token).
  rewrite Hamt.
  unfold call at 1.
  specialize (Hdec (world rt2) c).
  destruct (answer_number node (world rt2) c
              (ReadContract (JString token) erc20Abi (JString "decimals")
                 JUndefined)) as [r1 w1].
  cbn [fst] in Hdec. subst r1.
  unfold parseUnits. rewrite Hamount. unfold ret at 1.
  unfold call. cbn [world].
  match goal with
  | |- context [answer_hash node w1 ?wc ?what] =>
      specialize (Hhash w1 wc);
      destruct (answer_hash node w1 wc what) as [r2 w2]
  end.
  cbn [fst] in Hhash. subst r2.
  eexists. split; [reflexivity|].
  cbn [trace]. rewrite !calls_of_app. cbn [calls_of].
  rewrite Hcalls, <- app_assoc. reflexivity.
Qed.

(** C7.  [erc20_transfer] and [erc20_approve], called with a usable key
    on a node that answers: the handler first reads [decimals()] of the
    token, converts the amount with that many decimals, then sends the
    [transfer] or [approve] with the converted amount, and returns the
    text that carries the transaction hash the node gave.  The amount
    ["0"] converts to 0 in every number of decimals. *)
Theorem erc20_write_sequence (token recipient amount : string)
    (account : Account) (D : nat) (raw : Z) (hash : string) (rt : Runtime) :
  privateKeyToAccount (getPrivateKey proc) = inr account ->
  (forall w c,
      fst (answer_number node w c
             (ReadContract (JString token) erc20Abi (JString "decimals")
                JUndefined)) = inr D) ->
  Viem.parseUnits amount D = inr raw ->
  (forall w c fn,
      fst (answer_hash node w c
             (WriteContract (JString token) erc20Abi fn
                [JString recipient; JBigInt raw])) = inr hash) ->
  (exists rt',
      handler erc20_transfer
        (JObject [("tokenAddress", JString token); ("to", JString recipient);
                  ("amount", JString amount)]%string) rt
      = (inr (text_response ("Transfer submitted. Tx hash: " ++ hash)%string),
         rt')
      /\ calls_of (trace rt')
         = calls_of (trace rt)
           ++ [ReadContract (JString token) erc20Abi (JString "decimals")
                 JUndefined;
               WriteContract (JString token) erc20Abi "transfer"
                 [JString recipient; JBigInt raw]])
  /\ (exists rt',
        handler erc20_approve
          (JObject [("tokenAddress", JString token);
                    ("spender", JString recipient);
                    ("amount", JString amount)]%string) rt
        = (inr (text_response
                  ("Approve transaction broadcast. Tx hash: " ++ hash)%string),
           rt')
        /\ calls_of (trace rt')
           = calls_of (trace rt)
             ++ [ReadContract (JString token) erc20Abi (JString "decimals")
                   JUndefined;
                 WriteContract (JString token) erc20Abi "approve"
                   [JString recipient; JBigInt raw]])
  /\ (forall decimals, Viem.parseUnits "0" decimals = inr 0).
Proof.
  intros Hacc Hdec Hamount Hhash. repeat split.
  - apply (erc20_write_run (handler erc20_transfer) Erc20TransferArgsSchema
             "to" "transfer" "Transfer submitted. Tx hash: "
             token recipient amount account D raw hash rt);
      try assumption; try reflexivity.
    intros w c. apply Hhash.
  - apply (erc20_write_run (handler erc20_approve) Erc20ApproveArgsSchema
             "spender" "approve" "Approve transaction broadcast. Tx hash: "
             token recipient amount account D raw hash rt);
      try assumption; try reflexivity.
    intros w c. apply Hhash.
  - apply UnitFacts.parseUnits_zero.
Qed.

(** ** Further facts about the handlers *)

(** X5.  [get_erc20_balance] on a node that reports the balance [B] and
    the decimals [D]: the text is the formatted balance, [" tokens ("], the
    raw balance and [" raw)"]; for 1500000 with 6 decimals it is
    ["1.5 tokens (1500000 raw)"]. *)
Lemma get_erc20_balance_text (token account : string) (B : Z) (D : nat)
    (rt : Runtime) :
  (forall w c,
      fst (answer_bigint node w c
             (ReadContract (JString token) erc20Abi (JString "balanceOf")
                (JArray [JString account]))) = inr B) ->
  (forall w c,
      fst (answer_number node w c
             (ReadContract (JString token) erc20Abi (JString "decimals")
                JUndefined)) = inr D) ->
  fst (handler get_erc20_balance
         (JObject [("tokenAddress", JString token);
                   ("accountAddress", JString account)]%string) rt)
  = inr (text_response
           (Viem.formatUnits B D ++ " tokens ("
              ++ to_string (bigint_toString B) ++ " raw)")%string)
  /\ (B = 1500000 -> D = 6%nat ->
      (Viem.formatUnits B D ++ " tokens ("
         ++ to_string (bigint_toString B) ++ " raw)")%string
      = "1.5 tokens (1500000 raw)"%string).
Proof.
  intros Hbal Hdec. split; [|intros -> ->; reflexivity].
  cbn [Server.handler]. unfold handleGetErc20Balance, bind, validated.
  change (safeParse GetErc20BalanceArgsSchema
            (JObject [("tokenAddress", JString token);
                      ("accountAddress", JString account)]%string))
    with (@inr (list ZodIssue) _
            [("tokenAddress", JString token);
             ("accountAddress", JString account)]%string).
  unfold ret at 1.
  destruct (getPublicClient_spec rt) as (c & rt1 & Hc & _). rewrite Hc.
  unfold Promise_all, call.
  change (get "tokenAddress"
            [("tokenAddress", JString token);
             ("accountAddress", JString account)]%string)
    with (JString token).
  change (get "accountAddress"
            [("tokenAddress", JString token);
             ("accountAddress", JString account)]%string)
    with (JString account).
  specialize (Hbal (world rt1) c).
  destruct (answer_bigint node (world rt1) c
              (ReadContract (JString token) erc20Abi (JString "balanceOf")
                 (JArray [JString account]))) as [r1 w1].
  cbn [fst] in Hbal. subst r1. cbn [world].
  specialize (Hdec w1 c).
  destruct (answer_number node w1 c
              (ReadContract (JString token) erc20Abi (JString "decimals")
                 JUndefined)) as [r2 w2].
  cbn [fst] in Hdec. subst r2. reflexivity.
Qed.

(** X6.  Arguments that fail validation are reported to the caller and
    nothing else happens: the envelope carries the message of the
    [ZodError], flagged as an error, and the state is as before. *)
Lemma invalid_arguments_reported (t : Tool) (raw : JsValue)
    (issues : list ZodIssue) (rt : Runtime) :
  t <> get_rpc_url ->
  safeParse (argsSchema t) raw = inl issues ->
  callTool (tool_name t) raw rt
  = ({| env_content :=
          TextItems [("Error: " ++ ZodError_message issues)%string];
        env_isError := JBool true |}, rt).
Proof.
  intros Ht H.
  assert (Hown : handlers (tool_name t) = Some (OwnHandler t))
    by (destruct t; reflexivity).
  unfold Server.callTool, Server.handleTool. rewrite Hown. unfold bind.
  rewrite (handler_invalid t raw issues rt Ht H). reflexivity.
Qed.

(** X7.  A signing client is constructed afresh at every call: nothing
    caches it, and two calls in a row give two clients. *)
Lemma getWalletClient_fresh (privateKey : option string) (account : Account)
    (rt : Runtime) :
  privateKeyToAccount privateKey = inr account ->
  exists c1 c2 rt1 rt2,
    getWalletClient Account World privateKeyToAccount proc privateKey rt
    = (inr c1, rt1)
    /\ getWalletClient Account World privateKeyToAccount proc privateKey rt1
       = (inr c2, rt2)
    /\ client_id c1 <> client_id c2
    /\ client_account c1 = Some account
    /\ client_account c2 = Some account
    /\ trace rt2 = trace rt ++ [CreateWalletClient c1; CreateWalletClient c2]
    /\ _publicClient rt2 = _publicClient rt.
Proof.
  intros H. unfold getWalletClient. rewrite H.
  eexists _, _, _, _. split; [reflexivity|]. split; [reflexivity|].
  cbn. repeat split.
  - apply Nat.neq_succ_diag_r.
  - rewrite <- app_assoc. reflexivity.
Qed.

(** ** The read client *)

Local Abbreviation Inv := (singleton_read_client Account World proc).

Lemma created_app (tr1 tr2 : list (Event Account)) :
  public_clients_created (tr1 ++ tr2)
  = public_clients_created tr1 ++ public_clients_created tr2.
Proof.
  induction tr1 as [|[] tr1 IH]; simpl; congruence.
Qed.

Lemma readers_app (tr1 tr2 : list (Event Account)) :
  readers (tr1 ++ tr2) = readers tr1 ++ readers tr2.
Proof.
  induction tr1 as [|[c|c|c what] tr1 IH]; simpl; try congruence.
  destruct (is_read what); simpl; congruence.
Qed.

Lemma validated_state (schema : ZodObject) (raw : JsValue) (rt : Runtime) :
  snd (validated Account World schema raw rt) = rt.
Proof.
  unfold validated. destruct (safeParse schema raw); reflexivity.
Qed.

Lemma parseUnits_state (amount : JsValue) (decimals : nat) (rt : Runtime) :
  snd (parseUnits Account World fault amount decimals rt) = rt.
Proof.
  unfold parseUnits.
  destruct amount; try reflexivity.
  destruct (Viem.parseUnits s decimals); reflexivity.
Qed.

(** [getPublicClient] always returns the cached client, constructing it
    when there is none yet. *)
Lemma getPublicClient_inv (rt : Runtime) :
  Inv rt ->
  exists c rt',
    getPublicClient rt = (inr c, rt')
    /\ Inv rt' /\ _publicClient rt' = Some c
    /\ (forall c0, _publicClient rt = Some c0 -> c = c0 /\ rt' = rt).
Proof.
  unfold singleton_read_client, Server.getPublicClient. intros H.
  destruct (_publicClient rt) as [c|] eqn:E.
  - exists c, rt. rewrite E. repeat split; try apply H.
    inversion H0. reflexivity.
  - destruct H as [Hc Hr].
    eexists _, _. split; [reflexivity|]. cbn [_publicClient trace].
    rewrite created_app, readers_app, Hc, Hr. cbn.
    repeat split; try discriminate.
    intros c' [].
Qed.

Lemma getWalletClient_inv (privateKey : option string) (rt : Runtime) :
  Inv rt ->
  Inv (snd (getWalletClient Account World privateKeyToAccount proc
              privateKey rt))
  /\ _publicClient
       (snd (getWalletClient Account World privateKeyToAccount proc
               privateKey rt))
     = _publicClient rt.
Proof.
  unfold singleton_read_client, getWalletClient. intros H.
  destruct (privateKeyToAccount privateKey); cbn [snd]; [tauto|].
  cbn [_publicClient trace]. rewrite created_app, readers_app. cbn.
  rewrite !app_nil_r. tauto.
Qed.

(** A reading call on the cached client keeps the invariant. *)
Lemma call_read_inv {A}
    (answer : World -> Client Account -> ClientCall -> (Exn + A) * World)
    (c : Client Account) (what : ClientCall) (rt : Runtime) :
  Inv rt -> _publicClient rt = Some c -> is_read what = true ->
  Inv (snd (call Account World answer c what rt))
  /\ _publicClient (snd (call Account World answer c what rt)) = Some c.
Proof.
  unfold singleton_read_client, call. intros H Hc Hread.
  destruct (answer (world rt) c what) as [r w]. cbn [snd _publicClient trace].
  rewrite Hc in *. rewrite created_app, readers_app. cbn. rewrite Hread.
  destruct H as (Hcr & Hrd & Hrest). rewrite app_nil_r.
  repeat split; try tauto.
  intros c' Hin. apply in_app_or in Hin. destruct Hin as [Hin|[<-|[]]].
  - apply Hrd. exact Hin.
  - reflexivity.
Qed.

(** A writing call, on whichever client, keeps the invariant. *)
Lemma call_write_inv {A}
    (answer : World -> Client Account -> ClientCall -> (Exn + A) * World)
    (c : Client Account) (what : ClientCall) (rt : Runtime) :
  Inv rt -> is_read what = false ->
  Inv (snd (call Account World answer c what rt)).
Proof.
  unfold singleton_read_client, call. intros H Hread.
  destruct (answer (world rt) c what) as [r w]. cbn [snd _publicClient trace].
  rewrite created_app, readers_app. cbn. rewrite Hread, !app_nil_r.
  exact H.
Qed.

Lemma Promise_all_reads_inv {A B}
    (a1 : World -> Client Account -> ClientCall -> (Exn + A) * World)
    (a2 : World -> Client Account -> ClientCall -> (Exn + B) * World)
    (c : Client Account) (w1 w2 : ClientCall) (rt : Runtime) :
  Inv rt -> _publicClient rt = Some c ->
  is_read w1 = true -> is_read w2 = true ->
  Inv (snd (Promise_all Account World
              (call Account World a1 c w1) (call Account World a2 c w2) rt)).
Proof.
  intros H Hc H1 H2. unfold Promise_all.
  destruct (call_read_inv a1 c w1 rt H Hc H1) as [H' Hc'].
  destruct (call Account World a1 c w1 rt) as [r1 rt1]. cbn [snd] in H', Hc'.
  destruct (call_read_inv a2 c w2 rt1 H' Hc' H2) as [H'' _].
  destruct (call Account World a2 c w2 rt1) as [r2 rt2]. exact H''.
Qed.

(** One step of a handler: the next computation in the goal is run, its
    failure branch closed with the invariant of the state it leaves. *)
Ltac step :=
  match goal with
  | H : singleton_read_client _ _ _ ?rt
    |- context [validated ?A ?W ?s ?raw ?rt] =>
      let Hv := fresh "Hv" in
      pose proof (validated_state s raw rt) as Hv;
      destruct (validated A W s raw rt) as [[?|?] ?];
      cbn [snd] in Hv; subst; [assumption|]
  | H : singleton_read_client _ _ _ ?rt
    |- context [Server.getPublicClient ?A ?W ?p ?rt] =>
      let c := fresh "c" in
      let rt1 := fresh "rt" in
      let Hc := fresh "Hc" in
      let H1 := fresh "Hinv" in
      let Hc1 := fresh "Hcached" in
      destruct (getPublicClient_inv rt H) as (c & rt1 & Hc & H1 & Hc1 & _);
      rewrite Hc; clear Hc
  | H : singleton_read_client _ _ _ ?rt
    |- context [getWalletClient ?A ?W ?pk ?p ?k ?rt] =>
      let H1 := fresh "Hinv" in
      let Hc1 := fresh "Hsame" in
      destruct (getWalletClient_inv k rt H) as [H1 Hc1];
      destruct (getWalletClient A W pk p k rt) as [[?|?] ?];
      cbn [snd] in H1, Hc1; [assumption|]
  | H : singleton_read_client _ _ _ ?rt
    |- context [parseUnits ?A ?W ?f ?a ?d ?rt] =>
      let Hp := fresh "Hp" in
      pose proof (parseUnits_state a d rt) as Hp;
      destruct (parseUnits A W f a d rt) as [[?|?] ?];
      cbn [snd] in Hp; subst; [assumption|]
  | H : singleton_read_client _ _ _ ?rt, Hc : _publicClient ?rt = Some ?c
    |- context [Promise_all ?A ?W (call _ _ ?a1 ?c ?w1)
                  (call _ _ ?a2 ?c ?w2) ?rt] =>
      let H2 := fresh "Hinv" in
      pose proof (Promise_all_reads_inv a1 a2 c w1 w2 rt H Hc
                    eq_refl eq_refl) as H2;
      destruct (Promise_all A W (call A W a1 c w1) (call A W a2 c w2) rt)
        as [[?|[? ?]] ?];
      cbn [snd] in H2; [assumption|]
  | H : singleton_read_client _ _ _ ?rt, Hc : _publicClient ?rt = Some ?c
    |- context [call ?A ?W ?ans ?c ?what ?rt] =>
      let H2 := fresh "Hinv" in
      let Hc2 := fresh "Hcached" in
      destruct (call_read_inv ans c what rt H Hc eq_refl) as [H2 Hc2];
      destruct (call A W ans c what rt) as [[?|?] ?];
      cbn [snd] in H2, Hc2; [assumption|]
  | H : singleton_read_client _ _ _ ?rt
    |- context [call ?A ?W ?ans ?c ?what ?rt] =>
      let H2 := fresh "Hinv" in
      pose proof (call_write_inv ans c what rt H eq_refl) as H2;
      destruct (call A W ans c what rt) as [[?|?] ?];
      cbn [snd] in H2; [assumption|]
  end.

(** Every handler keeps the read client a singleton. *)
Lemma handler_inv (t : Tool) (raw : JsValue) (rt : Runtime) :
  Inv rt -> Inv (snd (handler t raw rt)).
Proof.
  intros H.
  destruct t; cbn [Server.handler];
    unfold handleGetEthBalance, handleGetErc20Balance, handleSendEth,
      handleCallContract, handleErc20Transfer, handleErc20Approve,
      handleErc20Allowance, handleGetRpcUrl, parseEther, bind;
    try step.
  - (* get_eth_balance *) do 2 step. assumption.
  - (* get_erc20_balance *) do 2 step. assumption.
  - (* send_eth *) do 3 step. assumption.
  - (* call_contract *)
    match goal with
    | |- context [match ?x with JString _ => _ | _ => _ end] =>
        destruct x; unfold ret at 1; cbv beta iota
    end;
    try (match goal with
         | |- context [JSON_parse ?s] =>
             destruct (JSON_parse s); unfold ret, throw; cbv beta iota;
             [assumption|]
         end);
    step;
    (match goal with
     | |- context [getContract_read ?a] =>
         destruct (getContract_read a) as [f|[|]]; unfold ret, throw;
         cbv beta iota
     end);
    try assumption; step; assumption.
  - (* erc20_transfer *) do 5 step. assumption.
  - (* erc20_approve *) do 5 step. assumption.
  - (* erc20_allowance *) do 2 step. assumption.
  - (* get_rpc_url *) exact H.
Qed.

Lemma callTool_inv (toolName : string) (toolArgs : JsValue) (rt : Runtime) :
  Inv rt -> Inv (snd (callTool toolName toolArgs rt)).
Proof.
  intros H. unfold Server.callTool, Server.handleTool.
  destruct (handlers toolName) as [[t|p]|].
  - unfold bind, ret. pose proof (handler_inv t toolArgs rt H) as H'.
    destruct (handler t toolArgs rt) as [[e|r] rt']; exact H'.
  - destruct p; cbn [call_inherited]; try exact H;
      destruct toolArgs; exact H.
  - exact H.
Qed.

Lemma serve_inv (requests : list (string * JsValue)) (rt : Runtime) :
  Inv rt -> Inv (snd (serve requests rt)).
Proof.
  revert rt. induction requests as [|[toolName toolArgs] rest IH];
    intros rt H; [exact H|].
  cbn [Server.serve].
  pose proof (callTool_inv toolName toolArgs rt H) as H1.
  destruct (callTool toolName toolArgs rt) as [envelope rt1].
  cbn [snd] in H1. specialize (IH rt1 H1).
  destruct (serve rest rt1) as [envelopes rt2]. exact IH.
Qed.

(** C9.  In the state [rt] the process is in after any tool calls:
    at most one read client was ever constructed; it was made from the
    resolved RPC endpoint and chain, and it is the cached one; every
    reading call of every handler was made on it; and the provider, called
    now, returns the client it will return at every later call, having
    constructed it only if none had been. *)
Theorem read_client_singleton (requests : list (string * JsValue))
    (w : World) :
  let rt := snd (serve requests (initial Account World w)) in
  (List.length (public_clients_created (trace rt)) <= 1)%nat
  /\ (forall c, In c (public_clients_created (trace rt)) ->
                _publicClient rt = Some c
                /\ client_transport c = rpcUrl proc
                /\ client_chain c = testChain proc)
  /\ (forall c, In c (readers (trace rt)) -> _publicClient rt = Some c)
  /\ (exists c rt1,
        getPublicClient rt = (inr c, rt1)
        /\ public_clients_created (trace rt1) = [c]
        /\ (_publicClient rt = None ->
            public_clients_created (trace rt) = []
            /\ client_transport c = rpcUrl proc
            /\ client_chain c = testChain proc)
        /\ (forall c0, _publicClient rt = Some c0 -> c = c0 /\ rt1 = rt)
        /\ getPublicClient rt1 = (inr c, rt1)).
Proof.
  intros rt.
  assert (H : Inv rt).
  { apply serve_inv. unfold singleton_read_client, initial. cbn. tauto. }
  clearbody rt.
  destruct (getPublicClient_inv rt H) as (c & rt1 & Hc & H1 & Hc1 & Hsame).
  pose proof H as H0. pose proof H1 as H1'.
  unfold singleton_read_client in H0, H1'. rewrite Hc1 in H1'.
  destruct H1' as (Hcr1 & _ & _ & Htr & Hch).
  split; [|split; [|split]].
  - destruct (_publicClient rt) as [c0|];
      [destruct H0 as (-> & _)|destruct H0 as (-> & _)]; simpl; lia.
  - intros c' Hin. destruct (_publicClient rt) as [c0|].
    + destruct H0 as (E & _ & _ & Ht & Hh). rewrite E in Hin.
      destruct Hin as [<-|[]]. repeat split; assumption.
    + destruct H0 as (E & _). rewrite E in Hin. destruct Hin.
  - intros c' Hin. destruct (_publicClient rt) as [c0|].
    + destruct H0 as (_ & Hr & _). rewrite (Hr c' Hin). reflexivity.
    + destruct H0 as (_ & E). rewrite E in Hin. destruct Hin.
  - exists c, rt1.
    split; [exact Hc|]. split; [exact Hcr1|].
    split; [|split].
    + intros E. rewrite E in H0. destruct H0 as (E' & _).
      repeat split; assumption.
    + exact Hsame.
    + unfold Server.getPublicClient. rewrite Hc1. reflexivity.
Qed.

(** ** What a handler leaves behind *)

Local Abbreviation Quiet :=
  (quiet_since Account World privateKeyToAccount proc).
Local Abbreviation Outcome :=
  (handler_outcome Account World privateKeyToAccount proc).
Local Abbreviation well_made_here :=
  (well_made Account privateKeyToAccount proc).

Lemma quiet_refl (rt : Runtime) : Quiet (trace rt) [] rt.
Proof.
  exists []. rewrite app_nil_r. split; [reflexivity|].
  split; [constructor|]. split; [reflexivity|]. intros ev [].
Qed.

Lemma quiet_event (base made : list (Event Account)) (rt rt' : Runtime)
    (ev : Event Account) :
  Quiet base made rt ->
  trace rt' = trace rt ++ [ev] ->
  well_made_here ev ->
  forallb is_read (calls_of [ev]) = true ->
  Quiet base (ev :: made) rt'.
Proof.
  intros (evs & Htr & Hwm & Hrd & Hin) Htr' Hev Hread.
  exists (evs ++ [ev]). rewrite Htr', Htr, <- app_assoc.
  split; [reflexivity|]. split; [|split].
  - apply Forall_app. split; [exact Hwm|]. constructor; [exact Hev|constructor].
  - rewrite calls_of_app, forallb_app, Hrd, Hread. reflexivity.
  - intros x [<-|Hx]; apply in_or_app; [right; left; reflexivity|].
    left. apply Hin. exact Hx.
Qed.

Lemma quiet_forget (base made : list (Event Account)) (ev : Event Account)
    (rt : Runtime) :
  Quiet base (ev :: made) rt -> Quiet base made rt.
Proof.
  intros (evs & Htr & Hwm & Hrd & Hin). exists evs.
  repeat split; try assumption.
  intros x Hx. apply Hin. right. exact Hx.
Qed.

Lemma getPublicClient_quiet (base made : list (Event Account))
    (rt : Runtime) :
  Quiet base made rt ->
  exists c rt', getPublicClient rt = (inr c, rt') /\ Quiet base made rt'.
Proof.
  intros H. unfold Server.getPublicClient.
  destruct (_publicClient rt) as [c|].
  - exists c, rt. split; [reflexivity|exact H].
  - eexists _, _. split; [reflexivity|].
    eapply quiet_forget, quiet_event; [exact H|reflexivity| |reflexivity].
    cbn. unfold made_here. cbn. tauto.
Qed.

Lemma getWalletClient_quiet (base : list (Event Account)) (rt : Runtime) :
  Quiet base [] rt ->
  match getWalletClient Account World privateKeyToAccount proc
          (getPrivateKey proc) rt with
  | (inr wallet, rt') => Quiet base [CreateWalletClient wallet] rt'
  | (inl _, rt') => Quiet base [] rt'
  end.
Proof.
  intros H. unfold getWalletClient.
  destruct (privateKeyToAccount (getPrivateKey proc)) as [e|account] eqn:E;
    [exact H|].
  eapply quiet_event; [exact H|reflexivity| |reflexivity].
  cbn. unfold made_here. cbn.
  split; [split; reflexivity|]. exists account. split; [reflexivity|exact E].
Qed.

Lemma call_read_quiet {A}
    (answer : World -> Client Account -> ClientCall -> (Exn + A) * World)
    (c : Client Account) (what : ClientCall)
    (base made : list (Event Account)) (rt : Runtime) :
  is_read what = true ->
  Quiet base made rt ->
  Quiet base made (snd (call Account World answer c what rt)).
Proof.
  intros Hread H. unfold call.
  destruct (answer (world rt) c what) as [r w].
  eapply quiet_forget, quiet_event; [exact H|reflexivity|exact I|].
  cbn. rewrite Hread. reflexivity.
Qed.

Lemma Promise_all_reads_quiet {A B}
    (a1 : World -> Client Account -> ClientCall -> (Exn + A) * World)
    (a2 : World -> Client Account -> ClientCall -> (Exn + B) * World)
    (c : Client Account) (w1 w2 : ClientCall)
    (base made : list (Event Account)) (rt : Runtime) :
  is_read w1 = true -> is_read w2 = true ->
  Quiet base made rt ->
  Quiet base made
    (snd (Promise_all Account World
            (call Account World a1 c w1) (call Account World a2 c w2) rt)).
Proof.
  intros H1 H2 H. unfold Promise_all.
  pose proof (call_read_quiet a1 c w1 base made rt H1 H) as H'.
  destruct (call Account World a1 c w1 rt) as [r1 rt1]. cbn [snd] in H'.
  pose proof (call_read_quiet a2 c w2 base made rt1 H2 H') as H''.
  destruct (call Account World a2 c w2 rt1) as [r2 rt2]. exact H''.
Qed.

Lemma outcome_failed (t : Tool) (base made : list (Event Account)) (e : Exn)
    (rt : Runtime) :
  Quiet base made rt -> Outcome t base (inl e, rt).
Proof.
  intros (evs & Htr & Hwm & Hrd & _). exists evs, [].
  rewrite app_nil_r. cbn [fst snd].
  repeat split; try assumption; [left; reflexivity|discriminate|discriminate].
Qed.

Lemma outcome_read (t : Tool) (base made : list (Event Account))
    (text : string) (rt : Runtime) :
  is_write_tool t = false ->
  Quiet base made rt -> Outcome t base (inr (text_response text), rt).
Proof.
  intros Ht (evs & Htr & Hwm & Hrd & _). exists evs, [].
  rewrite app_nil_r. cbn [fst snd].
  split; [exact Htr|]. split; [exact Hwm|]. split; [exact Hrd|].
  split; [left; reflexivity|].
  intros r Hr. injection Hr as <-. split; [eexists; reflexivity|congruence].
Qed.

Lemma outcome_write (t : Tool) (base : list (Event Account))
    (answer : World -> Client Account -> ClientCall -> (Exn + string) * World)
    (c : Client Account) (what : ClientCall) (prefix : string)
    (rt : Runtime) :
  is_write_tool t = true -> is_read what = false ->
  Quiet base [CreateWalletClient c] rt ->
  Outcome t base
    (match call Account World answer c what rt with
     | (inr hash, rt') =>
         ret Account World (text_response (prefix ++ hash)%string) rt'
     | (inl e, rt') => (inl e, rt')
     end).
Proof.
  intros Ht Hw (evs & Htr & Hwm & Hrd & Hin). unfold call, ret.
  assert (Hws : [Call c what] = []
                \/ exists c0 what0,
                     [Call c what] = [Call c0 what0]
                     /\ is_read what0 = false /\ is_write_tool t = true
                     /\ In (CreateWalletClient c0) evs).
  { right. exists c, what. repeat split; try assumption.
    apply Hin. left. reflexivity. }
  destruct (answer (world rt) c what) as [[e|hash] w];
    exists evs, [Call c what]; cbn [fst snd trace];
    rewrite Htr, <- app_assoc.
  - split; [reflexivity|]. split; [exact Hwm|]. split; [exact Hrd|].
    split; [exact Hws|]. discriminate.
  - split; [reflexivity|]. split; [exact Hwm|]. split; [exact Hrd|].
    split; [exact Hws|].
    intros r Hr. injection Hr as <-.
    split; [eexists; reflexivity|discriminate].
Qed.

(** One step of a handler that constructs a client or reads. *)
Ltac run :=
  match goal with
  | H : quiet_since _ _ _ _ _ _ ?rt
    |- context [validated ?A ?W ?s ?raw ?rt] =>
      let Hv := fresh "Hv" in
      pose proof (validated_state s raw rt) as Hv;
      destruct (validated A W s raw rt) as [[?|?] ?];
      cbn [snd] in Hv; subst; [eapply outcome_failed; eassumption|]
  | H : quiet_since _ _ _ _ ?base ?made ?rt
    |- context [Server.getPublicClient ?A ?W ?p ?rt] =>
      let c := fresh "c" in
      let rt1 := fresh "rt" in
      let Hc := fresh "Hc" in
      let H1 := fresh "Hquiet" in
      destruct (getPublicClient_quiet base made rt H) as (c & rt1 & Hc & H1);
      rewrite Hc; clear Hc
  | H : quiet_since _ _ _ _ ?base _ ?rt
    |- context [getWalletClient ?A ?W ?pk ?p ?k ?rt] =>
      let H1 := fresh "Hquiet" in
      pose proof (getWalletClient_quiet base rt H) as H1;
      destruct (getWalletClient A W pk p k rt) as [[?|?] ?];
      [eapply outcome_failed; eassumption|]
  | H : quiet_since _ _ _ _ _ _ ?rt
    |- context [parseUnits ?A ?W ?f ?a ?d ?rt] =>
      let Hp := fresh "Hp" in
      pose proof (parseUnits_state a d rt) as Hp;
      destruct (parseUnits A W f a d rt) as [[?|?] ?];
      cbn [snd] in Hp; subst; [eapply outcome_failed; eassumption|]
  | H : quiet_since _ _ _ _ ?base ?made ?rt
    |- context [Promise_all ?A ?W (call _ _ ?a1 ?c ?w1)
                  (call _ _ ?a2 ?c ?w2) ?rt] =>
      let H2 := fresh "Hquiet" in
      pose proof (Promise_all_reads_quiet a1 a2 c w1 w2 base made rt
                    eq_refl eq_refl H) as H2;
      destruct (Promise_all A W (call A W a1 c w1) (call A W a2 c w2) rt)
        as [[?|[? ?]] ?];
      cbn [snd] in H2; [eapply outcome_failed; eassumption|]
  | H : quiet_since _ _ _ _ ?base ?made ?rt
    |- context [call ?A ?W ?ans ?c ?what ?rt] =>
      let H2 := fresh "Hquiet" in
      pose proof (call_read_quiet ans c what base made rt eq_refl H) as H2;
      destruct (call A W ans c what rt) as [[?|?] ?];
      cbn [snd] in H2; [eapply outcome_failed; eassumption|]
  end.

(** Every handler runs as [handler_outcome] says. *)
Lemma handler_run (t : Tool) (raw : JsValue) (rt : Runtime) :
  Outcome t (trace rt) (handler t raw rt).
Proof.
  pose proof (quiet_refl rt) as H.
  generalize dependent (trace rt). intros base H.
  destruct t; cbn [Server.handler];
    unfold handleGetEthBalance, handleGetErc20Balance, handleSendEth,
      handleCallContract, handleErc20Transfer, handleErc20Approve,
      handleErc20Allowance, handleGetRpcUrl, parseEther, bind;
    try run.
  - (* get_eth_balance *)
    do 2 run. eapply outcome_read; [reflexivity|eassumption].
  - (* get_erc20_balance *)
    do 2 run. eapply outcome_read; [reflexivity|eassumption].
  - (* send_eth *)
    do 2 run. apply outcome_write; [reflexivity|reflexivity|assumption].
  - (* call_contract *)
    match goal with
    | |- context [match ?x with JString _ => _ | _ => _ end] =>
        destruct x; unfold ret at 1; cbv beta iota
    end;
    try (match goal with
         | |- context [JSON_parse ?s] =>
             destruct (JSON_parse s); unfold ret at 1, throw; cbv beta iota;
             [eapply outcome_failed; eassumption|]
         end);
    run;
    (match goal with
     | |- context [getContract_read ?a] =>
         destruct (getContract_read a) as [f|[|]]; unfold throw;
         try unfold ret at 1; cbv beta iota
     end);
    try (eapply outcome_failed; eassumption);
    run; (eapply outcome_read; [reflexivity|eassumption]).
  - (* erc20_transfer *)
    do 4 run. apply outcome_write; [reflexivity|reflexivity|assumption].
  - (* erc20_approve *)
    do 4 run. apply outcome_write; [reflexivity|reflexivity|assumption].
  - (* erc20_allowance *)
    do 2 run. eapply outcome_read; [reflexivity|eassumption].
  - (* get_rpc_url *) eapply outcome_read; [reflexivity|eassumption].
Qed.

Lemma writes_app (tr1 tr2 : list (Event Account)) :
  writes (tr1 ++ tr2) = writes tr1 ++ writes tr2.
Proof. unfold writes. rewrite calls_of_app, filter_app. reflexivity. Qed.

Lemma writes_of_reads (evs : list (Event Account)) :
  forallb is_read (calls_of evs) = true -> writes evs = [].
Proof.
  unfold writes. induction (calls_of evs) as [|what l IH]; [reflexivity|].
  cbn. destruct (is_read what); cbn; [exact IH|discriminate].
Qed.

(** X8.  One tool call writes to the chain at most once, whatever its
    arguments and however it ends, and the tools that are not write tools
    ([get_eth_balance], [get_erc20_balance], [call_contract],
    [erc20_allowance], [get_rpc_url]) never write. *)
Theorem tool_writes_at_most_once (t : Tool) (raw : JsValue) (rt : Runtime) :
  exists ws,
    writes (trace (snd (handler t raw rt))) = writes (trace rt) ++ ws
    /\ (List.length ws <= 1)%nat
    /\ (is_write_tool t = false -> ws = []).
Proof.
  destruct (handler_run t raw rt) as (evs & ws & Htr & _ & Hrd & Hws & _).
  rewrite Htr, !writes_app, (writes_of_reads evs Hrd). cbn [app].
  exists (writes ws). split; [reflexivity|].
  destruct Hws as [->|(c & what & -> & Hw & Ht & _)].
  - cbn. split; [lia|reflexivity].
  - unfold writes. cbn. rewrite Hw. cbn. split; [lia|congruence].
Qed.

(** X9.  A write tool that responds has written exactly once, and the
    write was the last call it made: every call before it was a read.  Its
    response is one text item. *)
Theorem write_tool_writes_last (t : Tool) (raw : JsValue) (rt rt' : Runtime)
    (resp : ToolResponse) :
  is_write_tool t = true ->
  handler t raw rt = (inr resp, rt') ->
  exists reads what text,
    calls_of (trace rt') = calls_of (trace rt) ++ reads ++ [what]
    /\ forallb is_read reads = true
    /\ is_read what = false
    /\ resp = text_response text.
Proof.
  intros Ht Hrun.
  destruct (handler_run t raw rt) as (evs & ws & Htr & _ & Hrd & Hws & Hr).
  rewrite Hrun in Htr, Hr. cbn [fst snd] in Htr, Hr.
  destruct (Hr resp eq_refl) as [[text Htext] Hne].
  destruct Hws as [->|(c & what & -> & Hw & _)];
    [exfalso; apply (Hne Ht); reflexivity|].
  exists (calls_of evs), what, text.
  rewrite Htr, !calls_of_app. cbn [calls_of].
  repeat split; assumption.
Qed.

Local Abbreviation signed_writes :=
  (Server.signed_writes Account privateKeyToAccount proc).

Lemma callTool_signed (toolName : string) (toolArgs : JsValue)
    (rt : Runtime) :
  signed_writes (trace rt) ->
  signed_writes (trace (snd (callTool toolName toolArgs rt))).
Proof.
  intros H. unfold Server.callTool, Server.handleTool.
  destruct (handlers toolName) as [[t|p]|].
  - unfold bind, ret.
    destruct (handler_run t toolArgs rt)
      as (evs & ws & Htr & Hwm & Hrd & Hws & _).
    assert (Hgoal : signed_writes (trace (snd (handler t toolArgs rt)))).
    { rewrite Htr. destruct H as [Hall Hsigned]. split.
      - rewrite !Forall_app. split; [exact Hall|]. split; [exact Hwm|].
        destruct Hws as [->|(c & what & -> & _)]; repeat constructor.
      - intros c what Hin Hw.
        apply in_app_or in Hin. destruct Hin as [Hin|Hin].
        + apply in_or_app. left. exact (Hsigned c what Hin Hw).
        + apply in_app_or in Hin. destruct Hin as [Hin|Hin].
          * exfalso. clear - Hin Hw Hrd.
            induction evs as [|[c1|c1|c1 w1] evs IH]; cbn in *;
              try (destruct Hin as [E|Hin]; [discriminate E|]; auto; fail);
              [contradiction|].
            apply andb_true_iff in Hrd. destruct Hrd as [Hr1 Hrd].
            destruct Hin as [E|Hin]; [|auto].
            injection E as -> ->. congruence.
          * destruct Hws as [->|(c0 & what0 & -> & _ & _ & Hmade)];
              [destruct Hin|].
            destruct Hin as [E|[]]. injection E as <- <-.
            apply in_or_app. right. apply in_or_app. left. exact Hmade. }
    destruct (handler t toolArgs rt) as [[e|r] rt']; exact Hgoal.
  - destruct p; cbn [call_inherited]; try exact H;
      destruct toolArgs; exact H.
  - exact H.
Qed.

Lemma serve_signed (requests : list (string * JsValue)) (rt : Runtime) :
  signed_writes (trace rt) ->
  signed_writes (trace (snd (serve requests rt))).
Proof.
  revert rt. induction requests as [|[toolName toolArgs] rest IH];
    intros rt H; [exact H|].
  cbn [Server.serve].
  pose proof (callTool_signed toolName toolArgs rt H) as H1.
  destruct (callTool toolName toolArgs rt) as [envelope rt1].
  cbn [snd] in H1. specialize (IH rt1 H1).
  destruct (serve rest rt1) as [envelopes rt2]. exact IH.
Qed.

(** X10.  Every client the process constructs, in any run of tool calls,
    talks to the resolved RPC url on the test chain.  A read client has no
    account; a signing client has the account derived from the configured
    private key. *)
Theorem clients_made_from_configuration (requests : list (string * JsValue))
    (w : World) :
  let rt := snd (serve requests (initial Account World w)) in
  forall c,
    (In (CreatePublicClient c) (trace rt) ->
     client_transport c = rpcUrl proc
     /\ client_chain c = testChain proc
     /\ client_account c = None)
    /\ (In (CreateWalletClient c) (trace rt) ->
        client_transport c = rpcUrl proc
        /\ client_chain c = testChain proc
        /\ exists account,
             client_account c = Some account
             /\ privateKeyToAccount (getPrivateKey proc) = inr account).
Proof.
  intros rt c.
  assert (H : signed_writes (trace rt)).
  { apply serve_signed. split; [constructor|]. intros c0 what []. }
  destruct H as [Hall _]. rewrite Forall_forall in Hall.
  split; intros Hin; specialize (Hall _ Hin); cbn in Hall;
    unfold made_here in Hall.
  - destruct Hall as [[Ht Hc] Ha]. repeat split; assumption.
  - destruct Hall as [[Ht Hc] Ha]. repeat split; assumption.
Qed.

(** X11.  In any run of tool calls, every writing call ([sendTransaction],
    [writeContract]) was made on a signing client, constructed in that run
    from the account of the configured private key; none is made on the
    read client. *)
Theorem writes_are_signed (requests : list (string * JsValue)) (w : World) :
  let rt := snd (serve requests (initial Account World w)) in
  forall c what,
    In (Call c what) (trace rt) -> is_read what = false ->
    In (CreateWalletClient c) (trace rt)
    /\ exists account,
         client_account c = Some account
         /\ privateKeyToAccount (getPrivateKey proc) = inr account.
Proof.
  intros rt c what Hin Hw.
  assert (H : signed_writes (trace rt)).
  { apply serve_signed. split; [constructor|]. intros c0 what0 []. }
  destruct H as [Hall Hsigned]. rewrite Forall_forall in Hall.
  pose proof (Hsigned c what Hin Hw) as Hmade.
  split; [exact Hmade|].
  specialize (Hall _ Hmade). cbn in Hall. apply Hall.
Qed.

(** X4.  [get_rpc_url], called at any point of a run and with any
    arguments, answers with the resolved RPC url and no error flag and
    touches nothing; the url it reports is the one every client of the
    run talks to, and the only RPC url of the chain those clients are
    on. *)
Theorem get_rpc_url_reports_endpoint (requests : list (string * JsValue))
    (w : World) (raw : JsValue) :
  let rt := snd (serve requests (initial Account World w)) in
  callTool "get_rpc_url" raw rt
  = ({| env_content := TextItems [rpcUrl proc];
        env_isError := JUndefined |}, rt)
  /\ forall c,
       In (CreatePublicClient c) (trace rt)
       \/ In (CreateWalletClient c) (trace rt) ->
       client_transport c = rpcUrl proc
       /\ rpcUrls_default_http (client_chain c) = [rpcUrl proc].
Proof.
  intros rt. split; [reflexivity|].
  assert (H : signed_writes (trace rt)).
  { apply serve_signed. split; [constructor|]. intros c0 what []. }
  destruct H as [Hall _]. rewrite Forall_forall in Hall.
  intros c [Hin|Hin]; specialize (Hall _ Hin); cbn in Hall;
    unfold made_here in Hall; destruct Hall as [[Ht Hc] _];
    rewrite Ht, Hc; split; reflexivity.
Qed.

Lemma assoc_In {A} (key : string) (l : list (string * A)) (a : A) :
  assoc key l = Some a -> In (key, a) l.
Proof.
  induction l as [|[k x] l IH]; [discriminate|].
  cbn [assoc]. destruct (String.eqb_spec k key) as [->|_].
  - intros E. injection E as ->. left. reflexivity.
  - intros E. right. exact (IH E).
Qed.

(** X3.  A tool name that is the name of a property of [Object.prototype]
    ([constructor], [toString], [valueOf], [hasOwnProperty], ...) is found
    on the prototype of [handlers], so it is not an unknown tool: the
    inherited property is called instead of a handler.  Whatever the
    arguments, the state is left as it was, and an error, if there is
    one, is the engine's and not the unknown-tool error.  For
    [constructor] called with an object, the envelope has the [content]
    and the [isError] of the arguments themselves. *)
Theorem inherited_names_are_called (toolName : string)
    (p : ObjectPrototypeProperty) (rawArgs : JsValue) (rt : Runtime) :
  assoc toolName Object_prototype = Some p ->
  handlers toolName = Some (Inherited p)
  /\ snd (callTool toolName rawArgs rt) = rt
  /\ (forall e, fst (handleTool toolName rawArgs rt) = inl e ->
                exists f, e = fault f)
  /\ (p = proto_constructor ->
      forall props,
        rawArgs = JObject props ->
        callTool toolName rawArgs rt
        = ({| env_content := OtherContent (get "content" props);
              env_isError := get "isError" props |}, rt)).
Proof.
  intros H. apply assoc_In in H. cbn [Object_prototype In] in H.
  repeat (destruct H as [H|H]; [injection H as <- <-|]); [..|contradiction];
    (split; [reflexivity|]);
    (split; [destruct rawArgs; reflexivity|]);
    (split;
     [intros e; unfold Server.handleTool; cbn;
      destruct rawArgs; cbn; intros E; try discriminate E;
      injection E as <-; eexists; reflexivity
     |intros Hp; try discriminate Hp; intros props ->; reflexivity]).
Qed.

(** X12.  For a registered tool, the envelope is flagged as an error
    exactly when the handler threw; when the handler responded, the
    envelope carries its content, one text item, and no error flag. *)
Theorem callTool_flags_failures_only (t : Tool) (raw : JsValue)
    (rt : Runtime) :
  let envelope := fst (callTool (tool_name t) raw rt) in
  (env_isError envelope = JBool true
   <-> exists e, fst (handler t raw rt) = inl e)
  /\ (forall resp,
        fst (handler t raw rt) = inr resp ->
        env_isError envelope = JUndefined
        /\ env_content envelope = TextItems (content resp)
        /\ exists text, content resp = [text])
  /\ snd (callTool (tool_name t) raw rt) = snd (handler t raw rt).
Proof.
  assert (Hown : handlers (tool_name t) = Some (OwnHandler t))
    by (destruct t; reflexivity).
  destruct (handler_run t raw rt) as (evs & ws & _ & _ & _ & _ & Hr).
  unfold Server.callTool, Server.handleTool. rewrite Hown.
  unfold bind, ret.
  destruct (handler t raw rt) as [[e|r] rt']; cbn [fst snd] in *.
  - split; [|split; [discriminate|reflexivity]].
    split; [eexists; reflexivity|reflexivity].
  - destruct (Hr r eq_refl) as [[text Htext] _]. clear Hr. subst r. cbn.
    split; [|split; [|reflexivity]].
    + split; [discriminate|]. intros [e He]. discriminate He.
    + intros resp E. injection E as <-. cbn.
      repeat split. exists text. reflexivity.
Qed.

(** ** The handlers one by one *)

(** X13.  [send_eth] with a usable key on a node that accepts the
    transaction: the handler constructs a signing client, converts the
    amount with 18 decimals, sends one transaction of that value to the
    recipient on that client, and returns the hash the node gave.  It
    neither constructs nor uses the read client. *)
Theorem send_eth_broadcast (to amount : string) (account : Account)
    (value : Z) (hash : string) (rt : Runtime) :
  privateKeyToAccount (getPrivateKey proc) = inr account ->
  Viem.parseEther amount = inr value ->
  (forall w c,
      fst (answer_hash node w c (SendTransaction (JString to) value))
      = inr hash) ->
  exists wallet rt',
    handler send_eth
      (JObject [("to", JString to); ("amountEth", JString amount)]%string) rt
    = (inr (text_response ("Transaction broadcast.  Hash: " ++ hash)%string),
       rt')
    /\ trace rt'
       = trace rt ++ [CreateWalletClient wallet;
                      Call wallet (SendTransaction (JString to) value)]
    /\ client_account wallet = Some account
    /\ _publicClient rt' = _publicClient rt.
Proof.
  intros Hacc Hval Hhash.
  cbn [Server.handler]. unfold handleSendEth, bind, validated.
  change (safeParse SendEthArgsSchema
            (JObject [("to", JString to); ("amountEth", JString amount)]%string))
    with (@inr (list ZodIssue) _
            [("to", JString to); ("amountEth", JString amount)]%string).
  unfold ret at 1. unfold getWalletClient. rewrite Hacc.
  change (get "amountEth"
            [("to", JString to); ("amountEth", JString amount)]%string)
    with (JString amount).
  change (get "to" [("to", JString to); ("amountEth", JString amount)]%string)
    with (JString to).
  unfold parseEther, parseUnits.
  unfold Viem.parseEther in Hval. rewrite Hval.
  unfold ret at 1. unfold call. cbn [world].
  match goal with
  | |- context [answer_hash node ?w ?c ?what] =>
      specialize (Hhash w c); destruct (answer_hash node w c what) as [r w']
  end.
  cbn [fst] in Hhash. subst r.
  eexists _, _. split; [reflexivity|]. cbn [trace _publicClient client_account].
  split; [rewrite <- app_assoc; reflexivity|]. split; reflexivity.
Qed.

(** X14.  [send_eth] with an amount that [parseEther] rejects: the handler
    fails with the error of [parseEther] after it constructed the signing
    client, and sends nothing. *)
Theorem send_eth_malformed_amount (to amount : string) (account : Account)
    (pe : Viem.parse_error) (rt : Runtime) :
  privateKeyToAccount (getPrivateKey proc) = inr account ->
  Viem.parseEther amount = inl pe ->
  exists wallet rt',
    handler send_eth
      (JObject [("to", JString to); ("amountEth", JString amount)]%string) rt
    = (inl (fault (ParseUnitsFault pe)), rt')
    /\ trace rt' = trace rt ++ [CreateWalletClient wallet]
    /\ calls_of (trace rt') = calls_of (trace rt).
Proof.
  intros Hacc Hval.
  cbn [Server.handler]. unfold handleSendEth, bind, validated.
  change (safeParse SendEthArgsSchema
            (JObject [("to", JString to); ("amountEth", JString amount)]%string))
    with (@inr (list ZodIssue) _
            [("to", JString to); ("amountEth", JString amount)]%string).
  unfold ret at 1. unfold getWalletClient. rewrite Hacc.
  change (get "amountEth"
            [("to", JString to); ("amountEth", JString amount)]%string)
    with (JString amount).
  unfold parseEther, parseUnits.
  unfold Viem.parseEther in Hval. rewrite Hval. unfold throw.
  eexists _, _. split; [reflexivity|]. cbn [trace].
  split; [reflexivity|].
  rewrite calls_of_app. cbn [calls_of]. apply app_nil_r.
Qed.

(** One ERC-20 write that stops before the write: the [decimals()] read
    failed, or the amount does not convert. *)
Lemma erc20_write_stops_run
    (run : JsValue -> Runtime -> (Exn + ToolResponse) * Runtime)
    (schema : ZodObject) (field fn prefix : string)
    (token recipient amount : string) (account : Account)
    (d : Exn + nat) (e : Exn) (rt : Runtime) :
  (forall rawArgs rt0,
      run rawArgs rt0
      = bind Account World (validated Account World schema rawArgs)
          (fun parsed =>
           bind Account World
             (getWalletClient Account World privateKeyToAccount proc
                (getPrivateKey proc))
             (fun wallet =>
              bind Account World getPublicClient
                (fun client =>
                 bind Account World
                   (call Account World (answer_number node) client
                      (ReadContract (get "tokenAddress" parsed) erc20Abi
                         (JString "decimals") JUndefined))
                   (fun decimals =>
                    bind Account World
                      (parseUnits Account World fault (get "amount" parsed)
                         decimals)
                      (fun amountRaw =>
                       bind Account World
                         (call Account World (answer_hash node) wallet
                            (WriteContract (get "tokenAddress" parsed)
                               erc20Abi fn
                               [get field parsed; JBigInt amountRaw]))
                         (fun hash =>
                          ret Account World
                            (text_response (prefix ++ hash)%string)))))))
          rt0) ->
  safeParse schema
    (JObject [("tokenAddress", JString token); (field, JString recipient);
              ("amount", JString amount)]%string)
  = inr [("tokenAddress", JString token); (field, JString recipient);
         ("amount", JString amount)]%string ->
  get "amount" [("tokenAddress", JString token); (field, JString recipient);
                ("amount", JString amount)]%string = JString amount ->
  privateKeyToAccount (getPrivateKey proc) = inr account ->
  (forall w c,
      fst (answer_number node w c
             (ReadContract (JString token) erc20Abi (JString "decimals")
                JUndefined)) = d) ->
  match d with
  | inl thrown => e = thrown
  | inr D =>
      exists pe,
        Viem.parseUnits amount D = inl pe /\ e = fault (ParseUnitsFault pe)
  end ->
  exists rt',
    run (JObject [("tokenAddress", JString token); (field, JString recipient);
                  ("amount", JString amount)]%string) rt
    = (inl e, rt')
    /\ calls_of (trace rt')
       = calls_of (trace rt)
         ++ [ReadContract (JString token) erc20Abi (JString "decimals")
               JUndefined].
Proof.
  intros Hrun Hparse Hamt Hacc Hdec Hstop.
  rewrite Hrun. unfold bind, validated. rewrite Hparse.
  unfold ret at 1. cbv beta iota.
  unfold getWalletClient. rewrite Hacc.
  match goal with
  | |- context [getPublicClient ?st] =>
      destruct (getPublicClient_spec st) as (c & rt2 & Hc & _ & _ & Hcalls);
      rewrite Hc
  end.
  cbn [trace] in Hcalls. rewrite calls_of_app in Hcalls.
  cbn [calls_of] in Hcalls. rewrite app_nil_r in Hcalls.
  change (get "tokenAddress"
            [("tokenAddress", JString token); (field, JString recipient);
             ("amount", JString amount)]%string) with (JString token).
  rewrite Hamt.
  unfold call at 1.
  specialize (Hdec (world rt2) c).
  destruct (answer_number node (world rt2) c
              (ReadContract (JString token) erc20Abi (JString "decimals")
                 JUndefined)) as [r1 w1].
  cbn [fst] in Hdec. subst d.
  destruct r1 as [thrown|D].
  - subst e. eexists. split; [reflexivity|]. cbn [trace].
    rewrite calls_of_app, Hcalls. reflexivity.
  - destruct Hstop as (pe & Hpe & ->).
    unfold parseUnits. rewrite Hpe. unfold throw.
    eexists. split; [reflexivity|]. cbn [trace].
    rewrite calls_of_app, Hcalls. reflexivity.
Qed.

(** X15.  [erc20_transfer] and [erc20_approve] send nothing unless the
    [decimals()] read answered and the amount converts with that many
    decimals: if the read fails the handler fails with its error, if the
    amount does not convert it fails with the error of [parseUnits], and
    either way the read of [decimals()] is the only call made. *)
Theorem erc20_write_not_sent (token recipient amount : string)
    (account : Account) (d : Exn + nat) (e : Exn) (rt : Runtime) :
  privateKeyToAccount (getPrivateKey proc) = inr account ->
  (forall w c,
      fst (answer_number node w c
             (ReadContract (JString token) erc20Abi (JString "decimals")
                JUndefined)) = d) ->
  match d with
  | inl thrown => e = thrown
  | inr D =>
      exists pe,
        Viem.parseUnits amount D = inl pe /\ e = fault (ParseUnitsFault pe)
  end ->
  (exists rt',
      handler erc20_transfer
        (JObject [("tokenAddress", JString token); ("to", JString recipient);
                  ("amount", JString amount)]%string) rt
      = (inl e, rt')
      /\ calls_of (trace rt')
         = calls_of (trace rt)
           ++ [ReadContract (JString token) erc20Abi (JString "decimals")
                 JUndefined])
  /\ (exists rt',
        handler erc20_approve
          (JObject [("tokenAddress", JString token);
                    ("spender", JString recipient);
                    ("amount", JString amount)]%string) rt
        = (inl e, rt')
        /\ calls_of (trace rt')
           = calls_of (trace rt)
             ++ [ReadContract (JString token) erc20Abi (JString "decimals")
                   JUndefined]).
Proof.
  intros Hacc Hdec Hstop. split.
  - apply (erc20_write_stops_run (handler erc20_transfer)
             Erc20TransferArgsSchema "to" "transfer"
             "Transfer submitted. Tx hash: "
             token recipient amount account d e rt);
      try assumption; reflexivity.
  - apply (erc20_write_stops_run (handler erc20_approve)
             Erc20ApproveArgsSchema "spender" "approve"
             "Approve transaction broadcast. Tx hash: "
             token recipient amount account d e rt);
      try assumption; reflexivity.
Qed.

(** X16.  A write tool whose arguments parse, run with a private key that
    [privateKeyToAccount] rejects, fails with the error of
    [privateKeyToAccount]: no client is constructed, nothing is asked of
    the chain, the state is as before. *)
Theorem write_tool_rejected_key (t : Tool) (raw : JsValue)
    (data : list (string * JsValue)) (e : Exn) (rt : Runtime) :
  is_write_tool t = true ->
  safeParse (argsSchema t) raw = inr data ->
  privateKeyToAccount (getPrivateKey proc) = inl e ->
  handler t raw rt = (inl e, rt).
Proof.
  intros Ht Hparse He.
  destruct t; try discriminate Ht;
    cbn [Server.handler argsSchema] in *;
    unfold handleSendEth, handleErc20Transfer, handleErc20Approve, bind,
      validated;
    rewrite Hparse; unfold ret, getWalletClient; rewrite He; reflexivity.
Qed.

(** X17.  [call_contract] with an [abi] string that [JSON.parse] rejects
    fails with the error of [JSON.parse], before a client is asked for:
    the state is as before. *)
Theorem call_contract_unparsable_abi (address text functionName : string)
    (e : Exn) (rt : Runtime) :
  JSON_parse text = inl e ->
  handler call_contract
    (JObject [("address", JString address); ("abi", JString text);
              ("functionName", JString functionName)]%string) rt
  = (inl e, rt).
Proof.
  intros H.
  cbn [Server.handler]. unfold handleCallContract, bind, validated.
  change (safeParse CallContractArgsSchema
            (JObject [("address", JString address); ("abi", JString text);
                      ("functionName", JString functionName)]%string))
    with (@inr (list ZodIssue) _
            [("address", JString address); ("abi", JString text);
             ("functionName", JString functionName);
             ("args", JArray [])]%string).
  unfold ret at 1.
  change (get "abi"
            [("address", JString address); ("abi", JString text);
             ("functionName", JString functionName);
             ("args", JArray [])]%string)
    with (JString text).
  cbv beta iota. rewrite H. reflexivity.
Qed.

(** X18.  The schema of [call_contract] asks for neither [abi] nor
    [args], but the handler reads only through an ABI that holds a [view]
    or [pure] function.  Without [abi] the arguments pass validation, the
    read client is obtained, and [getContract] throws a [TypeError] over
    the ABI [undefined], which is not iterable.  With a structured ABI
    that cannot be walked the handler fails likewise; with one that holds
    no such function, [contract.read] is undefined and indexing it throws.
    In all these cases nothing is asked of the client.  With an ABI that
    holds such a function and no [args], the read is made with the empty
    argument list: its error is thrown as it is, its result returned as
    JSON text. *)
Theorem call_contract_reads_through_abi (address functionName : string)
    (abi : JsValue) (rt : Runtime) :
  is_string abi = false ->
  exists c rt1,
    getPublicClient rt = (inr c, rt1)
    /\ calls_of (trace rt1) = calls_of (trace rt)
    /\ handler call_contract
         (JObject [("address", JString address);
                   ("functionName", JString functionName)]%string) rt
       = (inl (fault (NotIterableFault JUndefined)), rt1)
    /\ handler call_contract
         (JObject [("address", JString address); ("abi", abi);
                   ("functionName", JString functionName)]%string) rt
       = match getContract_read abi with
         | inl f => (inl (fault f), rt1)
         | inr false =>
             (inl (fault (PropertyOfNullishFault (JString functionName)
                            JUndefined)), rt1)
         | inr true =>
             let (r, rt2) :=
               call Account World (answer_value node) c
                 (ReadContract (JString address) (UserAbi abi)
                    (JString functionName) (JArray [])) rt1 in
             (match r with
              | inr result => inr (text_response (JSON_stringify result))
              | inl e => inl e
              end, rt2)
         end.
Proof.
  intros Hstr.
  destruct (getPublicClient_spec rt) as (c & rt1 & Hc & _ & _ & Hcalls).
  exists c, rt1. split; [exact Hc|]. split; [exact Hcalls|]. split.
  - cbn [Server.handler]. unfold handleCallContract, bind, validated.
    change (safeParse CallContractArgsSchema
              (JObject [("address", JString address);
                        ("functionName", JString functionName)]%string))
      with (@inr (list ZodIssue) _
              [("address", JString address);
               ("functionName", JString functionName);
               ("args", JArray [])]%string).
    unfold ret at 1.
    change (get "abi"
              [("address", JString address);
               ("functionName", JString functionName);
               ("args", JArray [])]%string)
      with JUndefined.
    cbv beta iota. unfold ret at 1. rewrite Hc. reflexivity.
  - assert (Hparse :
      safeParse CallContractArgsSchema
        (JObject [("address", JString address); ("abi", abi);
                  ("functionName", JString functionName)]%string)
      = inr [("address", JString address); ("abi", abi);
             ("functionName", JString functionName);
             ("args", JArray [])]%string)
      by (destruct abi; try discriminate Hstr; reflexivity).
    cbn [Server.handler]. unfold handleCallContract, bind, validated.
    rewrite Hparse. unfold ret at 1.
    change (get "abi"
              [("address", JString address); ("abi", abi);
               ("functionName", JString functionName);
               ("args", JArray [])]%string)
      with abi.
    change (get "address"
              [("address", JString address); ("abi", abi);
               ("functionName", JString functionName);
               ("args", JArray [])]%string)
      with (JString address).
    change (get "functionName"
              [("address", JString address); ("abi", abi);
               ("functionName", JString functionName);
               ("args", JArray [])]%string)
      with (JString functionName).
    change (get "args"
              [("address", JString address); ("abi", abi);
               ("functionName", JString functionName);
               ("args", JArray [])]%string)
      with (JArray []).
    assert (Habi : match abi with
                   | JString text =>
                       match JSON_parse text with
                       | inl e => throw Account World e
                       | inr v => ret Account World v
                       end
                   | _ => ret Account World abi
                   end = ret Account World abi)
      by (destruct abi; try discriminate Hstr; reflexivity).
    rewrite Habi. unfold ret at 1. rewrite Hc.
    destruct (getContract_read abi) as [f|[|]]; try reflexivity.
    unfold ret at 1.
    destruct (call Account World (answer_value node) c
                (ReadContract (JString address) (UserAbi abi)
                   (JString functionName) (JArray [])) rt1) as [[e|v] rt2];
      reflexivity.
Qed.

(** X19.  [get_eth_balance] without a [unit], or with [unit] undefined,
    is [get_eth_balance] with the unit ["ether"]. *)
Theorem get_eth_balance_default_unit (props : list (string * JsValue))
    (rt : Runtime) :
  get "unit" props = JUndefined ->
  handler get_eth_balance (JObject props) rt
  = handler get_eth_balance
      (JObject (("unit"%string, JString "ether") :: props)) rt.
Proof.
  intros H. apply handler_parsed.
  cbn [argsSchema safeParse]. unfold GetEthBalanceArgsSchema, describe.
  cbn [parse_shape]. rewrite !get_cons.
  change (String.eqb "unit" "address") with false.
  change (String.eqb "unit" "unit") with true. cbv beta iota.
  rewrite H. cbn [parse existsb String.eqb Ascii.eqb Bool.eqb orb].
  destruct (get "address" props); reflexivity.
Qed.

(** X20.  [get_eth_balance] with a [unit] that is neither undefined nor
    one of ["wei"], ["ether"], ["gwei"] fails validation, with an issue at
    [unit], and nothing is asked of the chain: [null] and other strings
    are refused like anything else. *)
Theorem get_eth_balance_invalid_unit (props : list (string * JsValue))
    (v : JsValue) (rt : Runtime) :
  get "unit" props = v ->
  v <> JUndefined ->
  (forall u, In u ["wei"; "ether"; "gwei"]%string -> v <> JString u) ->
  exists issues,
    handler get_eth_balance (JObject props) rt = (inl (ZodError issues), rt)
    /\ In (match v with
           | JString s =>
               invalid_enum_value ["wei"; "ether"; "gwei"]%string s
                 [Key "unit"]
           | _ =>
               invalid_type "'wei' | 'ether' | 'gwei'" (getParsedType v)
                 [Key "unit"]
           end) issues.
Proof.
  intros Hget Hdef Hnot.
  assert (Hp : parse (ZodDefault
                        (ZodOptional (ZodEnum ["wei"; "ether"; "gwei"]%string))
                        (JString "ether")) [Key "unit"] (get "unit" props)
               = inl [match v with
                      | JString s =>
                          invalid_enum_value ["wei"; "ether"; "gwei"]%string s
                            [Key "unit"]
                      | _ =>
                          invalid_type "'wei' | 'ether' | 'gwei'"
                            (getParsedType v) [Key "unit"]
                      end]).
  { rewrite Hget. destruct v; try reflexivity; [congruence|].
    cbn [parse existsb].
    destruct (String.eqb_spec s "wei") as [->|_];
      [exfalso; apply (Hnot "wei"%string); [left|]; reflexivity|].
    destruct (String.eqb_spec s "ether") as [->|_];
      [exfalso; apply (Hnot "ether"%string); [right; left|]; reflexivity|].
    destruct (String.eqb_spec s "gwei") as [->|_];
      [exfalso; apply (Hnot "gwei"%string); [right; right; left|];
       reflexivity|].
    reflexivity. }
  destruct (parse_shape_issue GetEthBalanceArgsSchema props "unit"%string
              _ _ (or_intror (or_introl eq_refl)) Hp)
    as (all & Hall & Hincl).
  exists all. split.
  - apply handler_invalid; [discriminate|exact Hall].
  - apply Hincl. left. reflexivity.
Qed.

(** X21.  [erc20_allowance] on a node that reports the allowance [A] and
    the decimals [D]: the handler reads [allowance(owner, spender)] and
    then [decimals()] of the token, both on the read client, and the text
    is the formatted allowance, [" tokens ("], the raw allowance and
    [" raw)"], as for a balance. *)
Theorem erc20_allowance_text (token owner spender : string) (A : Z) (D : nat)
    (rt : Runtime) :
  (forall w c,
      fst (answer_bigint node w c
             (ReadContract (JString token) erc20Abi (JString "allowance")
                (JArray [JString owner; JString spender]))) = inr A) ->
  (forall w c,
      fst (answer_number node w c
             (ReadContract (JString token) erc20Abi (JString "decimals")
                JUndefined)) = inr D) ->
  exists rt',
    handler erc20_allowance
      (JObject [("tokenAddress", JString token); ("owner", JString owner);
                ("spender", JString spender)]%string) rt
    = (inr (text_response
              (Viem.formatUnits A D ++ " tokens ("
                 ++ to_string (bigint_toString A) ++ " raw)")%string), rt')
    /\ calls_of (trace rt')
       = calls_of (trace rt)
         ++ [ReadContract (JString token) erc20Abi (JString "allowance")
               (JArray [JString owner; JString spender]);
             ReadContract (JString token) erc20Abi (JString "decimals")
               JUndefined]
    /\ (forall c, In c (readers (trace rt')) ->
                  In c (readers (trace rt)) \/ _publicClient rt' = Some c).
Proof.
  intros Hal Hdec.
  cbn [Server.handler]. unfold handleErc20Allowance, bind, validated.
  change (safeParse Erc20AllowanceArgsSchema
            (JObject [("tokenAddress", JString token);
                      ("owner", JString owner);
                      ("spender", JString spender)]%string))
    with (@inr (list ZodIssue) _
            [("tokenAddress", JString token); ("owner", JString owner);
             ("spender", JString spender)]%string).
  unfold ret at 1.
  destruct (getPublicClient_spec rt) as (c & rt1 & Hc & Hcached & _ & Hcalls).
  rewrite Hc.
  assert (Hreaders : readers (trace rt1) = readers (trace rt)).
  { clear - Hc. unfold Server.getPublicClient in Hc.
    destruct (_publicClient rt).
    - injection Hc as _ <-. reflexivity.
    - injection Hc as _ <-. cbn [trace]. rewrite readers_app. cbn.
      apply app_nil_r. }
  unfold Promise_all, call.
  change (get "tokenAddress"
            [("tokenAddress", JString token); ("owner", JString owner);
             ("spender", JString spender)]%string)
    with (JString token).
  change (get "owner"
            [("tokenAddress", JString token); ("owner", JString owner);
             ("spender", JString spender)]%string)
    with (JString owner).
  change (get "spender"
            [("tokenAddress", JString token); ("owner", JString owner);
             ("spender", JString spender)]%string)
    with (JString spender).
  specialize (Hal (world rt1) c).
  destruct (answer_bigint node (world rt1) c
              (ReadContract (JString token) erc20Abi (JString "allowance")
                 (JArray [JString owner; JString spender]))) as [r1 w1].
  cbn [fst] in Hal. subst r1. cbn [world].
  specialize (Hdec w1 c).
  destruct (answer_number node w1 c
              (ReadContract (JString token) erc20Abi (JString "decimals")
                 JUndefined)) as [r2 w2].
  cbn [fst] in Hdec. subst r2.
  eexists. split; [reflexivity|]. cbn [trace _publicClient]. split.
  - rewrite !calls_of_app, Hcalls, <- app_assoc. reflexivity.
  - intros c0. rewrite !readers_app, Hreaders. cbn.
    intros Hin. apply in_app_or in Hin. destruct Hin as [Hin|Hin].
    + apply in_app_or in Hin. destruct Hin as [Hin|[<-|[]]];
        [left; exact Hin|right; exact Hcached].
    + destruct Hin as [<-|[]]. right. exact Hcached.
Qed.

(** X22.  Arguments that are no object (none at all, [null], a string,
    an array, ...) fail the validation of every tool but [get_rpc_url],
    with the one issue that an object was expected; the state is as
    before. *)
Theorem non_object_arguments_rejected (t : Tool) (raw : JsValue)
    (rt : Runtime) :
  t <> get_rpc_url ->
  (forall props, raw <> JObject props) ->
  handler t raw rt
  = (inl (ZodError [invalid_type "object" (getParsedType raw) []]), rt).
Proof.
  intros Ht Hraw. apply handler_invalid; [exact Ht|].
  destruct raw; try reflexivity. exfalso. exact (Hraw _ eq_refl).
Qed.

End WithCollaborators.

(** ** The claims on the local node *)



(** C2 as stated fails: [get_eth_balance] with the address ["hello"]
    passes validation, and [getBalance] is called with that address. *)
Lemma get_eth_balance_malformed_address :
  ~ (forall (t : Tool) (key s : string) (props : list (string * JsValue)),
        In key (address_fields t) ->
        get key props = JString s ->
        is_hex_address s = false ->
        exists issues rt',
          Scenario.handler Scenario.read_only t (JObject props) Scenario.start
          = (inl (ZodError issues), rt')
          /\ calls_of (trace rt') = []).
Proof.
  intros H.
  destruct (H get_eth_balance "address"%string "hello"%string
              [("address", JString "hello")]%string
              (or_introl eq_refl) eq_refl eq_refl)
    as (issues & rt' & Hr & _).
  vm_compute in Hr. discriminate Hr.
Qed.

(** C2 on the local node: [get_eth_balance] without an address. *)
Lemma address_field_validation_witness :
  In "address"%string (address_fields get_eth_balance)
  /\ is_string (get "address" []) = false
  /\ exists issues,
       Scenario.handler Scenario.read_only get_eth_balance (JObject [])
         Scenario.start
       = (inl (ZodError issues), Scenario.start)
       /\ In (invalid_type "string" PUndefined [Key "address"]) issues.
Proof.
  split; [left; reflexivity|]. split; [reflexivity|].
  exact (proj1 (address_field_validation Scenario.Account Scenario.World
                  Scenario.privateKeyToAccount Scenario.node
                  Scenario.JSON_parse Scenario.JSON_stringify Scenario.fault
                  Scenario.read_only get_eth_balance "address"%string []
                  Scenario.start (or_introl eq_refl))
               eq_refl).
Defined.

(** C3 on the local node: a tool that does not exist. *)
Lemma callTool_catches_witness :
  Scenario.handleTool Scenario.read_only "nope" JUndefined Scenario.start
  = (inl (ErrorObject "Error" "Unknown tool: nope"), Scenario.start)
  /\ Scenario.callTool Scenario.read_only "nope" JUndefined Scenario.start
     = ({| env_content := TextItems ["Error: Unknown tool: nope"%string];
           env_isError := JBool true |}, Scenario.start).
Proof.
  split; [reflexivity|].
  exact (callTool_catches Scenario.Account Scenario.World
           Scenario.privateKeyToAccount Scenario.node Scenario.JSON_parse
           Scenario.JSON_stringify Scenario.fault Scenario.ZodError_message
           Scenario.String_of Scenario.read_only "nope"%string JUndefined
           Scenario.start Scenario.start
           (ErrorObject "Error" "Unknown tool: nope") eq_refl).
Defined.

(** C5 on the local node: the balance of the zero address, in ether. *)
Lemma get_eth_balance_exact_witness :
  (forall w c,
      fst (answer_bigint Scenario.node w c
             (GetBalance (JString "0x0000000000000000000000000000000000000000")))
      = inr (10000 * 10 ^ 18))
  /\ In ("ether"%string, 18%nat) [("wei", 0); ("gwei", 9); ("ether", 18)]%string%nat
  /\ exists text,
       fst (Scenario.handler Scenario.read_only get_eth_balance
              (JObject [("address",
                         JString "0x0000000000000000000000000000000000000000");
                        ("unit", JString "ether")]%string)
              Scenario.start)
       = inr (text_response text)
       /\ Decimal.denotes text
            (inject_Z (10000 * 10 ^ 18) / inject_Z (10 ^ Z.of_nat 18))
       /\ ("ether"%string = "wei"%string ->
           text = to_string (bigint_toString (10000 * 10 ^ 18)))
       /\ ("ether"%string = "ether"%string ->
           10000 * 10 ^ 18 = 10000 * 10 ^ 18 -> text = "10000"%string).
Proof.
  split; [reflexivity|]. split; [simpl; tauto|].
  exact (get_eth_balance_exact Scenario.Account Scenario.World
           Scenario.privateKeyToAccount Scenario.node Scenario.JSON_parse
           Scenario.JSON_stringify Scenario.fault Scenario.read_only
           "0x0000000000000000000000000000000000000000"%string
           (10000 * 10 ^ 18) Scenario.start "ether"%string 18%nat
           (fun _ _ => eq_refl)
           (or_intror (or_intror (or_introl eq_refl)))).
Defined.

(** C7 on the local node: a transfer of 1.5 tokens. *)
Lemma erc20_write_sequence_witness :
  Scenario.privateKeyToAccount (getPrivateKey Scenario.signing)
  = inr "0x01"%string
  /\ Viem.parseUnits "1.5" 6 = inr 1500000
  /\ exists rt',
       Scenario.handler Scenario.signing erc20_transfer
         (JObject [("tokenAddress", JString "0xtoken"); ("to", JString "0xto");
                   ("amount", JString "1.5")]%string) Scenario.start
       = (inr (text_response "Transfer submitted. Tx hash: 0xabc"), rt')
       /\ calls_of (trace rt')
          = calls_of (trace Scenario.start)
            ++ [ReadContract (JString "0xtoken") erc20Abi (JString "decimals")
                  JUndefined;
                WriteContract (JString "0xtoken") erc20Abi "transfer"
                  [JString "0xto"; JBigInt 1500000]].
Proof.
  split; [reflexivity|]. split; [reflexivity|].
  exact (proj1 (erc20_write_sequence Scenario.Account Scenario.World
                  Scenario.privateKeyToAccount Scenario.node
                  Scenario.JSON_parse Scenario.JSON_stringify Scenario.fault
                  Scenario.signing "0xtoken"%string "0xto"%string
                  "1.5"%string "0x01"%string
                  6%nat 1500000 "0xabc"%string Scenario.start
                  eq_refl (fun _ _ => eq_refl) eq_refl
                  (fun _ _ _ => eq_refl))).
Defined.

(** C8 on the local node: the ABI of one [view] function, as JSON text
    and as the array the text parses to.  The contract object has a
    [read] member, the read is made, and the result is returned. *)
Lemma call_contract_abi_forms_witness :
  Scenario.JSON_parse Scenario.view_abi_text = inr Scenario.view_abi
  /\ is_string Scenario.view_abi = false
  /\ getContract_read Scenario.view_abi = inr true
  /\ fst (Scenario.handler Scenario.read_only call_contract
            (JObject [("abi", JString Scenario.view_abi_text);
                      ("address",
                       JString "0x000000000000000000000000000000000000dead");
                      ("functionName", JString "f")]%string) Scenario.start)
     = inr (text_response "[]")
  /\ calls_of
       (trace
          (snd (Scenario.handler Scenario.read_only call_contract
                  (JObject [("abi", JString Scenario.view_abi_text);
                            ("address",
                             JString "0x000000000000000000000000000000000000dead");
                            ("functionName", JString "f")]%string)
                  Scenario.start)))
     = [ReadContract (JString "0x000000000000000000000000000000000000dead")
          (UserAbi Scenario.view_abi) (JString "f") (JArray [])]
  /\ Scenario.handler Scenario.read_only call_contract
       (JObject [("abi", JString Scenario.view_abi_text);
                 ("address",
                  JString "0x000000000000000000000000000000000000dead");
                 ("functionName", JString "f")]%string) Scenario.start
     = Scenario.handler Scenario.read_only call_contract
         (JObject [("abi", Scenario.view_abi);
                   ("address",
                    JString "0x000000000000000000000000000000000000dead");
                   ("functionName", JString "f")]%string) Scenario.start.
Proof.
  split; [reflexivity|]. split; [reflexivity|]. split; [reflexivity|].
  split; [reflexivity|]. split; [reflexivity|].
  exact (call_contract_abi_forms Scenario.Account Scenario.World
           Scenario.privateKeyToAccount Scenario.node Scenario.JSON_parse
           Scenario.JSON_stringify Scenario.fault Scenario.read_only
           Scenario.view_abi_text Scenario.view_abi
           [("address", JString "0x000000000000000000000000000000000000dead");
            ("functionName", JString "f")]%string
           Scenario.start eq_refl eq_refl).
Defined.


(** The unknown-tool error on the local node. *)
Lemma handleTool_unknown_witness :
  ~ In "nope"%string (map tool_name all_tools)
  /\ ~ In "nope"%string (map fst Object_prototype)
  /\ Scenario.handleTool Scenario.read_only "nope" JNull Scenario.start
     = (inl (ErrorObject "Error" "Unknown tool: nope"), Scenario.start).
Proof.
  assert (H1 : ~ In "nope"%string (map tool_name all_tools))
    by (simpl; intuition discriminate).
  assert (H2 : ~ In "nope"%string (map fst Object_prototype))
    by (simpl; intuition discriminate).
  split; [exact H1|]. split; [exact H2|].
  exact (handleTool_unknown Scenario.Account Scenario.World
           Scenario.privateKeyToAccount Scenario.node Scenario.JSON_parse
           Scenario.JSON_stringify Scenario.fault Scenario.read_only
           "nope"%string JNull Scenario.start H1 H2).
Defined.

(** The token balance on the local node. *)
Lemma get_erc20_balance_text_witness :
  fst (Scenario.handler Scenario.read_only get_erc20_balance
         (JObject [("tokenAddress", JString "0xtoken");
                   ("accountAddress", JString "0xme")]%string)
         Scenario.start)
  = inr (text_response "1.5 tokens (1500000 raw)").
Proof.
  exact (proj1 (get_erc20_balance_text Scenario.Account Scenario.World
                  Scenario.privateKeyToAccount Scenario.node
                  Scenario.JSON_parse Scenario.JSON_stringify Scenario.fault
                  Scenario.read_only "0xtoken"%string "0xme"%string
                  1500000 6%nat Scenario.start
                  (fun _ _ => eq_refl) (fun _ _ => eq_refl))).
Defined.

(** Invalid arguments on the local node: [erc20_allowance] on nothing. *)
Lemma invalid_arguments_reported_witness :
  erc20_allowance <> get_rpc_url
  /\ safeParse (argsSchema erc20_allowance) JUndefined
     = inl [invalid_type "object" PUndefined []]
  /\ Scenario.callTool Scenario.read_only "erc20_allowance" JUndefined
       Scenario.start
     = ({| env_content := TextItems ["Error: invalid arguments"%string];
           env_isError := JBool true |}, Scenario.start).
Proof.
  assert (H : erc20_allowance <> get_rpc_url) by discriminate.
  split; [exact H|]. split; [reflexivity|].
  exact (invalid_arguments_reported Scenario.Account Scenario.World
           Scenario.privateKeyToAccount Scenario.node Scenario.JSON_parse
           Scenario.JSON_stringify Scenario.fault Scenario.ZodError_message
           Scenario.String_of Scenario.read_only
           erc20_allowance JUndefined [invalid_type "object" PUndefined []]
           Scenario.start H eq_refl).
Defined.

(** Two signing clients on the local node. *)
Lemma getWalletClient_fresh_witness :
  Scenario.privateKeyToAccount (Some "0x01"%string) = inr "0x01"%string
  /\ exists c1 c2 rt1 rt2,
       getWalletClient Scenario.Account Scenario.World
         Scenario.privateKeyToAccount Scenario.signing (Some "0x01"%string)
         Scenario.start = (inr c1, rt1)
       /\ getWalletClient Scenario.Account Scenario.World
            Scenario.privateKeyToAccount Scenario.signing (Some "0x01"%string)
            rt1 = (inr c2, rt2)
       /\ client_id c1 <> client_id c2
       /\ client_account c1 = Some "0x01"%string
       /\ client_account c2 = Some "0x01"%string
       /\ trace rt2
          = trace Scenario.start
            ++ [CreateWalletClient c1; CreateWalletClient c2]
       /\ _publicClient rt2 = _publicClient Scenario.start.
Proof.
  split; [reflexivity|].
  exact (getWalletClient_fresh Scenario.Account Scenario.World
           Scenario.privateKeyToAccount Scenario.signing
           (Some "0x01"%string) "0x01"%string Scenario.start eq_refl).
Defined.

(** ** What validation guarantees *)

Lemma declared_keys_NoDup (t : Tool) : NoDup (declared_keys t).
Proof.
  destruct t; repeat constructor; simpl; intuition discriminate.
Qed.

(** X23.  Arguments that pass validation are an object, and the parsed
    data has the types the schema states: every string field holds the
    string that was given, the [unit] of [get_eth_balance] is one of
    ["wei"], ["ether"], ["gwei"], and the [args] of [call_contract] are an
    array.  So the amount a handler converts is a string. *)
Theorem validated_fields_typed (t : Tool) (raw : JsValue)
    (data : list (string * JsValue)) :
  safeParse (argsSchema t) raw = inr data ->
  exists props,
    raw = JObject props
    /\ (forall key, In (key, ZodString) (argsSchema t) ->
          exists s, get key props = JString s /\ get key data = JString s)
    /\ (t = get_eth_balance ->
        exists u, In u ["wei"; "ether"; "gwei"]%string
                  /\ get "unit" data = JString u)
    /\ (t = call_contract -> exists items, get "args" data = JArray items).
Proof.
  intros H. destruct raw as [| | | | | | |props]; try discriminate H.
  exists props. split; [reflexivity|].
  cbn [safeParse] in H.
  assert (Hfield : forall key ty, In (key, ty) (argsSchema t) ->
            exists v, parse ty [Key key] (get key props) = inr v
                      /\ get key data = v).
  { intros key ty Hin.
    destruct (parse_shape_field _ _ _ key ty H Hin) as [v Hv].
    exists v. split; [exact Hv|].
    exact (parse_shape_get _ _ key ty data v (declared_keys_NoDup t) Hin H Hv). }
  split; [|split].
  - intros key Hin. destruct (Hfield key ZodString Hin) as (v & Hv & Hd).
    cbn [parse] in Hv. destruct (get key props); try discriminate Hv.
    injection Hv as <-. eexists. split; [reflexivity|exact Hd].
  - intros ->.
    destruct (Hfield "unit"%string _ (or_intror (or_introl eq_refl)))
      as (v & Hv & Hd).
    rewrite Hd. clear Hd H Hfield.
    destruct (get "unit" props); try discriminate Hv.
    + injection Hv as <-. exists "ether"%string.
      split; [right; left; reflexivity|reflexivity].
    + cbn [parse] in Hv.
      destruct (existsb (String.eqb s) ["wei"; "ether"; "gwei"]%string)
        eqn:E; [|discriminate Hv].
      injection Hv as <-. exists s. split; [|reflexivity].
      apply existsb_exists in E. destruct E as (u & Hu & Heq).
      apply String.eqb_eq in Heq. subst u. exact Hu.
  - intros ->.
    destruct (Hfield "args"%string _
                (or_intror (or_intror (or_intror (or_introl eq_refl)))))
      as (v & Hv & Hd).
    rewrite Hd. clear Hd H Hfield. unfold describe in Hv.
    destruct (get "args" props); try discriminate Hv.
    + injection Hv as <-. exists []. reflexivity.
    + cbn [parse] in Hv.
      match type of Hv with
      | match ?x with _ => _ end = _ => destruct x; [discriminate Hv|]
      end.
      injection Hv as <-. eexists. reflexivity.
Qed.

(** X23 on the arguments of a transfer of ether. *)
Lemma validated_fields_typed_witness :
  safeParse (argsSchema send_eth)
    (JObject [("to", JString "0xto"); ("amountEth", JString "0.01");
              ("memo", JNumber 7)]%string)
  = inr [("to", JString "0xto"); ("amountEth", JString "0.01")]%string
  /\ exists props,
       JObject [("to", JString "0xto"); ("amountEth", JString "0.01");
                ("memo", JNumber 7)]%string = JObject props
       /\ (forall key, In (key, ZodString) (argsSchema send_eth) ->
             exists s,
               get key props = JString s
               /\ get key [("to", JString "0xto");
                           ("amountEth", JString "0.01")]%string = JString s)
       /\ (send_eth = get_eth_balance ->
           exists u, In u ["wei"; "ether"; "gwei"]%string
                     /\ get "unit" [("to", JString "0xto");
                                    ("amountEth", JString "0.01")]%string
                        = JString u)
       /\ (send_eth = call_contract ->
           exists items,
             get "args" [("to", JString "0xto");
                         ("amountEth", JString "0.01")]%string
             = JArray items).
Proof.
  split; [reflexivity|].
  exact (validated_fields_typed send_eth
           (JObject [("to", JString "0xto"); ("amountEth", JString "0.01");
                     ("memo", JNumber 7)]%string)
           [("to", JString "0xto"); ("amountEth", JString "0.01")]%string
           eq_refl).
Defined.

(** X26.  Validation reports every invalid field, not the first one
    only: when the arguments of a tool fail validation, the issues are
    those of each declared field, in the order of the schema, and there is
    at least one; when they pass, no declared field raises an issue. *)
Theorem validation_reports_every_field (t : Tool)
    (props : list (string * JsValue)) :
  match safeParse (argsSchema t) (JObject props) with
  | inl issues =>
      issues = flat_map (issues_of_field props) (argsSchema t)
      /\ issues <> []
  | inr _ =>
      forall field, In field (argsSchema t) -> issues_of_field props field = []
  end.
Proof.
  cbn [safeParse].
  pose proof (parse_shape_issues (argsSchema t) props) as H.
  destruct (parse_shape (argsSchema t) props) as [issues|data]; [exact H|].
  intros field Hin.
  induction (argsSchema t) as [|f shape IH]; [contradiction|].
  cbn [flat_map] in H. apply app_eq_nil in H. destruct H as [Hf Hrest].
  destruct Hin as [<-|Hin]; [exact Hf|exact (IH Hrest Hin)].
Qed.

(** ** The advertised tools *)

(** X24.  The tools the server advertises are the tools it can run: the
    names listed are the own keys of [handlers], in the same order and
    each once; each name is dispatched to the handler of that tool; and
    the input schema advertised for a tool is made from the schema its
    handler validates with ([get_rpc_url], which validates nothing,
    advertises no properties). *)
Theorem advertised_tools_are_handled :
  map ListTools.name ListTools.tools = map tool_name all_tools
  /\ NoDup (map ListTools.name ListTools.tools)
  /\ (forall t, In t all_tools)
  /\ (forall d, In d ListTools.tools ->
        exists t,
          ListTools.name d = tool_name t
          /\ handlers (ListTools.name d) = Some (OwnHandler t)
          /\ ListTools.inputSchema d
             = match t with
               | get_rpc_url => ListTools.NoProperties
               | _ => ListTools.zodToJsonSchema (argsSchema t)
               end).
Proof.
  split; [reflexivity|]. split; [|split].
  - repeat constructor; simpl; intuition discriminate.
  - intros t. destruct t; simpl; tauto.
  - intros d Hin. simpl in Hin.
    destruct Hin as [<-|[<-|[<-|[<-|[<-|[<-|[<-|[<-|[]]]]]]]]].
    + exists get_eth_balance. repeat split.
    + exists get_erc20_balance. repeat split.
    + exists send_eth. repeat split.
    + exists call_contract. repeat split.
    + exists erc20_transfer. repeat split.
    + exists erc20_approve. repeat split.
    + exists erc20_allowance. repeat split.
    + exists get_rpc_url. repeat split.
Qed.

(** ** The further facts on the local node *)

(** X3 on the local node: the tool name ["constructor"]. *)
Lemma inherited_names_are_called_witness :
  assoc "constructor" Object_prototype = Some proto_constructor
  /\ handlers "constructor" = Some (Inherited proto_constructor)
  /\ snd (Scenario.callTool Scenario.read_only "constructor"
            (JObject [("content", JString "anything");
                      ("isError", JBool false)]%string) Scenario.start)
     = Scenario.start
  /\ (forall e,
        fst (Scenario.handleTool Scenario.read_only "constructor"
               (JObject [("content", JString "anything");
                         ("isError", JBool false)]%string) Scenario.start)
        = inl e ->
        exists f, e = Scenario.fault f)
  /\ (proto_constructor = proto_constructor ->
      forall props,
        JObject [("content", JString "anything");
                 ("isError", JBool false)]%string = JObject props ->
        Scenario.callTool Scenario.read_only "constructor"
          (JObject [("content", JString "anything");
                    ("isError", JBool false)]%string) Scenario.start
        = ({| env_content := OtherContent (get "content" props);
              env_isError := get "isError" props |}, Scenario.start)).
Proof.
  split; [reflexivity|].
  exact (inherited_names_are_called Scenario.Account Scenario.World
           Scenario.privateKeyToAccount Scenario.node Scenario.JSON_parse
           Scenario.JSON_stringify Scenario.fault Scenario.ZodError_message
           Scenario.String_of Scenario.read_only "constructor"%string
           proto_constructor
           (JObject [("content", JString "anything");
                     ("isError", JBool false)]%string)
           Scenario.start eq_refl).
Defined.

(** X9 on the local node: a transfer of 0.01 ether. *)
Lemma write_tool_writes_last_witness :
  is_write_tool send_eth = true
  /\ exists reads what text,
       calls_of
         (trace (snd (Scenario.handler Scenario.signing send_eth
                        (JObject [("to", JString "0xto");
                                  ("amountEth", JString "0.01")]%string)
                        Scenario.start)))
       = calls_of (trace Scenario.start) ++ reads ++ [what]
       /\ forallb is_read reads = true
       /\ is_read what = false
       /\ text_response "Transaction broadcast.  Hash: 0xabc"
          = text_response text.
Proof.
  split; [reflexivity|].
  exact (write_tool_writes_last Scenario.Account Scenario.World
           Scenario.privateKeyToAccount Scenario.node Scenario.JSON_parse
           Scenario.JSON_stringify Scenario.fault Scenario.signing
           send_eth
           (JObject [("to", JString "0xto");
                     ("amountEth", JString "0.01")]%string)
           Scenario.start
           (snd (Scenario.handler Scenario.signing send_eth
                   (JObject [("to", JString "0xto");
                             ("amountEth", JString "0.01")]%string)
                   Scenario.start))
           (text_response "Transaction broadcast.  Hash: 0xabc")
           eq_refl eq_refl).
Defined.

(** X11 on the local node: after one transfer of ether, the transaction
    was sent on the signing client the transfer constructed. *)
Lemma writes_are_signed_witness :
  let wallet :=
    {| client_id := 0%nat; client_account := Some "0x01"%string;
       client_transport := rpcUrl Scenario.signing;
       client_chain := testChain Scenario.signing |} in
  let what := SendTransaction (JString "0xto") 10000000000000000 in
  let rt :=
    snd (Scenario.serve Scenario.signing
           [("send_eth"%string,
             JObject [("to", JString "0xto");
                      ("amountEth", JString "0.01")]%string)]
           (initial Scenario.Account Scenario.World tt)) in
  In (Call wallet what) (trace rt)
  /\ is_read what = false
  /\ In (CreateWalletClient wallet) (trace rt)
  /\ exists account,
       client_account wallet = Some account
       /\ Scenario.privateKeyToAccount (getPrivateKey Scenario.signing)
          = inr account.
Proof.
  intros wallet what rt.
  assert (Hin : In (Call wallet what) (trace rt))
    by (right; left; reflexivity).
  split; [exact Hin|]. split; [reflexivity|].
  exact (writes_are_signed Scenario.Account Scenario.World
           Scenario.privateKeyToAccount Scenario.node Scenario.JSON_parse
           Scenario.JSON_stringify Scenario.fault Scenario.ZodError_message
           Scenario.String_of Scenario.signing
           [("send_eth"%string,
             JObject [("to", JString "0xto");
                      ("amountEth", JString "0.01")]%string)]
           tt wallet what Hin eq_refl).
Defined.

(** X13 on the local node: a transfer of 0.01 ether. *)
Lemma send_eth_broadcast_witness :
  Scenario.privateKeyToAccount (getPrivateKey Scenario.signing)
  = inr "0x01"%string
  /\ Viem.parseEther "0.01" = inr 10000000000000000
  /\ exists wallet rt',
       Scenario.handler Scenario.signing send_eth
         (JObject [("to", JString "0xto");
                   ("amountEth", JString "0.01")]%string) Scenario.start
       = (inr (text_response "Transaction broadcast.  Hash: 0xabc"), rt')
       /\ trace rt'
          = trace Scenario.start
            ++ [CreateWalletClient wallet;
                Call wallet
                  (SendTransaction (JString "0xto") 10000000000000000)]
       /\ client_account wallet = Some "0x01"%string
       /\ _publicClient rt' = _publicClient Scenario.start.
Proof.
  split; [reflexivity|]. split; [reflexivity|].
  exact (send_eth_broadcast Scenario.Account Scenario.World
           Scenario.privateKeyToAccount Scenario.node Scenario.JSON_parse
           Scenario.JSON_stringify Scenario.fault Scenario.signing
           "0xto"%string "0.01"%string "0x01"%string 10000000000000000
           "0xabc"%string Scenario.start
           eq_refl eq_refl (fun _ _ => eq_refl)).
Defined.

(** X14 on the local node: an amount in words. *)
Lemma send_eth_malformed_amount_witness :
  Scenario.privateKeyToAccount (getPrivateKey Scenario.signing)
  = inr "0x01"%string
  /\ Viem.parseEther "ten" = inl (Viem.InvalidDecimalNumberError "ten")
  /\ exists wallet rt',
       Scenario.handler Scenario.signing send_eth
         (JObject [("to", JString "0xto");
                   ("amountEth", JString "ten")]%string) Scenario.start
       = (inl (ErrorObject "InvalidDecimalNumberError"
                 "not a valid decimal number"), rt')
       /\ trace rt' = trace Scenario.start ++ [CreateWalletClient wallet]
       /\ calls_of (trace rt') = calls_of (trace Scenario.start).
Proof.
  split; [reflexivity|]. split; [reflexivity|].
  exact (send_eth_malformed_amount Scenario.Account Scenario.World
           Scenario.privateKeyToAccount Scenario.node Scenario.JSON_parse
           Scenario.JSON_stringify Scenario.fault Scenario.signing
           "0xto"%string "ten"%string "0x01"%string
           (Viem.InvalidDecimalNumberError "ten") Scenario.start
           eq_refl eq_refl).
Defined.

(** X15 on the local node: a token amount in words. *)
Lemma erc20_write_not_sent_witness :
  Scenario.privateKeyToAccount (getPrivateKey Scenario.signing)
  = inr "0x01"%string
  /\ Viem.parseUnits "ten" 6 = inl (Viem.InvalidDecimalNumberError "ten")
  /\ exists rt',
       Scenario.handler Scenario.signing erc20_transfer
         (JObject [("tokenAddress", JString "0xtoken"); ("to", JString "0xto");
                   ("amount", JString "ten")]%string) Scenario.start
       = (inl (ErrorObject "InvalidDecimalNumberError"
                 "not a valid decimal number"), rt')
       /\ calls_of (trace rt')
          = calls_of (trace Scenario.start)
            ++ [ReadContract (JString "0xtoken") erc20Abi (JString "decimals")
                  JUndefined].
Proof.
  split; [reflexivity|]. split; [reflexivity|].
  exact (proj1 (erc20_write_not_sent Scenario.Account Scenario.World
                  Scenario.privateKeyToAccount Scenario.node
                  Scenario.JSON_parse Scenario.JSON_stringify Scenario.fault
                  Scenario.signing "0xtoken"%string "0xto"%string
                  "ten"%string "0x01"%string (inr 6%nat)
                  (ErrorObject "InvalidDecimalNumberError"
                     "not a valid decimal number")
                  Scenario.start eq_refl (fun _ _ => eq_refl)
                  (ex_intro _ (Viem.InvalidDecimalNumberError "ten")
                     (conj eq_refl eq_refl)))).
Defined.

(** X16 on the local node: a key that is no hex value. *)
Lemma write_tool_rejected_key_witness :
  is_write_tool erc20_approve = true
  /\ Scenario.privateKeyToAccount_hex (getPrivateKey Scenario.unusable_key)
     = inl (ErrorObject "InvalidPrivateKeyError"
              "private key must be a hex value")
  /\ Server.handler Scenario.Account Scenario.World
       Scenario.privateKeyToAccount_hex Scenario.node Scenario.JSON_parse
       Scenario.JSON_stringify Scenario.fault Scenario.unusable_key
       erc20_approve
       (JObject [("tokenAddress", JString "0xtoken");
                 ("spender", JString "0xs");
                 ("amount", JString "1")]%string) Scenario.start
     = (inl (ErrorObject "InvalidPrivateKeyError"
               "private key must be a hex value"), Scenario.start).
Proof.
  split; [reflexivity|]. split; [reflexivity|].
  exact (write_tool_rejected_key Scenario.Account Scenario.World
           Scenario.privateKeyToAccount_hex Scenario.node
           Scenario.JSON_parse Scenario.JSON_stringify Scenario.fault
           Scenario.unusable_key erc20_approve
           (JObject [("tokenAddress", JString "0xtoken");
                     ("spender", JString "0xs");
                     ("amount", JString "1")]%string)
           [("tokenAddress", JString "0xtoken"); ("spender", JString "0xs");
            ("amount", JString "1")]%string
           (ErrorObject "InvalidPrivateKeyError"
              "private key must be a hex value")
           Scenario.start eq_refl eq_refl eq_refl).
Defined.

(** X17 on the local node: an ABI cut short. *)
Lemma call_contract_unparsable_abi_witness :
  Scenario.JSON_parse "[{"
  = inl (ErrorObject "SyntaxError" "Unexpected token")
  /\ Scenario.handler Scenario.read_only call_contract
       (JObject [("address", JString "0xc"); ("abi", JString "[{");
                 ("functionName", JString "f")]%string) Scenario.start
     = (inl (ErrorObject "SyntaxError" "Unexpected token"), Scenario.start).
Proof.
  split; [reflexivity|].
  exact (call_contract_unparsable_abi Scenario.Account Scenario.World
           Scenario.privateKeyToAccount Scenario.node Scenario.JSON_parse
           Scenario.JSON_stringify Scenario.fault Scenario.read_only
           "0xc"%string "[{"%string "f"%string
           (ErrorObject "SyntaxError" "Unexpected token")
           Scenario.start eq_refl).
Defined.

(** X18 on the local node: [call_contract] without an ABI, with the empty
    ABI, and with the ABI of one [view] function. *)
Lemma call_contract_reads_through_abi_witness :
  is_string Scenario.view_abi = false
  /\ getContract_read Scenario.view_abi = inr true
  /\ getContract_read (JArray []) = inr false
  /\ Scenario.handler Scenario.read_only call_contract
       (JObject [("address",
                  JString "0x000000000000000000000000000000000000dead");
                 ("abi", JArray []);
                 ("functionName", JString "f")]%string) Scenario.start
     = (inl (Scenario.fault
               (PropertyOfNullishFault (JString "f") JUndefined)),
        snd (Server.getPublicClient Scenario.Account Scenario.World
               Scenario.read_only Scenario.start))
  /\ exists c rt1,
       Server.getPublicClient Scenario.Account Scenario.World
         Scenario.read_only Scenario.start = (inr c, rt1)
       /\ calls_of (trace rt1) = calls_of (trace Scenario.start)
       /\ Scenario.handler Scenario.read_only call_contract
            (JObject [("address",
                       JString "0x000000000000000000000000000000000000dead");
                      ("functionName", JString "f")]%string) Scenario.start
          = (inl (Scenario.fault (NotIterableFault JUndefined)), rt1)
       /\ Scenario.handler Scenario.read_only call_contract
            (JObject [("address",
                       JString "0x000000000000000000000000000000000000dead");
                      ("abi", Scenario.view_abi);
                      ("functionName", JString "f")]%string) Scenario.start
          = match getContract_read Scenario.view_abi with
            | inl f => (inl (Scenario.fault f), rt1)
            | inr false =>
                (inl (Scenario.fault
                        (PropertyOfNullishFault (JString "f") JUndefined)),
                 rt1)
            | inr true =>
                let (r, rt2) :=
                  call Scenario.Account Scenario.World
                    (answer_value Scenario.node) c
                    (ReadContract
                       (JString "0x000000000000000000000000000000000000dead")
                       (UserAbi Scenario.view_abi) (JString "f") (JArray []))
                    rt1 in
                (match r with
                 | inr result =>
                     inr (text_response (Scenario.JSON_stringify result))
                 | inl e => inl e
                 end, rt2)
            end.
Proof.
  split; [reflexivity|]. split; [reflexivity|]. split; [reflexivity|].
  split; [reflexivity|].
  exact (call_contract_reads_through_abi Scenario.Account Scenario.World
           Scenario.privateKeyToAccount Scenario.node Scenario.JSON_parse
           Scenario.JSON_stringify Scenario.fault Scenario.read_only
           "0x000000000000000000000000000000000000dead"%string "f"%string
           Scenario.view_abi Scenario.start eq_refl).
Defined.

(** X19 on the local node: a balance asked for without a unit. *)
Lemma get_eth_balance_default_unit_witness :
  get "unit" [("address", JString "0xa")]%string = JUndefined
  /\ Scenario.handler Scenario.read_only get_eth_balance
       (JObject [("address", JString "0xa")]%string) Scenario.start
     = Scenario.handler Scenario.read_only get_eth_balance
         (JObject [("unit", JString "ether"); ("address", JString "0xa")]%string)
         Scenario.start.
Proof.
  split; [reflexivity|].
  exact (get_eth_balance_default_unit Scenario.Account Scenario.World
           Scenario.privateKeyToAccount Scenario.node Scenario.JSON_parse
           Scenario.JSON_stringify Scenario.fault Scenario.read_only
           [("address", JString "0xa")]%string Scenario.start eq_refl).
Defined.

(** X20 on the local node: a unit the tool does not know. *)
Lemma get_eth_balance_invalid_unit_witness :
  get "unit" [("address", JString "0xa"); ("unit", JString "finney")]%string
  = JString "finney"
  /\ JString "finney" <> JUndefined
  /\ (forall u, In u ["wei"; "ether"; "gwei"]%string ->
                JString "finney" <> JString u)
  /\ exists issues,
       Scenario.handler Scenario.read_only get_eth_balance
         (JObject [("address", JString "0xa");
                   ("unit", JString "finney")]%string) Scenario.start
       = (inl (ZodError issues), Scenario.start)
       /\ In (invalid_enum_value ["wei"; "ether"; "gwei"]%string "finney"
                [Key "unit"]) issues.
Proof.
  assert (H1 : JString "finney" <> JUndefined) by discriminate.
  assert (H2 : forall u, In u ["wei"; "ether"; "gwei"]%string ->
                         JString "finney" <> JString u).
  { intros u [<-|[<-|[<-|[]]]]; discriminate. }
  split; [reflexivity|]. split; [exact H1|]. split; [exact H2|].
  exact (get_eth_balance_invalid_unit Scenario.Account Scenario.World
           Scenario.privateKeyToAccount Scenario.node Scenario.JSON_parse
           Scenario.JSON_stringify Scenario.fault Scenario.read_only
           [("address", JString "0xa"); ("unit", JString "finney")]%string
           (JString "finney") Scenario.start eq_refl H1 H2).
Defined.

(** X21 on the local node: an allowance of 1.5 tokens. *)
Lemma erc20_allowance_text_witness :
  exists rt',
    Scenario.handler Scenario.read_only erc20_allowance
      (JObject [("tokenAddress", JString "0xtoken"); ("owner", JString "0xo");
                ("spender", JString "0xs")]%string) Scenario.start
    = (inr (text_response "1.5 tokens (1500000 raw)"), rt')
    /\ calls_of (trace rt')
       = calls_of (trace Scenario.start)
         ++ [ReadContract (JString "0xtoken") erc20Abi (JString "allowance")
               (JArray [JString "0xo"; JString "0xs"]);
             ReadContract (JString "0xtoken") erc20Abi (JString "decimals")
               JUndefined]
    /\ (forall c, In c (readers (trace rt')) ->
                  In c (readers (trace Scenario.start))
                  \/ _publicClient rt' = Some c).
Proof.
  exact (erc20_allowance_text Scenario.Account Scenario.World
           Scenario.privateKeyToAccount Scenario.node Scenario.JSON_parse
           Scenario.JSON_stringify Scenario.fault Scenario.read_only
           "0xtoken"%string "0xo"%string "0xs"%string 1500000 6%nat
           Scenario.start (fun _ _ => eq_refl) (fun _ _ => eq_refl)).
Defined.

(** X22 on the local node: a call without arguments. *)
Lemma non_object_arguments_rejected_witness :
  get_erc20_balance <> get_rpc_url
  /\ (forall props, JUndefined <> JObject props)
  /\ Scenario.handler Scenario.read_only get_erc20_balance JUndefined
       Scenario.start
     = (inl (ZodError [invalid_type "object" PUndefined []]), Scenario.start).
Proof.
  assert (H1 : get_erc20_balance <> get_rpc_url) by discriminate.
  assert (H2 : forall props, JUndefined <> JObject props)
    by (intros props; discriminate).
  split; [exact H1|]. split; [exact H2|].
  exact (non_object_arguments_rejected Scenario.Account Scenario.World
           Scenario.privateKeyToAccount Scenario.node Scenario.JSON_parse
           Scenario.JSON_stringify Scenario.fault Scenario.read_only
           get_erc20_balance JUndefined Scenario.start H1 H2).
Defined.

End ServerFacts.
